(** * AsisteCare backend: contact, review, blog and admin routes

    A shallow embedding of the Express route handlers of the backend
    (routes/admin.js, routes/reviews.js, routes/blog.js, routes/contact.js)
    together with the parts of the MySQL schema (database_schema.sql) the
    handlers rely on, and the properties of these handlers.

    Conventions of the model.
    - JavaScript numbers produced by [parseInt] are integers or NaN; they are
      modelled as [option Z] with [None] for NaN.  A double is exactly the
      integer only below 2^53 in magnitude ([JS.safe]): the model is the
      code's on such numbers, and every property that depends on a number
      read from the request, or computed from one, states that bound.
    - Strings are sequences of 8-bit characters.
    - A table is the list of its rows in storage order; DATETIME values are
      integers (seconds) and [NOW()] is an input of every handler.
    - INSERT and UPDATE are modelled on values that fit the columns of
      database_schema.sql ([contact_fits], [review_fits], [blog_fits]);
      what MySQL does with a longer value depends on its SQL mode, and every
      property about a stored value states that the values fit.
    - ORDER BY is modelled by a stable sort; MySQL leaves the order of rows
      with equal keys open, so a property that compares the rows of two
      statements states that the keys are distinct.
    - A handler is a function from the request and the database to a
      response and the database after the request. *)

From Stdlib Require Import ZArith List String Ascii Bool Lia.
From Stdlib Require Import Sorting.Sorted Sorting.Permutation.
Import ListNotations.
Open Scope string_scope.
Open Scope Z_scope.

(* ================================================================= *)
(** ** JavaScript primitives used by the handlers *)

Module JS.

(** A JavaScript number as [parseInt] produces it: an integer, or NaN. *)
Definition jsnum := option Z.

Definition isNaN (n : jsnum) : bool :=
  match n with None => true | Some _ => false end.

(** [a || b] on numbers: NaN and 0 are falsy. *)
Definition or_num (a b : jsnum) : jsnum :=
  match a with
  | Some v => if v =? 0 then b else a
  | None => b
  end.

Definition sub (a b : jsnum) : jsnum :=
  match a, b with Some x, Some y => Some (x - y) | _, _ => None end.

Definition mul (a b : jsnum) : jsnum :=
  match a, b with Some x, Some y => Some (x * y) | _, _ => None end.

(** [a < k]; every comparison with NaN is false. *)
Definition lt (a : jsnum) (k : Z) : bool :=
  match a with Some x => x <? k | None => false end.

Definition gt (a : jsnum) (k : Z) : bool :=
  match a with Some x => k <? x | None => false end.

(** White space as [\s] and the trimming of [parseInt] see it
    (TAB, LF, VT, FF, CR, SP, NBSP). *)
Definition is_space (c : ascii) : bool :=
  let n := N_of_ascii c in
  (((9 <=? n) && (n <=? 13)) || (n =? 32) || (n =? 160))%N.

Fixpoint trim_start (s : string) : string :=
  match s with
  | String c s' => if is_space c then trim_start s' else s
  | EmptyString => EmptyString
  end.

(** Value of a character as a digit in the given radix. *)
Definition digit_val (radix : Z) (c : ascii) : option Z :=
  let n := Z.of_N (N_of_ascii c) in
  let d := if (48 <=? n) && (n <=? 57) then n - 48
           else if (97 <=? n) && (n <=? 122) then n - 87
           else if (65 <=? n) && (n <=? 90) then n - 55
           else 99 in
  if d <? radix then Some d else None.

(** The longest prefix of digits, read in the radix; NaN when it is empty. *)
Fixpoint parse_digits (radix : Z) (s : string) (acc : jsnum) : jsnum :=
  match s with
  | String c s' =>
      match digit_val radix c with
      | Some d =>
          parse_digits radix s'
            (Some (radix * (match acc with Some a => a | None => 0 end) + d))
      | None => acc
      end
  | EmptyString => acc
  end.

(** [parseInt(s)] without a radix: leading white space, a sign, an
    optional [0x] prefix, then the longest prefix of digits.  The result
    is the integer the digits stand for, which is the number JavaScript
    returns when it is below 2^53 in magnitude ([safe], below). *)
Definition parseInt (s : string) : jsnum :=
  let s := trim_start s in
  let '(sign, s) :=
    match s with
    | String "-" r => (-1, r)
    | String "+" r => (1, r)
    | _ => (1, s)
    end in
  let '(radix, s) :=
    match s with
    | String "0" (String "x" r) => (16, r)
    | String "0" (String "X" r) => (16, r)
    | _ => (10, s)
    end in
  match parse_digits radix s None with
  | Some m => Some (sign * m)
  | None => None
  end.

(** [parseInt] of a value that may be [undefined]: the string
    ["undefined"] has no digit prefix. *)
Definition parseInt_opt (v : option string) : jsnum :=
  match v with
  | Some s => parseInt s
  | None => parseInt "undefined"
  end.

(** Truthiness of a string and of a value that may be [undefined]. *)
Definition truthy (s : string) : bool := negb (String.eqb s "").

Definition truthy_opt (v : option string) : bool :=
  match v with Some s => truthy s | None => false end.

(** [s.split(' ')]. *)
Fixpoint split_on (sep : ascii) (s : string) (cur : string) : list string :=
  match s with
  | EmptyString => [cur]
  | String c s' =>
      if Ascii.eqb c sep then cur :: split_on sep s' ""
      else split_on sep s' (String.append cur (String c ""))
  end.

Definition split_space (s : string) : list string := split_on " " s "".

(** [Math.ceil(a / b)] for integers, [b] not 0. *)
Definition ceil_div (a b : Z) : Z := - ((- a) / b).

(** [Math.ceil(a / b)] with [b] a number; a quotient by NaN or by 0 is
    not an integer. *)
Definition ceil_div_num (a : Z) (b : jsnum) : jsnum :=
  match b with
  | Some b => if b =? 0 then None else Some (ceil_div a b)
  | None => None
  end.

(** A value of a JSON body that the handler does not expect to be text:
    absent, null, a number or a string.  A number is given by the string
    that [String(n)] prints for it (5, 4.9, 1e+21, NaN), which is all that
    the handlers look at. *)
Inductive value : Type :=
| Undefined
| Null
| Num (printed : string)
| Str (s : string).

(** Truthiness: of the numbers, 0, -0 (both printed 0) and NaN are falsy. *)
Definition truthy_value (v : value) : bool :=
  match v with
  | Undefined | Null => false
  | Num printed => negb (String.eqb printed "0" || String.eqb printed "NaN")
  | Str s => truthy s
  end.

(** [parseInt(v)]: the value is turned into its string, which is parsed. *)
Definition parseInt_value (v : value) : jsnum :=
  match v with
  | Undefined => parseInt "undefined"
  | Null => parseInt "null"
  | Num printed => parseInt printed
  | Str s => parseInt s
  end.

(** [Math.max(a, b)]. *)
Definition max (a b : Z) : Z := Z.max a b.

(** [a + b]. *)
Definition add (a b : jsnum) : jsnum :=
  match a, b with Some x, Some y => Some (x + y) | _, _ => None end.

(** [parseInt(s, 10)]: as [parseInt], but a [0x] prefix is not read. *)
Definition parseInt10 (s : string) : jsnum :=
  let s := trim_start s in
  let '(sign, s) :=
    match s with
    | String "-" r => (-1, r)
    | String "+" r => (1, r)
    | _ => (1, s)
    end in
  match parse_digits 10 s None with
  | Some m => Some (sign * m)
  | None => None
  end.

Definition digit_char (d : Z) : ascii :=
  match d with
  | 0 => "0" | 1 => "1" | 2 => "2" | 3 => "3" | 4 => "4"
  | 5 => "5" | 6 => "6" | 7 => "7" | 8 => "8" | _ => "9"
  end%char.

(** The decimal digits of [n >= 0] in front of [acc]. *)
Fixpoint digits_fuel (fuel : nat) (n : Z) (acc : string) : string :=
  match fuel with
  | O => acc
  | S fuel' =>
      let acc' := String (digit_char (n mod 10)) acc in
      if n <? 10 then acc' else digits_fuel fuel' (n / 10) acc'
  end.

(** [String(n)] for an integer: its decimal digits.  This is what
    JavaScript prints for a safe integer; from 10^21 on it turns to the
    exponent form. *)
Definition toString (n : Z) : string :=
  if n <? 0 then String "-" (digits_fuel (S (Z.to_nat (Z.log2 (- n)))) (- n) "")
  else digits_fuel (S (Z.to_nat (Z.log2 n))) n "".

(** [parseInt(n)] for a number: its string is parsed. *)
Definition parseInt_num (n : jsnum) : jsnum :=
  match n with
  | Some z => parseInt (toString z)
  | None => parseInt "NaN"
  end.

(** The integers that a double holds exactly and that [String] prints in
    full (Number.MAX_SAFE_INTEGER is 2^53 - 1).  On these, [parseInt],
    [toString] and the arithmetic above are those of JavaScript, and the
    number is written into an SQL statement by its decimal digits. *)
Definition safe (n : Z) : Prop := - 2 ^ 53 < n < 2 ^ 53.

End JS.

(* ================================================================= *)
(** ** Regular expressions of the validators *)

Module Regex.

Definition is_digit (c : ascii) : bool :=
  let n := N_of_ascii c in ((48 <=? n) && (n <=? 57))%N.

(** The character class [[^\s@]]. *)
Definition plain (c : ascii) : bool :=
  negb (JS.is_space c) && negb (Ascii.eqb c "@").

Fixpoint all_chars (p : ascii -> bool) (s : string) : bool :=
  match s with
  | EmptyString => true
  | String c s' => p c && all_chars p s'
  end.

(** [/^[^\s@]+\.[^\s@]+$/]: some dot has a nonempty class word on both
    sides ([before] tells whether a character was read already). *)
Fixpoint dotted (s : string) (before : bool) : bool :=
  match s with
  | EmptyString => false
  | String c s' =>
      plain c &&
      ((Ascii.eqb c "." && before && negb (String.eqb s' "") && all_chars plain s')
       || dotted s' true)
  end.

(** [/^[^\s@]+@[^\s@]+\.[^\s@]+$/]. *)
Fixpoint email_from (s : string) (before : bool) : bool :=
  match s with
  | EmptyString => false
  | String c s' =>
      if Ascii.eqb c "@" then before && dotted s' false
      else plain c && email_from s' true
  end.

Definition emailRegex_test (s : string) : bool := email_from s false.

(** [/^\d{5}$/]. *)
Definition postalCodeRegex_test (s : string) : bool :=
  (String.length s =? 5)%nat && all_chars is_digit s.

(** [s.replace(/<[^>]*>/g, '')]: a [<] is removed with everything up to
    the next [>]; without a later [>] it stays. *)
Fixpoint drop_through_gt (s : string) : option string :=
  match s with
  | EmptyString => None
  | String c s' => if Ascii.eqb c ">" then Some s' else drop_through_gt s'
  end.

Fixpoint strip_tags_fuel (fuel : nat) (s : string) : string :=
  match fuel with
  | O => s
  | S fuel' =>
      match s with
      | EmptyString => EmptyString
      | String c s' =>
          if Ascii.eqb c "<" then
            match drop_through_gt s' with
            | Some rest => strip_tags_fuel fuel' rest
            | None => s
            end
          else String c (strip_tags_fuel fuel' s')
      end
  end.

Definition strip_tags (s : string) : string :=
  strip_tags_fuel (S (String.length s)) s.

(** [s.split(/\s+/).length]: one more than the number of maximal runs of
    white space. *)
Fixpoint ws_runs (s : string) (in_run : bool) : Z :=
  match s with
  | EmptyString => 0
  | String c s' =>
      if JS.is_space c then (if in_run then 0 else 1) + ws_runs s' true
      else ws_runs s' false
  end.

Definition split_ws_length (s : string) : Z := 1 + ws_runs s false.

End Regex.

(* ================================================================= *)
(** ** The statements the handlers send to MySQL *)

Module Sql.

Section Clauses.
Context {A : Type}.

(** [ORDER BY key DESC].  Rows with equal keys keep their storage
    order; MySQL leaves that order open. *)
Fixpoint insert_desc (key : A -> Z) (x : A) (l : list A) : list A :=
  match l with
  | [] => [x]
  | y :: l' =>
      if key y <=? key x then x :: l else y :: insert_desc key x l'
  end.

Fixpoint order_by_desc (key : A -> Z) (l : list A) : list A :=
  match l with
  | [] => []
  | x :: l' => insert_desc key x (order_by_desc key l')
  end.

(** [LIMIT count]. *)
Definition limit (count : nat) (rows : list A) : list A :=
  firstn count rows.

(** [LIMIT ?, ?] with the two numbers the handler passes.  The server
    rejects a negative offset or count, and the query throws.  (It also
    rejects what is not written as an integer below 2^64; safe integers
    are.) *)
Definition limit_offset (offset count : JS.jsnum) (rows : list A)
  : option (list A) :=
  match offset, count with
  | Some o, Some c =>
      if (o <? 0) || (c <? 0) then None
      else Some (firstn (Z.to_nat c) (skipn (Z.to_nat o) rows))
  | _, _ => None
  end.

(** [SELECT COUNT( * )]. *)
Definition count (rows : list A) : Z := Z.of_nat (List.length rows).

(** [UPDATE ... SET ... WHERE cond]: the table after the statement. *)
Definition update (cond : A -> bool) (set : A -> A) (rows : list A)
  : list A :=
  map (fun r => if cond r then set r else r) rows.

(** [affectedRows] of an UPDATE or DELETE: the rows the WHERE clause
    matches (mysql2 connects with the FOUND_ROWS flag). *)
Definition affectedRows (cond : A -> bool) (rows : list A) : Z :=
  count (filter cond rows).
(** [DELETE FROM ... WHERE cond]: the table after the statement. *)
Definition delete (cond : A -> bool) (rows : list A) : list A :=
  filter (fun r => negb (cond r)) rows.
End Clauses.

End Sql.

(* ================================================================= *)
(** ** Data model (database_schema.sql) *)

Module Contact.
Record t := mk {
  id : Z; name : string; phone : string; email : string;
  postalCode : string; createdAt : Z }.
End Contact.

Module Review.
Record t := mk {
  id : Z; name : string; email : string; rating : Z; comment : string;
  approved : bool; createdAt : Z; updatedAt : Z }.
End Review.

Module Admin.
Record t := mk {
  id : Z; username : string; email : string; password : string;
  name : string; active : bool; createdAt : Z; updatedAt : Z }.
End Admin.

Module BlogPost.
Record t := mk {
  id : Z; title : string; slug : string; excerpt : string;
  content : string; image : option string; published : bool;
  featured : bool; category : string; tags : option string;
  metaTitle : option string; metaDescription : option string;
  readTime : Z; views : Z; authorId : Z; createdAt : Z; updatedAt : Z }.
End BlogPost.

(** The four tables with their AUTO_INCREMENT counters. *)
Record database := mkDb {
  contacts : list Contact.t;
  contacts_auto_increment : Z;
  reviews : list Review.t;
  reviews_auto_increment : Z;
  admins : list Admin.t;
  blog_posts : list BlogPost.t;
  blog_posts_auto_increment : Z }.

Definition set_contacts (db : database) (rows : list Contact.t) (next : Z)
  : database :=
  mkDb rows next (reviews db) (reviews_auto_increment db) (admins db)
       (blog_posts db) (blog_posts_auto_increment db).

Definition set_reviews (db : database) (rows : list Review.t) (next : Z)
  : database :=
  mkDb (contacts db) (contacts_auto_increment db) rows next (admins db)
       (blog_posts db) (blog_posts_auto_increment db).

Definition set_blog_posts (db : database) (rows : list BlogPost.t) (next : Z)
  : database :=
  mkDb (contacts db) (contacts_auto_increment db) (reviews db)
       (reviews_auto_increment db) (admins db) rows next.

(* ================================================================= *)
(** ** Responses *)

(** [res.status(s).json(payload)] and [res.status(s).json({ error })]. *)
Inductive response (P : Type) : Type :=
| Reply (status : Z) (payload : P)
| Error (status : Z) (error : string).
Arguments Reply {P} status payload.
Arguments Error {P} status error.

Definition status_of {P} (r : response P) : Z :=
  match r with Reply s _ => s | Error s _ => s end.

(** The pagination envelope [{ page, limit, total, totalPages }]. *)
Record pagination := mkPagination {
  page : JS.jsnum; limit : JS.jsnum; total : Z; totalPages : JS.jsnum }.

(** The [page] and [limit] entries of [req.query]. *)
Record list_query := mkQuery {
  q_page : option string; q_limit : option string;
  q_status : option string }.

(* ================================================================= *)
(** ** Authentication (routes/admin.js, routes/blog.js) *)

(** The claims a token carries, [req.user]. *)
Record identity := mkIdentity {
  user_id : Z; user_username : string; user_email : string;
  user_name : string }.

(** The two libraries behind the auth flow.  [jwt_verify now token] is
    the decoded payload, or [None] when [jwt.verify] reports an error
    (bad signature, malformed or expired token); [jwt_sign now payload]
    is the token signed at [now] for 24 hours; [bcrypt_compare] is
    [bcrypt.compare]. *)
Class Crypto := {
  jwt_verify : Z -> string -> option identity;
  jwt_sign : Z -> identity -> string;
  bcrypt_compare : string -> string -> bool }.

(** [authHeader && authHeader.split(' ')[1]]. *)
Definition bearer_token (authHeader : option string) : option string :=
  match authHeader with
  | None => None
  | Some h => if JS.truthy h then nth_error (JS.split_space h) 1 else Some h
  end.

Definition authenticateToken `{Crypto} {P : Type} (now : Z)
    (authHeader : option string)
    (next : identity -> database -> response P * database)
    (db : database) : response P * database :=
  match bearer_token authHeader with
  | None => (Error 401 "Access token required", db)
  | Some token =>
      if negb (JS.truthy token) then (Error 401 "Access token required", db)
      else
        match jwt_verify now token with
        | None => (Error 403 "Invalid token", db)
        | Some user => next user db
        end
  end.

(** The body of a successful login. *)
Record login_reply := mkLogin { token : string; admin : identity }.

(** POST /api/admin/auth *)
Definition post_admin_auth `{Crypto} (now : Z)
    (username password : option string) (db : database)
    : response login_reply * database :=
  match username, password with
  | Some username, Some password =>
      if negb (JS.truthy username) || negb (JS.truthy password) then
        (Error 400 "Username and password are required", db)
      else
        let rows :=
          filter (fun a => String.eqb (Admin.username a) username
                           && Admin.active a) (admins db) in
        match rows with
        | [] => (Error 401 "Invalid credentials", db)
        | admin :: _ =>
            let validPassword :=
              bcrypt_compare password (Admin.password admin) in
            if negb validPassword then
              (Error 401 "Invalid credentials", db)
            else
              let who := mkIdentity (Admin.id admin) (Admin.username admin)
                           (Admin.email admin) (Admin.name admin) in
              (Reply 200 (mkLogin (jwt_sign now who) who), db)
        end
  | _, _ => (Error 400 "Username and password are required", db)
  end.

Definition issued_token (r : response login_reply) : option string :=
  match r with Reply _ p => Some (token p) | Error _ _ => None end.

(* ================================================================= *)
(** ** Admin listings (routes/admin.js) *)

(** The body shared by GET /api/admin/contacts and GET /api/admin/reviews:
    [rows] is the table under the route's WHERE clause. *)
Definition paginated_list {A : Type} (createdAt : A -> Z) (rows : list A)
    (q : list_query) : response (list A * pagination) :=
  let page := JS.or_num (JS.parseInt_opt (q_page q)) (Some 1) in
  let limit := JS.or_num (JS.parseInt_opt (q_limit q)) (Some 20) in
  let offset := JS.mul (JS.sub page (Some 1)) limit in
  if JS.isNaN page || JS.isNaN limit || JS.lt page 1 || JS.lt limit 1 then
    Error 400 "Invalid page or limit parameters"
  else
    match Sql.limit_offset offset limit (Sql.order_by_desc createdAt rows) with
    | None => Error 500 "Internal server error"
    | Some found =>
        let total := Sql.count rows in
        Reply 200 (found,
                   mkPagination page limit total (JS.ceil_div_num total limit))
    end.

(** GET /api/admin/contacts, behind [authenticateToken]. *)
Definition get_admin_contacts_handler (q : list_query) (db : database)
    : response (list Contact.t * pagination) :=
  paginated_list Contact.createdAt (contacts db) q.

(** The WHERE clause the [status] parameter selects. *)
Definition status_clause (status : option string) (r : Review.t) : bool :=
  match status with
  | Some s =>
      if String.eqb s "pending" then negb (Review.approved r)
      else if String.eqb s "approved" then Review.approved r
      else true
  | None => true
  end.

(** GET /api/admin/reviews, behind [authenticateToken]. *)
Definition get_admin_reviews_handler (q : list_query) (db : database)
    : response (list Review.t * pagination) :=
  paginated_list Review.createdAt
    (filter (status_clause (q_status q)) (reviews db)) q.

Definition get_admin_contacts `{Crypto} (now : Z) (authHeader : option string)
    (q : list_query) (db : database)
    : response (list Contact.t * pagination) * database :=
  authenticateToken now authHeader
    (fun _ db => (get_admin_contacts_handler q db, db)) db.

Definition get_admin_reviews `{Crypto} (now : Z) (authHeader : option string)
    (q : list_query) (db : database)
    : response (list Review.t * pagination) * database :=
  authenticateToken now authHeader
    (fun _ db => (get_admin_reviews_handler q db, db)) db.

(* ================================================================= *)
(** ** Reviews (routes/reviews.js, routes/admin.js) *)

(** [UPDATE reviews SET approved = 1, updatedAt = NOW()]. *)
Definition set_approved (now : Z) (r : Review.t) : Review.t :=
  Review.mk (Review.id r) (Review.name r) (Review.email r) (Review.rating r)
            (Review.comment r) true (Review.createdAt r) now.

Definition has_review_id (reviewId : JS.jsnum) (r : Review.t) : bool :=
  match reviewId with Some i => Review.id r =? i | None => false end.

(** PUT /api/reviews/:id/approve; the same body serves
    PUT /api/admin/reviews/:id/approve.  The payload is [rows[0]] of the
    second SELECT. *)
Definition put_reviews_approve (id : string) (now : Z) (db : database)
    : response (option Review.t) * database :=
  let reviewId := JS.parseInt id in
  if JS.isNaN reviewId then (Error 400 "Invalid review ID", db)
  else
    let affected := Sql.affectedRows (has_review_id reviewId) (reviews db) in
    let db' :=
      set_reviews db
        (Sql.update (has_review_id reviewId) (set_approved now) (reviews db))
        (reviews_auto_increment db) in
    if affected =? 0 then (Error 404 "Review not found", db')
    else
      let rows := filter (has_review_id reviewId) (reviews db') in
      (Reply 200 (hd_error rows), db').

Definition put_admin_reviews_approve `{Crypto} (now : Z)
    (authHeader : option string) (id : string) (db : database)
    : response (option Review.t) * database :=
  authenticateToken now authHeader
    (fun _ db => put_reviews_approve id now db) db.

(** GET /api/reviews: the handler never reads [req.query]. *)
Definition get_reviews (q : list_query) (db : database)
    : response (list Review.t) :=
  Reply 200
    (Sql.limit 50
       (Sql.order_by_desc Review.createdAt
          (filter Review.approved (reviews db)))).

(** What a handler does besides answering and writing to the database. *)
Inductive effect : Type :=
| MailSent (subject : string)
| ErrorLogged (context : string).

(** [process.env.SMTP_USER] and [process.env.CONTACT_EMAIL]. *)
Record env := mkEnv {
  SMTP_USER : option string; CONTACT_EMAIL : option string }.

(** The notification step of both create handlers; [delivered] tells
    whether [transporter.sendMail] resolves or rejects. *)
Definition notify (e : env) (delivered : bool) (subject : string)
    : list effect :=
  if JS.truthy_opt (SMTP_USER e) && JS.truthy_opt (CONTACT_EMAIL e) then
    if delivered then [MailSent subject]
    else [ErrorLogged "Error sending notification email:"]
  else [].

(** The body of a review submission whose name, e-mail and comment are
    JSON strings or absent; the rating is any of the values of [JS.value]. *)
Record review_body := mkReviewBody {
  rb_name : option string; rb_email : option string;
  rb_rating : JS.value; rb_comment : option string }.

(** POST /api/reviews; the payload is [reviewId].  The INSERT is that of
    values that fit the columns ([review_fits], below). *)
Definition post_reviews (e : env) (delivered : bool) (now : Z)
    (b : review_body) (db : database)
    : response Z * database * list effect :=
  match rb_name b, rb_email b, rb_comment b with
  | Some name, Some email, Some comment =>
      if negb (JS.truthy name) || negb (JS.truthy email)
         || negb (JS.truthy_value (rb_rating b)) || negb (JS.truthy comment)
      then (Error 400 "Missing required fields", db, [])
      else if negb (Regex.emailRegex_test email) then
        (Error 400 "Invalid email format", db, [])
      else
        let ratingNum := JS.parseInt_value (rb_rating b) in
        if JS.isNaN ratingNum || JS.lt ratingNum 1 || JS.gt ratingNum 5 then
          (Error 400 "Rating must be between 1 and 5", db, [])
        else if (String.length comment <? 10)%nat then
          (Error 400 "Comment must be at least 10 characters long", db, [])
        else if (1000 <? String.length comment)%nat then
          (Error 400 "Comment must be less than 1000 characters", db, [])
        else
          match ratingNum with
          | Some n =>
              let insertId := reviews_auto_increment db in
              let row := Review.mk insertId name email n comment false
                                   now now in
              (Reply 201 insertId,
               set_reviews db (reviews db ++ [row]) (insertId + 1),
               notify e delivered
                 "Nueva reseña pendiente de aprobación - Asiste Health Care")
          | None => (Error 400 "Rating must be between 1 and 5", db, [])
          end
  | _, _, _ => (Error 400 "Missing required fields", db, [])
  end.

(* ================================================================= *)
(** ** Contact form (routes/contact.js) *)

(** The body of a contact submission whose fields are JSON strings or
    absent. *)
Record contact_body := mkContactBody {
  cb_name : option string; cb_phone : option string;
  cb_email : option string; cb_postalCode : option string }.

(** POST /api/contact; the payload is [contactId].  The INSERT is that of
    values that fit the columns ([contact_fits], below). *)
Definition post_contact (e : env) (delivered : bool) (now : Z)
    (b : contact_body) (db : database)
    : response Z * database * list effect :=
  match cb_name b, cb_phone b, cb_email b, cb_postalCode b with
  | Some name, Some phone, Some email, Some postalCode =>
      if negb (JS.truthy name) || negb (JS.truthy phone)
         || negb (JS.truthy email) || negb (JS.truthy postalCode)
      then (Error 400 "Missing required fields", db, [])
      else if negb (Regex.emailRegex_test email) then
        (Error 400 "Invalid email format", db, [])
      else if negb (Regex.postalCodeRegex_test postalCode) then
        (Error 400 "Postal code must be 5 digits", db, [])
      else
        let insertId := contacts_auto_increment db in
        let row := Contact.mk insertId name phone email postalCode now in
        (Reply 201 insertId,
         set_contacts db (contacts db ++ [row]) (insertId + 1),
         notify e delivered
           "Nuevo contacto desde la web - Asiste Health Care")
  | _, _, _, _ => (Error 400 "Missing required fields", db, [])
  end.

(* ================================================================= *)
(** ** Blog (routes/blog.js) *)

(** A body field that may be absent, [null] or a string. *)
Inductive nullable : Type :=
| Absent
| IsNull
| Text (s : string).

(** [v || null] when the column is written. *)
Definition or_null (v : nullable) : option string :=
  match v with
  | Text s => if JS.truthy s then Some s else None
  | _ => None
  end.

(** [v || dflt]. *)
Definition or_text (v : option string) (dflt : string) : string :=
  match v with
  | Some s => if JS.truthy s then s else dflt
  | None => dflt
  end.

(** The body of a blog post whose text fields are JSON strings or absent
    (or [null], for the two nullable columns) and whose flags are JSON
    booleans or absent. *)
Record blog_body := mkBlogBody {
  b_title : option string; b_slug : option string;
  b_excerpt : option string; b_content : option string;
  b_image : nullable; b_category : option string; b_tags : nullable;
  b_metaTitle : option string; b_metaDescription : option string;
  b_published : option bool; b_featured : option bool }.

(** [Math.max(1, Math.ceil(wordCount / 200))] with the word count of the
    content without its tags. *)
Definition readTime_of (content : string) : Z :=
  let wordCount := Regex.split_ws_length (Regex.strip_tags content) in
  JS.max 1 (JS.ceil_div wordCount 200).

(** [FROM blog_posts bp JOIN admins a ON bp.authorId = a.id]. *)
Definition join_author (admins : list Admin.t) (posts : list BlogPost.t)
    : list (BlogPost.t * Admin.t) :=
  flat_map
    (fun bp =>
       map (fun a => (bp, a))
           (filter (fun a => BlogPost.authorId bp =? Admin.id a) admins))
    posts.

(** [UPDATE blog_posts SET views = views + 1]; the column [updatedAt] is
    declared ON UPDATE CURRENT_TIMESTAMP. *)
Definition count_view (now : Z) (p : BlogPost.t) : BlogPost.t :=
  BlogPost.mk (BlogPost.id p) (BlogPost.title p) (BlogPost.slug p)
    (BlogPost.excerpt p) (BlogPost.content p) (BlogPost.image p)
    (BlogPost.published p) (BlogPost.featured p) (BlogPost.category p)
    (BlogPost.tags p) (BlogPost.metaTitle p) (BlogPost.metaDescription p)
    (BlogPost.readTime p) (BlogPost.views p + 1) (BlogPost.authorId p)
    (BlogPost.createdAt p) now.

(** [post.views = post.views + 1] on the row already fetched. *)
Definition with_views (v : Z) (p : BlogPost.t) : BlogPost.t :=
  BlogPost.mk (BlogPost.id p) (BlogPost.title p) (BlogPost.slug p)
    (BlogPost.excerpt p) (BlogPost.content p) (BlogPost.image p)
    (BlogPost.published p) (BlogPost.featured p) (BlogPost.category p)
    (BlogPost.tags p) (BlogPost.metaTitle p) (BlogPost.metaDescription p)
    (BlogPost.readTime p) v (BlogPost.authorId p)
    (BlogPost.createdAt p) (BlogPost.updatedAt p).

(** The columns of a related post. *)
Record related_post := mkRelated {
  rel_id : Z; rel_title : string; rel_slug : string; rel_excerpt : string;
  rel_image : option string; rel_category : string; rel_createdAt : Z;
  rel_authorName : string }.

Definition select_related (row : BlogPost.t * Admin.t) : related_post :=
  let (bp, a) := row in
  mkRelated (BlogPost.id bp) (BlogPost.title bp) (BlogPost.slug bp)
    (BlogPost.excerpt bp) (BlogPost.image bp) (BlogPost.category bp)
    (BlogPost.createdAt bp) (Admin.name a).

(** The body of GET /api/blog/:slug: the post with [authorName] and
    [authorEmail], and [relatedPosts]. *)
Record post_reply := mkPostReply {
  post : BlogPost.t; authorName : string; authorEmail : string;
  relatedPosts : list related_post }.

(** GET /api/blog/:slug *)
Definition get_blog_slug (slug : string) (now : Z) (db : database)
    : response post_reply * database :=
  let rows :=
    filter (fun row => String.eqb (BlogPost.slug (fst row)) slug
                       && BlogPost.published (fst row))
           (join_author (admins db) (blog_posts db)) in
  match rows with
  | [] => (Error 404 "Blog post not found", db)
  | (post, a) :: _ =>
      let db' :=
        set_blog_posts db
          (Sql.update (fun p => BlogPost.id p =? BlogPost.id post)
                      (count_view now) (blog_posts db))
          (blog_posts_auto_increment db) in
      let post' := with_views (BlogPost.views post + 1) post in
      let relatedRows :=
        map select_related
          (Sql.limit 3
             (Sql.order_by_desc (fun row => BlogPost.createdAt (fst row))
                (filter
                   (fun row =>
                      String.eqb (BlogPost.category (fst row))
                                 (BlogPost.category post)
                      && negb (BlogPost.id (fst row) =? BlogPost.id post)
                      && BlogPost.published (fst row))
                   (join_author (admins db') (blog_posts db'))))) in
      (Reply 200 (mkPostReply post' (Admin.name a) (Admin.email a)
                              relatedRows), db')
  end.

Definition flag (v : option bool) : bool :=
  match v with Some true => true | _ => false end.

(** POST /api/blog, after [authenticateToken]; the payload is [postId].
    The INSERT fails on the foreign key when the token's admin is gone;
    otherwise it is that of values that fit the columns ([blog_fits],
    below). *)
Definition post_blog_handler (user : identity) (now : Z) (b : blog_body)
    (db : database) : response Z * database :=
  match b_title b, b_slug b, b_excerpt b, b_content b, b_category b with
  | Some title, Some slug, Some excerpt, Some content, Some category =>
      if negb (JS.truthy title) || negb (JS.truthy slug)
         || negb (JS.truthy excerpt) || negb (JS.truthy content)
         || negb (JS.truthy category)
      then (Error 400 "Missing required fields", db)
      else
        let existingRows :=
          filter (fun p => String.eqb (BlogPost.slug p) slug)
                 (blog_posts db) in
        if (0 <? List.length existingRows)%nat then
          (Error 400 "El slug ya existe. Elige otro slug único.", db)
        else if negb (existsb (fun a => Admin.id a =? user_id user)
                              (admins db)) then
          (Error 500 "Internal server error", db)
        else
          let readTime := readTime_of content in
          let insertId := blog_posts_auto_increment db in
          let row :=
            BlogPost.mk insertId title slug excerpt content
              (or_null (b_image b)) (flag (b_published b))
              (flag (b_featured b)) category (or_null (b_tags b))
              (Some (or_text (b_metaTitle b) title))
              (Some (or_text (b_metaDescription b) excerpt))
              readTime 0 (user_id user) now now in
          (Reply 201 insertId,
           set_blog_posts db (blog_posts db ++ [row]) (insertId + 1))
  | _, _, _, _, _ => (Error 400 "Missing required fields", db)
  end.

Definition post_blog `{Crypto} (now : Z) (authHeader : option string)
    (b : blog_body) (db : database) : response Z * database :=
  authenticateToken now authHeader
    (fun user db => post_blog_handler user now b db) db.

(** A column written when the field is truthy. *)
Definition set_text (v : option string) (old : string) : string :=
  match v with
  | Some s => if JS.truthy s then s else old
  | None => old
  end.

Definition set_text_null (v : option string) (old : option string)
    : option string :=
  match v with
  | Some s => if JS.truthy s then Some s else old
  | None => old
  end.

(** A column written when the field is not [undefined]. *)
Definition set_nullable (v : nullable) (old : option string) : option string :=
  match v with
  | Absent => old
  | IsNull => None
  | Text s => Some s
  end.

Definition set_flag (v : option bool) (old : bool) : bool :=
  match v with Some f => f | None => old end.

(** The read time of the new content, [null] without content. *)
Definition new_readTime (b : blog_body) : option Z :=
  match b_content b with
  | Some content =>
      if JS.truthy content then Some (readTime_of content) else None
  | None => None
  end.

(** The SET clause PUT /api/blog/:id builds from the body. *)
Definition apply_blog_update (b : blog_body) (now : Z) (p : BlogPost.t)
    : BlogPost.t :=
  BlogPost.mk (BlogPost.id p)
    (set_text (b_title b) (BlogPost.title p))
    (set_text (b_slug b) (BlogPost.slug p))
    (set_text (b_excerpt b) (BlogPost.excerpt p))
    (set_text (b_content b) (BlogPost.content p))
    (set_nullable (b_image b) (BlogPost.image p))
    (set_flag (b_published b) (BlogPost.published p))
    (set_flag (b_featured b) (BlogPost.featured p))
    (set_text (b_category b) (BlogPost.category p))
    (set_nullable (b_tags b) (BlogPost.tags p))
    (set_text_null (b_metaTitle b) (BlogPost.metaTitle p))
    (set_text_null (b_metaDescription b) (BlogPost.metaDescription p))
    (match new_readTime b with
     | Some rt => if rt =? 0 then BlogPost.readTime p else rt
     | None => BlogPost.readTime p
     end)
    (BlogPost.views p) (BlogPost.authorId p) (BlogPost.createdAt p) now.

Definition has_post_id (postId : JS.jsnum) (p : BlogPost.t) : bool :=
  match postId with Some i => BlogPost.id p =? i | None => false end.

(** PUT /api/blog/:id, after [authenticateToken].  The statements are
    those of an id that is a safe integer and of values that fit the
    columns ([blog_fits], below). *)
Definition put_blog_handler (id : string) (now : Z) (b : blog_body)
    (db : database) : response unit * database :=
  let postId := JS.parseInt id in
  if JS.isNaN postId then (Error 400 "Invalid post ID", db)
  else
    let existingRows :=
      if JS.truthy_opt (b_slug b) then
        filter (fun p => String.eqb (BlogPost.slug p) (or_text (b_slug b) "")
                         && negb (has_post_id postId p))
               (blog_posts db)
      else [] in
    if (0 <? List.length existingRows)%nat then
      (Error 400 "El slug ya existe. Elige otro slug único.", db)
    else
      let affected := Sql.affectedRows (has_post_id postId) (blog_posts db) in
      let db' :=
        set_blog_posts db
          (Sql.update (has_post_id postId) (apply_blog_update b now)
                      (blog_posts db))
          (blog_posts_auto_increment db) in
      if affected =? 0 then (Error 404 "Blog post not found", db')
      else (Reply 200 tt, db').

Definition put_blog `{Crypto} (now : Z) (authHeader : option string)
    (id : string) (b : blog_body) (db : database)
    : response unit * database :=
  authenticateToken now authHeader
    (fun _ db => put_blog_handler id now b db) db.

(* ================================================================= *)
(** ** Specification vocabulary *)

(** Rows from the most recent to the oldest. *)
Definition newest_first {A : Type} (createdAt : A -> Z) (rows : list A)
    : Prop :=
  StronglySorted (fun a b => createdAt b <= createdAt a) rows.

(** The value a listing works with for a parameter that parsed to [parsed]:
    the parsed number, or the default when there is none or it is 0. *)
Definition effective (parsed : JS.jsnum) (dflt : Z) : Z :=
  match parsed with
  | Some n => if n =? 0 then dflt else n
  | None => dflt
  end.

(** The primary key, the UNIQUE slug and the AUTO_INCREMENT counter of
    [blog_posts]. *)
Definition blog_keys_ok (db : database) : Prop :=
  NoDup (map BlogPost.id (blog_posts db))
  /\ NoDup (map BlogPost.slug (blog_posts db))
  /\ Forall (fun p => BlogPost.id p < blog_posts_auto_increment db)
            (blog_posts db).

(** The primary key of [admins] and the foreign key of [blog_posts]. *)
Definition authors_ok (db : database) : Prop :=
  NoDup (map Admin.id (admins db))
  /\ Forall (fun p => In (BlogPost.authorId p) (map Admin.id (admins db)))
            (blog_posts db).

(** A request whose Authorization header carries a token that verifies. *)
Definition authorized `{Crypto} (now : Z) (authHeader : option string)
    (user : identity) : Prop :=
  exists token,
    bearer_token authHeader = Some token
    /\ JS.truthy token = true
    /\ jwt_verify now token = Some user.

(** A toy instance of the libraries, to run the handlers on examples:
    the token ["good"] verifies, and a hash matches the password equal
    to it. *)
Definition demo_crypto : Crypto := {|
  jwt_verify := fun _ t =>
    if String.eqb t "good" then Some (mkIdentity 1 "admin" "a@b.c" "Admin")
    else None;
  jwt_sign := fun _ _ => "good";
  bcrypt_compare := fun pw hash => String.eqb pw hash |}.

(** [rows] with the envelope [pg] is a page of the [matching] rows: the
    envelope counts them, [totalPages] is the least number of pages that
    holds them, the rows are the slice of the page in the newest-first
    order, and the last page has the remainder, or a full page. *)
Definition page_of {A : Type} (createdAt : A -> Z) (matching rows : list A)
    (pg : pagination) : Prop :=
  exists p l tp,
    page pg = Some p /\ limit pg = Some l /\ totalPages pg = Some tp
    /\ 1 <= p /\ 1 <= l
    /\ total pg = Z.of_nat (List.length matching)
    /\ (tp - 1) * l < total pg <= tp * l
    /\ (exists ordered,
          Permutation ordered matching
          /\ newest_first createdAt ordered
          /\ rows = firstn (Z.to_nat l)
                      (skipn (Z.to_nat ((p - 1) * l)) ordered))
    /\ newest_first createdAt rows
    /\ (p = tp ->
        Z.of_nat (List.length rows)
          = if total pg mod l =? 0 then l else total pg mod l).

(* ================================================================= *)
(** ** Example data *)

Definition demo_contact (i created : Z) : Contact.t :=
  Contact.mk i "Ana" "555-1" "a@b.com" "28001" created.

Definition demo_review (i created : Z) (approved : bool) : Review.t :=
  Review.mk i "Ana" "a@b.com" 5 "Very good care" approved created created.

Definition demo_admin : Admin.t :=
  Admin.mk 1 "admin" "admin@asistecare.com" "admin123" "Administrador" true
           0 0.

Definition demo_post (i : Z) (slug category : string) (published : bool)
    (created : Z) : BlogPost.t :=
  BlogPost.mk i "Title" slug "Excerpt" "Some content" None published false
              category None None None 5 0 1 created created.

Definition demo_db : database :=
  mkDb [demo_contact 1 10; demo_contact 2 30; demo_contact 3 20;
        demo_contact 4 50; demo_contact 5 40] 6
       [demo_review 1 10 true; demo_review 2 20 false] 3
       [demo_admin]
       [demo_post 1 "first" "care" true 10;
        demo_post 2 "second" "care" true 20;
        demo_post 3 "draft" "care" false 30] 4.

Definition no_body : blog_body :=
  mkBlogBody None None None None Absent None Absent None None None None.

(** How PUT /api/blog/:id treats the columns.  A text column takes a
    supplied non-empty string and keeps its value otherwise. *)
Definition text_rule (v : option string) (old new : string) : Prop :=
  (forall s, v = Some s -> s <> "" -> new = s)
  /\ (v = None \/ v = Some "" -> new = old).

Definition text_null_rule (v : option string) (old new : option string)
    : Prop :=
  (forall s, v = Some s -> s <> "" -> new = Some s)
  /\ (v = None \/ v = Some "" -> new = old).

(** [image] and [tags] take whatever is supplied, [null] included. *)
Definition nullable_rule (v : nullable) (old new : option string) : Prop :=
  match v with
  | Absent => new = old
  | IsNull => new = None
  | Text s => new = Some s
  end.

Definition flag_rule (v : option bool) (old new : bool) : Prop :=
  match v with
  | Some f => new = f
  | None => new = old
  end.

(** [readTime] is not a field of the body: it follows the content. *)
Definition readTime_rule (content : option string) (old new : Z) : Prop :=
  (forall c, content = Some c -> c <> "" -> new = readTime_of c)
  /\ (content = None \/ content = Some "" -> new = old).

(** The post [new] is the post [old] after an update with body [b]. *)
Definition updated_by (b : blog_body) (now : Z) (old new : BlogPost.t)
    : Prop :=
  BlogPost.id new = BlogPost.id old
  /\ BlogPost.views new = BlogPost.views old
  /\ BlogPost.authorId new = BlogPost.authorId old
  /\ BlogPost.createdAt new = BlogPost.createdAt old
  /\ BlogPost.updatedAt new = now
  /\ text_rule (b_title b) (BlogPost.title old) (BlogPost.title new)
  /\ text_rule (b_slug b) (BlogPost.slug old) (BlogPost.slug new)
  /\ text_rule (b_excerpt b) (BlogPost.excerpt old) (BlogPost.excerpt new)
  /\ text_rule (b_content b) (BlogPost.content old) (BlogPost.content new)
  /\ text_rule (b_category b) (BlogPost.category old) (BlogPost.category new)
  /\ nullable_rule (b_image b) (BlogPost.image old) (BlogPost.image new)
  /\ nullable_rule (b_tags b) (BlogPost.tags old) (BlogPost.tags new)
  /\ text_null_rule (b_metaTitle b) (BlogPost.metaTitle old)
                    (BlogPost.metaTitle new)
  /\ text_null_rule (b_metaDescription b) (BlogPost.metaDescription old)
                    (BlogPost.metaDescription new)
  /\ flag_rule (b_published b) (BlogPost.published old)
               (BlogPost.published new)
  /\ flag_rule (b_featured b) (BlogPost.featured old)
               (BlogPost.featured new)
  /\ readTime_rule (b_content b) (BlogPost.readTime old)
                   (BlogPost.readTime new).

(** The slug of the body is in use by a post with another id. *)
Definition slug_taken (b : blog_body) (n : Z) (db : database) : Prop :=
  exists s p,
    b_slug b = Some s /\ s <> "" /\ In p (blog_posts db)
    /\ BlogPost.slug p = s /\ BlogPost.id p <> n.

(** The WHERE clause of the related posts of [p]. *)
Definition related_clause (p q : BlogPost.t) : bool :=
  String.eqb (BlogPost.category q) (BlogPost.category p)
  && negb (BlogPost.id q =? BlogPost.id p)
  && BlogPost.published q.

(** The mail transport is configured. *)
Definition configured (e : env) : bool :=
  JS.truthy_opt (SMTP_USER e) && JS.truthy_opt (CONTACT_EMAIL e).

(** A contact submission that passes the validation of POST /api/contact. *)
Definition valid_contact (b : contact_body)
    (name phone email postalCode : string) : Prop :=
  cb_name b = Some name /\ cb_phone b = Some phone
  /\ cb_email b = Some email /\ cb_postalCode b = Some postalCode
  /\ name <> "" /\ phone <> ""
  /\ Regex.emailRegex_test email = true
  /\ Regex.postalCodeRegex_test postalCode = true.

(** The text fields of a review submission pass the validation of
    POST /api/reviews. *)
Definition valid_review_text (b : review_body) (name email comment : string)
    : Prop :=
  rb_name b = Some name /\ rb_email b = Some email
  /\ rb_comment b = Some comment
  /\ name <> "" /\ Regex.emailRegex_test email = true
  /\ (10 <= String.length comment <= 1000)%nat.

(* ================================================================= *)
(** ** Deleting rows (routes/contact.js, routes/reviews.js,
       routes/blog.js, routes/admin.js) *)

Definition has_contact_id (contactId : JS.jsnum) (c : Contact.t) : bool :=
  match contactId with Some i => Contact.id c =? i | None => false end.

(** DELETE /api/contact/:id; the same body serves
    DELETE /api/admin/contacts/:id. *)
Definition delete_contact (id : string) (db : database)
    : response unit * database :=
  let contactId := JS.parseInt id in
  if JS.isNaN contactId then (Error 400 "Invalid contact ID", db)
  else
    let affected := Sql.affectedRows (has_contact_id contactId) (contacts db) in
    let db' :=
      set_contacts db (Sql.delete (has_contact_id contactId) (contacts db))
                   (contacts_auto_increment db) in
    if affected =? 0 then (Error 404 "Contact not found", db')
    else (Reply 200 tt, db').

Definition delete_admin_contacts `{Crypto} (now : Z)
    (authHeader : option string) (id : string) (db : database)
    : response unit * database :=
  authenticateToken now authHeader (fun _ db => delete_contact id db) db.

(** DELETE /api/reviews/:id; the same body serves
    DELETE /api/admin/reviews/:id. *)
Definition delete_reviews (id : string) (db : database)
    : response unit * database :=
  let reviewId := JS.parseInt id in
  if JS.isNaN reviewId then (Error 400 "Invalid review ID", db)
  else
    let affected := Sql.affectedRows (has_review_id reviewId) (reviews db) in
    let db' :=
      set_reviews db (Sql.delete (has_review_id reviewId) (reviews db))
                  (reviews_auto_increment db) in
    if affected =? 0 then (Error 404 "Review not found", db')
    else (Reply 200 tt, db').

Definition delete_admin_reviews `{Crypto} (now : Z)
    (authHeader : option string) (id : string) (db : database)
    : response unit * database :=
  authenticateToken now authHeader (fun _ db => delete_reviews id db) db.

(** DELETE /api/blog/:id, after [authenticateToken]; the statement is
    that of an id that is a safe integer. *)
Definition delete_blog_handler (id : string) (db : database)
    : response unit * database :=
  let postId := JS.parseInt id in
  if JS.isNaN postId then (Error 400 "Invalid post ID", db)
  else
    let affected := Sql.affectedRows (has_post_id postId) (blog_posts db) in
    let db' :=
      set_blog_posts db (Sql.delete (has_post_id postId) (blog_posts db))
                     (blog_posts_auto_increment db) in
    if affected =? 0 then (Error 404 "Blog post not found", db')
    else (Reply 200 tt, db').

Definition delete_blog `{Crypto} (now : Z) (authHeader : option string)
    (id : string) (db : database) : response unit * database :=
  authenticateToken now authHeader (fun _ db => delete_blog_handler id db) db.

(* ================================================================= *)
(** ** Reading the blog (routes/blog.js) *)

(** The [category], [featured], [limit] and [offset] entries of
    [req.query]. *)
Record blog_query := mkBlogQuery {
  bq_category : option string; bq_featured : option string;
  bq_limit : option string; bq_offset : option string }.

(** The envelope [{ total, limit, offset, hasMore }]. *)
Record blog_pagination := mkBlogPagination {
  bp_total : Z; bp_limit : JS.jsnum; bp_offset : JS.jsnum;
  bp_hasMore : bool }.

(** The WHERE clause of GET /api/blog. *)
Definition blog_list_clause (category featured : option string)
    (p : BlogPost.t) : bool :=
  BlogPost.published p
  && (match category with
      | Some c =>
          if JS.truthy c && negb (String.eqb c "all")
          then String.eqb (BlogPost.category p) c else true
      | None => true
      end)
  && (match featured with
      | Some f => if String.eqb f "true" then BlogPost.featured p else true
      | None => true
      end).

(** [limit] and [offset] as GET /api/blog (and test-params.js) read
    them. *)
Definition blog_limit (q : blog_query) : JS.jsnum :=
  let limitParam := JS.parseInt10 (or_text (bq_limit q) "10") in
  if JS.isNaN limitParam then Some 10 else limitParam.

Definition blog_offset (q : blog_query) : JS.jsnum :=
  let offsetParam := JS.parseInt10 (or_text (bq_offset q) "0") in
  if JS.isNaN offsetParam then Some 0 else offsetParam.

(** GET /api/blog: the posts with [authorName], and the envelope.  The
    rows come from the join with [admins], the total from [blog_posts]
    alone. *)
Definition get_blog (q : blog_query) (db : database)
    : response (list (BlogPost.t * string) * blog_pagination) :=
  let limit := blog_limit q in
  let offset := blog_offset q in
  match
    Sql.limit_offset (JS.parseInt_num offset) (JS.parseInt_num limit)
      (Sql.order_by_desc (fun row => BlogPost.createdAt (fst row))
         (filter (fun row => blog_list_clause (bq_category q)
                               (bq_featured q) (fst row))
                 (join_author (admins db) (blog_posts db))))
  with
  | None => Error 500 "Internal server error"
  | Some rows =>
      let total :=
        Sql.count (filter (blog_list_clause (bq_category q) (bq_featured q))
                          (blog_posts db)) in
      Reply 200
        (map (fun row => (fst row, Admin.name (snd row))) rows,
         mkBlogPagination total limit offset
           (JS.lt (JS.add offset limit) total))
  end.

(** GET /api/blog/admin/:id, after [authenticateToken]: the post with
    [authorName] and [authorEmail]; the statement is that of an id that is
    a safe integer. *)
Definition get_blog_admin_handler (id : string) (db : database)
    : response (BlogPost.t * string * string) :=
  let postId := JS.parseInt id in
  if JS.isNaN postId then Error 400 "Invalid post ID"
  else
    let rows :=
      filter (fun row => has_post_id postId (fst row))
             (join_author (admins db) (blog_posts db)) in
    match rows with
    | [] => Error 404 "Blog post not found"
    | (bp, a) :: _ => Reply 200 (bp, Admin.name a, Admin.email a)
    end.

Definition get_blog_admin `{Crypto} (now : Z) (authHeader : option string)
    (id : string) (db : database)
    : response (BlogPost.t * string * string) * database :=
  authenticateToken now authHeader
    (fun _ db => (get_blog_admin_handler id db, db)) db.

(** [GROUP BY category] with [COUNT( * )]: one more for a category that
    has a group, a new group otherwise. *)
Fixpoint bump (c : string) (groups : list (string * Z))
    : list (string * Z) :=
  match groups with
  | [] => [(c, 1)]
  | (c', k) :: rest =>
      if String.eqb c' c then (c', k + 1) :: rest
      else (c', k) :: bump c rest
  end.

Definition group_count (cats : list string) : list (string * Z) :=
  fold_left (fun groups c => bump c groups) cats [].

(** GET /api/blog/categories/list *)
Definition get_blog_categories (db : database) : response (list (string * Z)) :=
  Reply 200
    (Sql.order_by_desc snd
       (group_count
          (map BlogPost.category
               (filter BlogPost.published (blog_posts db))))).

(* ================================================================= *)
(** ** More specification vocabulary *)

(** The rows of a listing, none when it failed. *)
Definition rows_of {A B : Type} (r : response (list A * B)) : list A :=
  match r with
  | Reply _ (rows, _) => rows
  | Error _ _ => []
  end.

(** The admin contact listing, page [p] with [l] rows to the page. *)
Definition contacts_page (l : Z) (db : database) (p : nat)
    : list Contact.t :=
  rows_of (get_admin_contacts_handler
             (mkQuery (Some (JS.toString (Z.of_nat p)))
                      (Some (JS.toString l)) None) db).

(** The shape [/^[^\s@]+@[^\s@]+\.[^\s@]+$/] asks for. *)
Definition email_shape (s : string) : Prop :=
  exists user host tld,
    s = String.append user
          (String "@" (String.append host (String "." tld)))
    /\ user <> "" /\ host <> "" /\ tld <> ""
    /\ Regex.all_chars Regex.plain user = true
    /\ Regex.all_chars Regex.plain host = true
    /\ Regex.all_chars Regex.plain tld = true.

Fixpoint no_space (s : string) : bool :=
  match s with
  | EmptyString => true
  | String c s' => negb (Ascii.eqb c " ") && no_space s'
  end.

(** The token signed at [now] for [who] is a single word that verifies
    at [later]. *)
Definition token_usable `{Crypto} (now later : Z) (who : identity) : Prop :=
  jwt_verify later (jwt_sign now who) = Some who
  /\ jwt_sign now who <> ""
  /\ no_space (jwt_sign now who) = true.

(** The identity a login puts in the token. *)
Definition identity_of (a : Admin.t) : identity :=
  mkIdentity (Admin.id a) (Admin.username a) (Admin.email a) (Admin.name a).

(** A second toy instance: tokens are the user name, valid for a day
    after time 0, and decode to the seeded admin. *)
Definition demo_crypto_day : Crypto := {|
  jwt_verify := fun later t =>
    if String.eqb t "admin" && (later <? 86400)
    then Some (mkIdentity 1 "admin" "admin@asistecare.com" "Administrador")
    else None;
  jwt_sign := fun _ who => user_username who;
  bcrypt_compare := fun pw hash => String.eqb pw hash |}.

Definition sum_counts (groups : list (string * Z)) : Z :=
  fold_right (fun g acc => snd g + acc) 0 groups.

(** What the validation of POST /api/reviews lets into the table. *)
Definition review_row_ok (r : Review.t) : Prop :=
  1 <= Review.rating r <= 5
  /\ (10 <= String.length (Review.comment r) <= 1000)%nat
  /\ email_shape (Review.email r)
  /\ Review.name r <> "".

(** What the validation of POST /api/contact lets into the table. *)
Definition contact_row_ok (c : Contact.t) : Prop :=
  Contact.name c <> "" /\ Contact.phone c <> ""
  /\ email_shape (Contact.email c)
  /\ String.length (Contact.postalCode c) = 5%nat
  /\ Regex.all_chars Regex.is_digit (Contact.postalCode c) = true.

(** The posts of GET /api/blog for a limit and an offset. *)
Definition blog_page (category featured : option string) (l o : Z)
    (db : database) : list (BlogPost.t * string) :=
  rows_of (get_blog (mkBlogQuery category featured (Some (JS.toString l))
                                 (Some (JS.toString o))) db).

(** The number a parameter of GET /api/blog stands for. *)
Definition blog_param (v : option string) (dflt : Z) : Z :=
  match JS.parseInt10 (or_text v (JS.toString dflt)) with
  | Some n => n
  | None => dflt
  end.

(** The count the groups hold for a category, 0 when it has no group. *)
Definition group_total (c : string) (groups : list (string * Z)) : Z :=
  fold_right (fun g acc => if String.eqb (fst g) c then snd g + acc else acc)
             0 groups.

(** How often a category occurs. *)
Definition occurrences (c : string) (cats : list string) : Z :=
  Z.of_nat (List.length (filter (String.eqb c) cats)).

(** The [total] of a listing's envelope. *)
Definition total_of {A : Type} (r : response (list A * pagination))
    : option Z :=
  match r with
  | Reply _ (_, pg) => Some (total pg)
  | Error _ _ => None
  end.

Definition with_status (q : list_query) (status : option string)
    : list_query :=
  mkQuery (q_page q) (q_limit q) status.

(** The text after an id does not begin with a digit, nor with the [x]
    that would make [0x] a hexadecimal prefix. *)
Definition ends_the_number (rest : string) : bool :=
  match rest with
  | EmptyString => true
  | String c _ =>
      negb (Regex.is_digit c) && negb (Ascii.eqb c "x")
      && negb (Ascii.eqb c "X")
  end.

(* ================================================================= *)
(** ** Column widths (database_schema.sql) *)

(** A body field, when it is present, is no longer than the column. *)
Definition fits (width : Z) (v : option string) : Prop :=
  match v with
  | Some s => Z.of_nat (String.length s) <= width
  | None => True
  end.

Definition fits_nullable (width : Z) (v : nullable) : Prop :=
  match v with
  | Text s => Z.of_nat (String.length s) <= width
  | _ => True
  end.

(** The widths of TEXT and LONGTEXT. *)
Definition TEXT : Z := 65535.
Definition LONGTEXT : Z := 4294967295.

(** contacts: name VARCHAR(255), phone VARCHAR(50), email VARCHAR(255),
    postalCode VARCHAR(10). *)
Definition contact_fits (b : contact_body) : Prop :=
  fits 255 (cb_name b) /\ fits 50 (cb_phone b)
  /\ fits 255 (cb_email b) /\ fits 10 (cb_postalCode b).

(** reviews: name VARCHAR(255), email VARCHAR(255), comment TEXT. *)
Definition review_fits (b : review_body) : Prop :=
  fits 255 (rb_name b) /\ fits 255 (rb_email b) /\ fits TEXT (rb_comment b).

(** blog_posts: title, slug, image and metaTitle VARCHAR(500), category
    VARCHAR(100), excerpt, tags and metaDescription TEXT, content
    LONGTEXT. *)
Definition blog_fits (b : blog_body) : Prop :=
  fits 500 (b_title b) /\ fits 500 (b_slug b)
  /\ fits TEXT (b_excerpt b) /\ fits LONGTEXT (b_content b)
  /\ fits_nullable 500 (b_image b) /\ fits 100 (b_category b)
  /\ fits_nullable TEXT (b_tags b)
  /\ fits 500 (b_metaTitle b) /\ fits TEXT (b_metaDescription b).

(** The page, the limit and the offset that an admin listing computes from
    its query are safe integers ([dflt] is the route's default limit). *)
Definition listing_in_range (q : list_query) (dflt : Z) : Prop :=
  let p := effective (JS.parseInt_opt (q_page q)) 1 in
  let l := effective (JS.parseInt_opt (q_limit q)) dflt in
  JS.safe p /\ JS.safe l /\ JS.safe ((p - 1) * l).

(* ================================================================= *)
(** ** The listing of routes/reviews.js *)

(** [Number(v)] for a query parameter, where this model says what it is:
    NaN for [undefined], 0 for the empty string, and the integer for an
    optional sign followed by decimal digits only, when that is a safe
    integer.  [None] stands for every other string (white space,
    fractions, exponents, other radixes, Infinity, text), which the model
    does not cover. *)
Definition Number_of_query (v : option string) : option JS.jsnum :=
  match v with
  | None => Some None
  | Some "" => Some (Some 0)
  | Some s =>
      let '(sign, d) :=
        match s with
        | String "-" r => (-1, r)
        | String "+" r => (1, r)
        | _ => (1, s)
        end in
      if JS.truthy d && Regex.all_chars Regex.is_digit d then
        match JS.parse_digits 10 d None with
        | Some m => if m <? 2 ^ 53 then Some (Some (sign * m)) else None
        | None => None
        end
      else None
  end.

(** A number is NaN or a safe integer. *)
Definition safe_num (n : JS.jsnum) : bool :=
  match n with
  | Some z => (- 2 ^ 53 <? z) && (z <? 2 ^ 53)
  | None => true
  end.

(** GET /api/reviews/admin: no token is asked for and the page and the
    limit are not checked.  [None] when a parameter is outside
    [Number_of_query] or the offset is not a safe integer. *)
Definition get_reviews_admin (q : list_query) (db : database)
    : option (response (list Review.t * pagination)) :=
  match Number_of_query (q_page q), Number_of_query (q_limit q) with
  | Some np, Some nl =>
      let page := JS.or_num np (Some 1) in
      let limit := JS.or_num nl (Some 10) in
      let offset := JS.mul (JS.sub page (Some 1)) limit in
      let rows := filter (status_clause (q_status q)) (reviews db) in
      if safe_num offset then
        Some
          match Sql.limit_offset offset limit
                  (Sql.order_by_desc Review.createdAt rows) with
          | None => Error 500 "Internal server error"
          | Some found =>
              let total := Sql.count rows in
              Reply 200
                (found,
                 mkPagination page limit total (JS.ceil_div_num total limit))
          end
      else None
  | _, _ => None
  end.

(** The text begins with a decimal digit. *)
Definition begins_with_digit (s : string) : bool :=
  match s with
  | String c _ => Regex.is_digit c
  | EmptyString => false
  end.

(* ================================================================= *)
(** ** ORDER BY and LIMIT *)

Lemma firstn_incl {A : Type} (n : nat) (l : list A) (x : A) :
  In x (firstn n l) -> In x l.
Proof.
  intros H. rewrite <- (firstn_skipn n l). apply in_or_app. now left.
Qed.

Lemma skipn_incl {A : Type} (n : nat) (l : list A) (x : A) :
  In x (skipn n l) -> In x l.
Proof.
  intros H. rewrite <- (firstn_skipn n l). apply in_or_app. now right.
Qed.

Section SqlFacts.
Context {A : Type} (key : A -> Z).

Lemma insert_desc_perm (x : A) (l : list A) :
  Permutation (Sql.insert_desc key x l) (x :: l).
Proof.
  induction l as [|y l IH]; simpl.
  - apply Permutation_refl.
  - destruct (key y <=? key x).
    + apply Permutation_refl.
    + eapply perm_trans; [apply perm_skip, IH | apply perm_swap].
Qed.

Lemma order_by_desc_perm (l : list A) :
  Permutation (Sql.order_by_desc key l) l.
Proof.
  induction l as [|x l IH]; simpl.
  - constructor.
  - eapply perm_trans; [apply insert_desc_perm | now apply perm_skip].
Qed.

Lemma order_by_desc_length (l : list A) :
  List.length (Sql.order_by_desc key l) = List.length l.
Proof. apply Permutation_length, order_by_desc_perm. Qed.

Lemma order_by_desc_In (x : A) (l : list A) :
  In x (Sql.order_by_desc key l) <-> In x l.
Proof.
  split; apply Permutation_in;
    [apply order_by_desc_perm | apply Permutation_sym, order_by_desc_perm].
Qed.

Lemma insert_desc_sorted (x : A) (l : list A) :
  newest_first key l -> newest_first key (Sql.insert_desc key x l).
Proof.
  unfold newest_first.
  induction l as [|y l IH]; simpl; intros Hs.
  - constructor; [constructor | constructor].
  - destruct (key y <=? key x) eqn:E.
    + apply Z.leb_le in E.
      constructor; [exact Hs|].
      inversion Hs as [|? ? Hl Hy]; subst.
      constructor; [exact E|].
      rewrite Forall_forall in *. intros z Hz. specialize (Hy z Hz). lia.
    + apply Z.leb_gt in E.
      inversion Hs as [|? ? Hl Hy]; subst.
      constructor; [now apply IH|].
      rewrite Forall_forall in *. intros z Hz.
      apply (Permutation_in _ (insert_desc_perm x l)) in Hz.
      destruct Hz as [<-|Hz]; [lia | now apply Hy].
Qed.

Lemma order_by_desc_sorted (l : list A) :
  newest_first key (Sql.order_by_desc key l).
Proof.
  induction l as [|x l IH]; simpl.
  - constructor.
  - now apply insert_desc_sorted.
Qed.

Lemma newest_first_skipn (n : nat) (l : list A) :
  newest_first key l -> newest_first key (skipn n l).
Proof.
  unfold newest_first. revert l.
  induction n as [|n IH]; intros [|x l] Hs; simpl; auto.
  inversion Hs; subst. now apply IH.
Qed.

Lemma newest_first_firstn (n : nat) (l : list A) :
  newest_first key l -> newest_first key (firstn n l).
Proof.
  unfold newest_first. revert l.
  induction n as [|n IH]; intros [|x l] Hs; simpl; try constructor.
  - inversion Hs; subst. now apply IH.
  - inversion Hs as [|? ? Hl Hx]; subst.
    rewrite Forall_forall in *. intros z Hz.
    apply Hx. eapply firstn_incl; eauto.
Qed.

(** What [LIMIT n] leaves out is no more recent than what it keeps. *)
Lemma newest_first_cut (n : nat) (l : list A) (x y : A) :
  newest_first key l ->
  In x (firstn n l) -> In y (skipn n l) -> key y <= key x.
Proof.
  unfold newest_first. revert l.
  induction n as [|n IH]; intros [|z l] Hs Hx Hy; simpl in *;
    try contradiction.
  inversion Hs as [|? ? Hl Hz]; subst.
  destruct Hx as [<-|Hx].
  - rewrite Forall_forall in Hz. apply Hz. eapply skipn_incl; eauto.
  - eapply IH; eauto.
Qed.
End SqlFacts.

(* ================================================================= *)
(** ** The token middleware *)

Section AuthFacts.
Context `{Crypto}.

Lemma authenticateToken_authorized {P : Type} (now : Z)
    (authHeader : option string) (user : identity)
    (next : identity -> database -> response P * database)
    (db : database) :
  authorized now authHeader user ->
  authenticateToken now authHeader next db = next user db.
Proof.
  intros (token & Hb & Ht & Hv).
  unfold authenticateToken. now rewrite Hb, Ht, Hv.
Qed.

Lemma authenticateToken_cases {P : Type} (now : Z)
    (authHeader : option string)
    (next : identity -> database -> response P * database)
    (db : database) :
  authenticateToken now authHeader next db
    = (Error 401 "Access token required", db)
  \/ authenticateToken now authHeader next db
    = (Error 403 "Invalid token", db)
  \/ exists user, authenticateToken now authHeader next db = next user db.
Proof.
  unfold authenticateToken.
  destruct (bearer_token authHeader) as [token|]; [|now left].
  destruct (JS.truthy token); simpl; [|now left].
  destruct (jwt_verify now token) as [user|]; [|now right; left].
  right; right. now exists user.
Qed.
End AuthFacts.

(* ================================================================= *)
(** ** Paginated listings *)

Lemma or_num_effective (parsed : JS.jsnum) (dflt : Z) :
  JS.or_num parsed (Some dflt) = Some (effective parsed dflt).
Proof.
  destruct parsed as [n|]; simpl; [|reflexivity].
  now destruct (n =? 0).
Qed.

Lemma effective_lt_1 (parsed : JS.jsnum) (dflt : Z) :
  1 <= dflt -> (effective parsed dflt <? 1) = JS.lt parsed 0.
Proof.
  intros Hd. destruct parsed as [n|]; simpl.
  - destruct (n =? 0) eqn:E.
    + apply Z.eqb_eq in E. subst. simpl.
      apply Z.ltb_ge. lia.
    + apply Z.eqb_neq in E.
      destruct (n <? 0) eqn:E'.
      * apply Z.ltb_lt in E'. apply Z.ltb_lt. lia.
      * apply Z.ltb_ge in E'. apply Z.ltb_ge. lia.
  - apply Z.ltb_ge. lia.
Qed.

(** The listing, with the parsing resolved. *)
Lemma paginated_list_unfold {A : Type} (createdAt : A -> Z) (rows : list A)
    (q : list_query) :
  let p := effective (JS.parseInt_opt (q_page q)) 1 in
  let l := effective (JS.parseInt_opt (q_limit q)) 20 in
  paginated_list createdAt rows q =
    if JS.lt (JS.parseInt_opt (q_page q)) 0
       || JS.lt (JS.parseInt_opt (q_limit q)) 0
    then Error 400 "Invalid page or limit parameters"
    else Reply 200
           (firstn (Z.to_nat l)
              (skipn (Z.to_nat ((p - 1) * l))
                 (Sql.order_by_desc createdAt rows)),
            mkPagination (Some p) (Some l) (Sql.count rows)
              (Some (JS.ceil_div (Sql.count rows) l))).
Proof.
  intros p l. unfold paginated_list.
  rewrite !or_num_effective. fold p l. simpl.
  unfold p at 1, l at 1. rewrite !effective_lt_1 by lia.
  destruct (JS.lt (JS.parseInt_opt (q_page q)) 0) eqn:Ep; simpl;
    [reflexivity|].
  destruct (JS.lt (JS.parseInt_opt (q_limit q)) 0) eqn:El; simpl;
    [reflexivity|].
  assert (Hp : 1 <= p).
  { apply Z.ltb_ge. unfold p. now rewrite effective_lt_1 by lia. }
  assert (Hl : 1 <= l).
  { apply Z.ltb_ge. unfold l. now rewrite effective_lt_1 by lia. }
  replace ((p - 1) * l <? 0) with false by (symmetry; apply Z.ltb_ge; nia).
  replace (l <? 0) with false by (symmetry; apply Z.ltb_ge; lia).
  replace (l =? 0) with false by (symmetry; apply Z.eqb_neq; lia).
  reflexivity.
Qed.

Lemma effective_guard (page limit : JS.jsnum) :
  JS.lt page 0 || JS.lt limit 0 = false ->
  1 <= effective page 1 /\ 1 <= effective limit 20.
Proof.
  intros H. apply orb_false_iff in H as [Hp Hl].
  rewrite <- (effective_lt_1 _ 1) in Hp by lia.
  rewrite <- (effective_lt_1 _ 20) in Hl by lia.
  apply Z.ltb_ge in Hp, Hl. now split.
Qed.

(** [Math.ceil(n / l)] is the least number of pages of [l] rows that
    hold [n] rows. *)
Lemma ceil_div_bounds (n l : Z) :
  1 <= l -> (JS.ceil_div n l - 1) * l < n <= JS.ceil_div n l * l.
Proof.
  intros Hl. unfold JS.ceil_div.
  pose proof (Z.div_mod (- n) l ltac:(lia)) as Hd.
  pose proof (Z.mod_pos_bound (- n) l ltac:(lia)) as Hm.
  nia.
Qed.

(** The size of the last page. *)
Lemma last_page_size (n l tp : Z) :
  1 <= l -> 1 <= tp -> (tp - 1) * l < n <= tp * l ->
  n - (tp - 1) * l = if n mod l =? 0 then l else n mod l.
Proof.
  intros Hl Htp Hb.
  destruct (Z.eq_dec n (tp * l)) as [->|Hne].
  - rewrite Z.mod_mul by lia. simpl. lia.
  - assert (Hm : n mod l = n - (tp - 1) * l).
    { symmetry. apply (Z.mod_unique n l (tp - 1)); [left; lia | lia]. }
    rewrite Hm.
    replace (n - (tp - 1) * l =? 0) with false
      by (symmetry; apply Z.eqb_neq; lia).
    reflexivity.
Qed.

Lemma paginated_list_page_of {A : Type} (createdAt : A -> Z)
    (matching : list A) (q : list_query) (s : Z) (rows : list A)
    (pg : pagination) :
  paginated_list createdAt matching q = Reply s (rows, pg) ->
  s = 200 /\ page_of createdAt matching rows pg.
Proof.
  rewrite paginated_list_unfold.
  destruct (JS.lt (JS.parseInt_opt (q_page q)) 0
            || JS.lt (JS.parseInt_opt (q_limit q)) 0) eqn:G;
    [discriminate|].
  apply effective_guard in G as [Hp Hl].
  set (p := effective (JS.parseInt_opt (q_page q)) 1) in *.
  set (l := effective (JS.parseInt_opt (q_limit q)) 20) in *.
  intros E. injection E as <- <- <-. split; [reflexivity|].
  pose proof (ceil_div_bounds (Sql.count matching) l Hl) as Hc.
  exists p, l, (JS.ceil_div (Sql.count matching) l). simpl.
  repeat split; try reflexivity; try lia.
  - exists (Sql.order_by_desc createdAt matching).
    repeat split.
    + apply order_by_desc_perm.
    + apply order_by_desc_sorted.
  - apply newest_first_firstn, newest_first_skipn, order_by_desc_sorted.
  - intros Hlast.
    assert (Htp : 1 <= JS.ceil_div (Sql.count matching) l) by lia.
    rewrite <- (last_page_size _ l _ Hl Htp Hc).
    rewrite length_firstn, length_skipn, order_by_desc_length.
    rewrite Hlast. unfold Sql.count in *.
    set (tp := JS.ceil_div (Z.of_nat (List.length matching)) l) in *.
    assert (0 <= (tp - 1) * l) by nia.
    lia.
Qed.

(** C1, at the requests where the handlers fall short of it.  The guard
    of the admin router tests [page < 1] and [limit < 1] after
    [parseInt(...) || 1] and [parseInt(...) || 20] have replaced a 0 by the
    default, so GET /api/admin/contacts?page=0 (and limit=0 on the reviews
    listing) carries a non-positive value and is answered 200 with the
    rows of page 1, not 400.  GET /api/reviews/admin has no guard at all:
    page=-2 reaches the statement as [LIMIT -30, 10] and is answered 500,
    where the admin router answers the same page with 400. *)
Theorem page_and_limit_guard_misses :
  JS.parseInt_opt (q_page (mkQuery (Some "0") None None)) = Some 0
  /\ get_admin_contacts (H := demo_crypto) 0 (Some "Bearer good")
         (mkQuery (Some "0") None None) demo_db
     = (Reply 200
          ([demo_contact 4 50; demo_contact 5 40; demo_contact 2 30;
            demo_contact 3 20; demo_contact 1 10],
           mkPagination (Some 1) (Some 20) 5 (Some 1)),
        demo_db)
  /\ (exists rows,
        get_admin_reviews (H := demo_crypto) 0 (Some "Bearer good")
            (mkQuery None (Some "0") None) demo_db
          = (Reply 200 (rows, mkPagination (Some 1) (Some 20)
                                (Sql.count (reviews demo_db))
                                (Some 1)),
             demo_db))
  /\ Number_of_query (q_page (mkQuery (Some "-2") None None))
     = Some (Some (-2))
  /\ get_reviews_admin (mkQuery (Some "-2") None None) demo_db
     = Some (Error 500 "Internal server error")
  /\ get_admin_reviews (H := demo_crypto) 0 (Some "Bearer good")
         (mkQuery (Some "-2") None None) demo_db
     = (Error 400 "Invalid page or limit parameters", demo_db).
Proof.
  split; [reflexivity|].
  split; [vm_compute; reflexivity|].
  split; [eexists; vm_compute; reflexivity|].
  split; [reflexivity|].
  split; vm_compute; reflexivity.
Qed.

(** C2: every listing answered with an envelope [{page, limit, total,
    totalPages}] has [total] the number of rows under the filter, a limit
    of at least 1, [totalPages = ceil(total / limit)], its rows ordered by
    creation time descending, and on the last page [total mod limit] rows,
    or [limit] rows when the remainder is 0. *)
Theorem admin_list_envelope `{Crypto} (now : Z) (authHeader : option string)
    (q : list_query) (db : database) :
  (forall s rows pg db',
      get_admin_contacts now authHeader q db = (Reply s (rows, pg), db') ->
      s = 200 /\ db' = db
      /\ page_of Contact.createdAt (contacts db) rows pg)
  /\ (forall s rows pg db',
      get_admin_reviews now authHeader q db = (Reply s (rows, pg), db') ->
      s = 200 /\ db' = db
      /\ page_of Review.createdAt
           (filter (status_clause (q_status q)) (reviews db)) rows pg).
Proof.
  split; intros s rows pg db' E.
  - unfold get_admin_contacts in E.
    destruct (authenticateToken_cases now authHeader
                (fun _ db => (get_admin_contacts_handler q db, db)) db)
      as [R|[R|[user R]]]; rewrite R in E; try discriminate.
    injection E as E <-.
    apply paginated_list_page_of in E as [-> Hp]. auto.
  - unfold get_admin_reviews in E.
    destruct (authenticateToken_cases now authHeader
                (fun _ db => (get_admin_reviews_handler q db, db)) db)
      as [R|[R|[user R]]]; rewrite R in E; try discriminate.
    injection E as E <-.
    apply paginated_list_page_of in E as [-> Hp]. auto.
Qed.

Lemma admin_list_envelope_witness :
  page_of Contact.createdAt (contacts demo_db) [demo_contact 1 10]
          (mkPagination (Some 3) (Some 2) 5 (Some 3)).
Proof.
  apply (proj1 (admin_list_envelope (H := demo_crypto) 0
                  (Some "Bearer good") (mkQuery (Some "3") (Some "2") None)
                  demo_db) 200 _ _ demo_db).
  vm_compute. reflexivity.
Defined.

(* ================================================================= *)
(** ** UPDATE statements *)

Section UpdateFacts.
Context {A : Type} (cond : A -> bool) (set : A -> A).

Lemma affectedRows_zero (rows : list A) :
  (Sql.affectedRows cond rows =? 0) = true <-> filter cond rows = [].
Proof.
  unfold Sql.affectedRows, Sql.count. rewrite Z.eqb_eq.
  destruct (filter cond rows); simpl; split; intros; try reflexivity;
    try discriminate; lia.
Qed.

Lemma update_no_match (rows : list A) :
  filter cond rows = [] -> Sql.update cond set rows = rows.
Proof.
  unfold Sql.update.
  induction rows as [|r rows IH]; simpl; [reflexivity|].
  destruct (cond r); [discriminate|].
  intros E. now rewrite IH.
Qed.

Lemma filter_update (rows : list A) :
  (forall r, cond (set r) = cond r) ->
  filter cond (Sql.update cond set rows) = map set (filter cond rows).
Proof.
  intros Hc. unfold Sql.update.
  induction rows as [|r rows IH]; simpl; [reflexivity|].
  destruct (cond r) eqn:E.
  - rewrite Hc, E. simpl. now rewrite IH.
  - rewrite E. exact IH.
Qed.

Lemma update_Forall2 (R : A -> A -> Prop) (rows : list A) :
  (forall r, In r rows -> cond r = false -> R r r) ->
  (forall r, In r rows -> cond r = true -> R r (set r)) ->
  Forall2 R rows (Sql.update cond set rows).
Proof.
  unfold Sql.update.
  induction rows as [|r rows IH]; simpl; intros Hr Hs; constructor.
  - destruct (cond r) eqn:E; auto.
  - apply IH; auto.
Qed.

Lemma update_map {B : Type} (f : A -> B) (rows : list A) :
  (forall r, f (set r) = f r) ->
  map f (Sql.update cond set rows) = map f rows.
Proof.
  intros Hf. unfold Sql.update. rewrite map_map. apply map_ext.
  intros r. now destruct (cond r).
Qed.

Lemma update_In (rows : list A) (r : A) :
  In r (Sql.update cond set rows) ->
  exists r0, In r0 rows /\ r = (if cond r0 then set r0 else r0).
Proof.
  unfold Sql.update. rewrite in_map_iff.
  intros (r0 & <- & Hin). now exists r0.
Qed.
End UpdateFacts.

(* ================================================================= *)
(** ** Review moderation *)

Lemma put_reviews_approve_found (id : string) (n now : Z) (db : database)
    (r : Review.t) (rest : list Review.t) :
  JS.parseInt id = Some n ->
  filter (has_review_id (Some n)) (reviews db) = r :: rest ->
  put_reviews_approve id now db
    = (Reply 200 (Some (set_approved now r)),
       set_reviews db
         (Sql.update (has_review_id (Some n)) (set_approved now) (reviews db))
         (reviews_auto_increment db)).
Proof.
  intros Hid Hf. unfold put_reviews_approve. rewrite Hid. simpl.
  destruct (Sql.affectedRows (has_review_id (Some n)) (reviews db) =? 0)
    eqn:E.
  - apply affectedRows_zero in E. congruence.
  - rewrite filter_update by reflexivity. now rewrite Hf.
Qed.

Lemma put_reviews_approve_missing (id : string) (n now : Z) (db : database) :
  JS.parseInt id = Some n ->
  filter (has_review_id (Some n)) (reviews db) = [] ->
  put_reviews_approve id now db = (Error 404 "Review not found", db).
Proof.
  intros Hid Hf. unfold put_reviews_approve. rewrite Hid. simpl.
  rewrite (proj2 (affectedRows_zero _ _) Hf).
  rewrite update_no_match by exact Hf. now destruct db.
Qed.

Lemma filter_nil_iff {A : Type} (f : A -> bool) (l : list A) :
  filter f l = [] <-> forall x, In x l -> f x = false.
Proof.
  induction l as [|y l IH]; simpl.
  - split; [intros _ x [] | reflexivity].
  - destruct (f y) eqn:E; split.
    + discriminate.
    + intros Hx. specialize (Hx y (or_introl eq_refl)). congruence.
    + intros Hf x [<-|Hx]; [exact E | now apply IH].
    + intros Hx. apply IH. intros x Hin. apply Hx. now right.
Qed.

(** C3: a review is created with [approved] false; approving it sets
    [approved] to true and answers 200 with the row; approving again
    answers 200 with the current row, still approved; no approve call
    turns an approved review back, adds or removes a review; and the
    call answers 404, changing nothing, when no review has the id.  The
    route of the admin router runs the same body behind the token
    middleware. *)
Theorem review_approval_lifecycle `{Crypto} (id : string) (n now now2 : Z)
    (db : database) :
  JS.parseInt id = Some n ->
  (forall e delivered b s i db1 eff,
      post_reviews e delivered now b db = (Reply s i, db1, eff) ->
      exists row, reviews db1 = (reviews db ++ [row])%list
                  /\ Review.id row = i /\ Review.approved row = false)
  /\ Forall2 (fun old new =>
                Review.id new = Review.id old
                /\ (Review.approved old = true -> Review.approved new = true))
             (reviews db) (reviews (snd (put_reviews_approve id now db)))
  /\ ((forall r, In r (reviews db) -> Review.id r <> n) ->
      put_reviews_approve id now db = (Error 404 "Review not found", db))
  /\ ((exists r, In r (reviews db) /\ Review.id r = n) ->
      exists row db1,
        put_reviews_approve id now db = (Reply 200 (Some row), db1)
        /\ In row (reviews db1) /\ Review.id row = n
        /\ Review.approved row = true
        /\ (forall r, In r (reviews db1) -> Review.id r = n ->
                      Review.approved r = true)
        /\ exists db2,
             put_reviews_approve id now2 db1
               = (Reply 200 (Some (set_approved now2 row)), db2)
             /\ In (set_approved now2 row) (reviews db2)
             /\ Review.approved (set_approved now2 row) = true)
  /\ (forall authHeader user,
        authorized now authHeader user ->
        put_admin_reviews_approve now authHeader id db
          = put_reviews_approve id now db).
Proof.
  intros Hid. split; [|split; [|split; [|split]]].
  - intros e delivered b s i db1 eff E. unfold post_reviews in E.
    destruct (rb_name b), (rb_email b), (rb_comment b); try discriminate.
    repeat match type of E with
           | (if ?c then _ else _) = _ => destruct c; try discriminate
           | match ?x with _ => _ end = _ => destruct x; try discriminate
           end.
    injection E as <- <- <- <-. eexists. simpl. repeat split.
  - unfold put_reviews_approve. rewrite Hid. simpl.
    destruct (Sql.affectedRows _ _ =? 0); simpl;
      apply update_Forall2; auto; intros r _ _; simpl; auto.
  - intros Hno. apply put_reviews_approve_missing with (n := n); auto.
    apply filter_nil_iff. intros r Hr. simpl.
    apply Z.eqb_neq. now apply Hno.
  - intros (r0 & Hin & Hr0).
    destruct (filter (has_review_id (Some n)) (reviews db)) as [|r rest]
      eqn:Hf.
    { rewrite filter_nil_iff in Hf. specialize (Hf r0 Hin). simpl in Hf.
      apply Z.eqb_neq in Hf. contradiction. }
    assert (Hr : In r (reviews db) /\ Review.id r = n).
    { assert (Hi : In r (r :: rest)) by now left.
      rewrite <- Hf in Hi. apply filter_In in Hi as [Hi Hc].
      simpl in Hc. apply Z.eqb_eq in Hc. now split. }
    destruct Hr as [Hrin Hrid].
    exists (set_approved now r). eexists. split.
    { apply put_reviews_approve_found with (n := n) (rest := rest); auto. }
    assert (Hf1 : filter (has_review_id (Some n))
                    (Sql.update (has_review_id (Some n)) (set_approved now)
                                (reviews db))
                  = set_approved now r :: map (set_approved now) rest).
    { rewrite filter_update by reflexivity. now rewrite Hf. }
    simpl. repeat split.
    + assert (Hi : In (set_approved now r)
                      (set_approved now r :: map (set_approved now) rest))
        by now left.
      rewrite <- Hf1 in Hi. now apply filter_In in Hi as [Hi _].
    + exact Hrid.
    + intros x Hx Hxn. apply update_In in Hx as (x0 & Hx0 & ->).
      simpl in *. destruct (Review.id x0 =? n) eqn:E; [reflexivity|].
      apply Z.eqb_neq in E. contradiction.
    + eexists. split.
      { erewrite put_reviews_approve_found with (n := n); eauto. }
      simpl. split; [|reflexivity].
      assert (Hi : In (set_approved now2 (set_approved now r))
                      (map (set_approved now2)
                           (set_approved now r
                            :: map (set_approved now) rest)))
        by now left.
      rewrite <- Hf1, <- filter_update in Hi by reflexivity.
      now apply filter_In in Hi as [Hi _].
  - intros authHeader user Hauth. unfold put_admin_reviews_approve.
    now rewrite (authenticateToken_authorized now authHeader user).
Qed.

Lemma review_approval_lifecycle_witness :
  JS.parseInt "2" = Some 2
  /\ exists row db1,
       put_reviews_approve "2" 100 demo_db = (Reply 200 (Some row), db1)
       /\ In row (reviews db1) /\ Review.id row = 2
       /\ Review.approved row = true.
Proof.
  split; [reflexivity|].
  destruct (review_approval_lifecycle (H := demo_crypto) "2" 2 100 200
              demo_db eq_refl) as (_ & _ & _ & Hex & _).
  destruct Hex as (row & db1 & E & Hin & Hid & Happ & _).
  - exists (demo_review 2 20 false). split; [simpl; auto | reflexivity].
  - exists row, db1. auto.
Defined.

(* ================================================================= *)
(** ** Blog updates *)

Lemma truthy_true (s : string) : JS.truthy s = true <-> s <> "".
Proof.
  unfold JS.truthy. rewrite negb_true_iff. apply String.eqb_neq.
Qed.

Lemma set_text_rule (v : option string) (old : string) :
  text_rule v old (set_text v old).
Proof.
  split.
  - intros s -> Hs. simpl. apply truthy_true in Hs. now rewrite Hs.
  - intros [->| ->]; reflexivity.
Qed.

Lemma set_text_null_rule (v old : option string) :
  text_null_rule v old (set_text_null v old).
Proof.
  split.
  - intros s -> Hs. simpl. apply truthy_true in Hs. now rewrite Hs.
  - intros [->| ->]; reflexivity.
Qed.

Lemma readTime_of_pos (c : string) : 1 <= readTime_of c.
Proof. unfold readTime_of, JS.max. lia. Qed.

Lemma apply_blog_update_spec (b : blog_body) (now : Z) (p : BlogPost.t) :
  updated_by b now p (apply_blog_update b now p).
Proof.
  unfold updated_by, apply_blog_update. simpl.
  repeat match goal with
         | |- _ /\ _ => split
         end;
    try reflexivity;
    try apply set_text_rule; try apply set_text_null_rule.
  - now destruct (b_image b).
  - now destruct (b_tags b).
  - now destruct (b_published b).
  - now destruct (b_featured b).
  - unfold new_readTime. split.
    + intros c -> Hc. apply truthy_true in Hc. rewrite Hc.
      pose proof (readTime_of_pos c).
      now replace (readTime_of c =? 0) with false
        by (symmetry; apply Z.eqb_neq; lia).
    + intros [->| ->]; reflexivity.
Qed.

Lemma set_blog_posts_same (db : database) :
  set_blog_posts db (blog_posts db) (blog_posts_auto_increment db) = db.
Proof. now destruct db. Qed.

(** The slug check of PUT /api/blog/:id. *)
Lemma slug_check_taken (b : blog_body) (n : Z) (db : database) :
  slug_taken b n db ->
  (if JS.truthy_opt (b_slug b) then
     filter (fun p => String.eqb (BlogPost.slug p) (or_text (b_slug b) "")
                      && negb (has_post_id (Some n) p)) (blog_posts db)
   else []) <> [].
Proof.
  intros (s & p & Hs & Hne & Hin & Hslug & Hid).
  rewrite Hs. simpl. apply truthy_true in Hne. rewrite Hne.
  intros Hf. rewrite filter_nil_iff in Hf. specialize (Hf p Hin).
  simpl in Hf. rewrite Hslug, String.eqb_refl in Hf.
  apply Z.eqb_neq in Hid. rewrite Hid in Hf. discriminate.
Qed.

Lemma slug_check_free (b : blog_body) (n : Z) (db : database) :
  ~ slug_taken b n db ->
  (if JS.truthy_opt (b_slug b) then
     filter (fun p => String.eqb (BlogPost.slug p) (or_text (b_slug b) "")
                      && negb (has_post_id (Some n) p)) (blog_posts db)
   else []) = [].
Proof.
  intros Hfree.
  destruct (b_slug b) as [s|] eqn:Hs; simpl; [|reflexivity].
  destruct (JS.truthy s) eqn:Ht; [|reflexivity].
  apply filter_nil_iff. intros p Hin.
  destruct (String.eqb (BlogPost.slug p) s) eqn:E; [|reflexivity].
  destruct (BlogPost.id p =? n) eqn:E'; [reflexivity|].
  exfalso. apply Hfree. exists s, p.
  apply String.eqb_eq in E. apply Z.eqb_neq in E'.
  apply truthy_true in Ht. auto.
Qed.

Lemma length_pos_false {A : Type} (l : list A) :
  (0 <? List.length l)%nat = false <-> l = [].
Proof.
  destruct l; simpl; split; intros; try reflexivity; discriminate.
Qed.

Lemma put_blog_handler_cases (id : string) (n now : Z) (b : blog_body)
    (db : database) :
  JS.parseInt id = Some n ->
  (slug_taken b n db ->
   put_blog_handler id now b db
     = (Error 400 "El slug ya existe. Elige otro slug único.", db))
  /\ (~ slug_taken b n db ->
      filter (has_post_id (Some n)) (blog_posts db) = [] ->
      put_blog_handler id now b db = (Error 404 "Blog post not found", db))
  /\ (~ slug_taken b n db ->
      filter (has_post_id (Some n)) (blog_posts db) <> [] ->
      put_blog_handler id now b db
        = (Reply 200 tt,
           set_blog_posts db
             (Sql.update (has_post_id (Some n)) (apply_blog_update b now)
                         (blog_posts db))
             (blog_posts_auto_increment db))).
Proof.
  intros Hid. unfold put_blog_handler. rewrite Hid. simpl JS.isNaN. cbv iota.
  split; [|split].
  - intros Ht. apply slug_check_taken in Ht.
    destruct (if JS.truthy_opt (b_slug b) then _ else _); [congruence|].
    reflexivity.
  - intros Hf He. rewrite (slug_check_free _ _ _ Hf). simpl.
    rewrite (proj2 (affectedRows_zero _ _) He).
    rewrite update_no_match by exact He.
    now rewrite set_blog_posts_same.
  - intros Hf He. rewrite (slug_check_free _ _ _ Hf). simpl.
    destruct (Sql.affectedRows _ _ =? 0) eqn:E; [|reflexivity].
    apply affectedRows_zero in E. contradiction.
Qed.

(** Small closed side conditions: a safe integer, values that fit. *)
Ltac in_range :=
  unfold JS.safe, listing_in_range, blog_fits, contact_fits, review_fits,
         fits, fits_nullable, TEXT, LONGTEXT;
  cbn; repeat split; try exact I; lia.

(** C4 (as the handler has it): an id that does not parse is answered
    with 400.  For an update whose id parses to the safe integer [n],
    whose values fit their columns and whose slug is not in use by a post
    with another id, a post with id [n] makes the request succeed with
    200; in that post title, slug, excerpt, content, category, metaTitle
    and metaDescription take the supplied value when it is a non-empty
    string and keep their value otherwise, image and tags take whatever
    is supplied ([null] and the empty string included) and keep their
    value when absent, published and featured take the supplied flag,
    [readTime] is recomputed whenever non-empty content is supplied and
    kept otherwise, and [updatedAt] is refreshed; every other post and
    table is unchanged.  Without a post with id [n] the request fails
    with 404 and nothing changes.  When the slug is in use by another
    post the request fails with 400 and nothing changes, whether or not a
    post has id [n]. *)
Theorem blog_update_frame (id : string) (now : Z) (b : blog_body)
    (db : database) :
  (JS.parseInt id = None ->
   put_blog_handler id now b db = (Error 400 "Invalid post ID", db))
  /\ forall n,
     JS.parseInt id = Some n -> JS.safe n -> blog_fits b ->
     (slug_taken b n db ->
      put_blog_handler id now b db
        = (Error 400 "El slug ya existe. Elige otro slug único.", db))
     /\ (~ slug_taken b n db ->
         (exists p, In p (blog_posts db) /\ BlogPost.id p = n) ->
         exists db',
           put_blog_handler id now b db = (Reply 200 tt, db')
           /\ Forall2 (fun old new =>
                         (BlogPost.id old = n -> updated_by b now old new)
                         /\ (BlogPost.id old <> n -> new = old))
                      (blog_posts db) (blog_posts db')
           /\ contacts db' = contacts db /\ reviews db' = reviews db
           /\ admins db' = admins db)
     /\ (~ slug_taken b n db ->
         (forall p, In p (blog_posts db) -> BlogPost.id p <> n) ->
         put_blog_handler id now b db
           = (Error 404 "Blog post not found", db)).
Proof.
  split.
  { intros Hid. unfold put_blog_handler. now rewrite Hid. }
  intros n Hid _ _.
  destruct (put_blog_handler_cases id n now b db Hid) as (Ht & Hm & Hf).
  split; [exact Ht|]. split.
  - intros Hfree (p & Hin & Hp). eexists. split.
    + apply Hf; [exact Hfree|].
      intros He. rewrite filter_nil_iff in He. specialize (He p Hin).
      simpl in He. apply Z.eqb_neq in He. contradiction.
    + simpl. repeat split.
      apply update_Forall2; simpl; intros r _ E.
      * apply Z.eqb_neq in E. split; [contradiction | reflexivity].
      * apply Z.eqb_eq in E. split; [|contradiction].
        intros _. apply apply_blog_update_spec.
  - intros Hfree Hno. apply Hm; [exact Hfree|].
    apply filter_nil_iff. intros p Hin. simpl.
    apply Z.eqb_neq. now apply Hno.
Qed.

Lemma blog_update_frame_witness :
  exists db',
    put_blog_handler "2" 100
        (mkBlogBody (Some "New title") None None None Absent None IsNull
                    None None (Some false) None) demo_db
      = (Reply 200 tt, db')
    /\ map BlogPost.title (blog_posts db') = ["Title"; "New title"; "Title"]
    /\ map BlogPost.slug (blog_posts db') = ["first"; "second"; "draft"]
    /\ map BlogPost.published (blog_posts db') = [true; false; false]
    /\ map BlogPost.updatedAt (blog_posts db') = [10; 100; 30].
Proof.
  destruct (proj2 (blog_update_frame "2" 100
              (mkBlogBody (Some "New title") None None None Absent None
                          IsNull None None (Some false) None)
              demo_db) 2 eq_refl ltac:(in_range) ltac:(in_range))
    as (_ & Hex & _).
  destruct Hex as (db' & E & _).
  - intros (s & p & Hs & _). discriminate.
  - exists (demo_post 2 "second" "care" true 20).
    split; [simpl; auto | reflexivity].
  - exists db'. split; [exact E|].
    vm_compute in E. injection E as <-. repeat split.
Defined.

(** C4 as stated fails twice.  An update that supplies only the content
    changes [readTime], which the body did not supply; and an update of a
    post that does not exist is answered with 400, not 404, when its slug
    is in use. *)
Lemma blog_update_changes_unsupplied_readTime :
  (let b := mkBlogBody None None None (Some "short text") Absent None
                       Absent None None None None in
   map BlogPost.readTime (blog_posts demo_db) = [5; 5; 5]
   /\ fst (put_blog_handler "1" 100 b demo_db) = Reply 200 tt
   /\ map BlogPost.readTime
          (blog_posts (snd (put_blog_handler "1" 100 b demo_db)))
      = [1; 5; 5])
  /\ (let b := mkBlogBody None (Some "first") None None Absent None
                          Absent None None None None in
      (forall p, In p (blog_posts demo_db) -> BlogPost.id p <> 99)
      /\ put_blog_handler "99" 100 b demo_db
         = (Error 400 "El slug ya existe. Elige otro slug único.", demo_db)).
Proof.
  split; [repeat split|split].
  - intros p [<-|[<-|[<-|[]]]]; discriminate.
  - reflexivity.
Qed.

(* ================================================================= *)
(** ** Slug uniqueness *)

Lemma NoDup_map_eq {A B : Type} (f : A -> B) (l : list A) (x y : A) :
  NoDup (map f l) -> In x l -> In y l -> f x = f y -> x = y.
Proof.
  induction l as [|z l IH]; simpl; [contradiction|].
  intros Hn Hx Hy E. apply NoDup_cons_iff in Hn as [Hz Hn].
  destruct Hx as [->|Hx], Hy as [->|Hy]; auto.
  - exfalso. apply Hz. rewrite E. now apply in_map.
  - exfalso. apply Hz. rewrite <- E. now apply in_map.
Qed.

Lemma NoDup_snoc {A : Type} (l : list A) (x : A) :
  NoDup l -> ~ In x l -> NoDup (l ++ [x]).
Proof.
  intros Hl Hx. apply NoDup_app; [exact Hl | repeat constructor; auto |].
  intros a Ha [<-|[]]. contradiction.
Qed.

Lemma update_ids (n now : Z) (b : blog_body) (rows : list BlogPost.t) :
  map BlogPost.id
      (Sql.update (has_post_id (Some n)) (apply_blog_update b now) rows)
  = map BlogPost.id rows.
Proof.
  unfold Sql.update. rewrite map_map. apply map_ext.
  intros r. now destruct (has_post_id (Some n) r).
Qed.

Lemma update_slugs_kept (n now : Z) (b : blog_body)
    (rows : list BlogPost.t) :
  JS.truthy_opt (b_slug b) = false ->
  map BlogPost.slug
      (Sql.update (has_post_id (Some n)) (apply_blog_update b now) rows)
  = map BlogPost.slug rows.
Proof.
  intros Hs. unfold Sql.update. rewrite map_map. apply map_ext.
  intros r. destruct (has_post_id (Some n) r); [|reflexivity].
  simpl. destruct (b_slug b) as [s|]; simpl in *; [|reflexivity].
  now rewrite Hs.
Qed.

Lemma update_slugs_NoDup (n now : Z) (b : blog_body) (s : string)
    (rows : list BlogPost.t) :
  b_slug b = Some s -> JS.truthy s = true ->
  NoDup (map BlogPost.id rows) -> NoDup (map BlogPost.slug rows) ->
  (forall p, In p rows -> BlogPost.id p <> n -> BlogPost.slug p <> s) ->
  NoDup (map BlogPost.slug
           (Sql.update (has_post_id (Some n)) (apply_blog_update b now)
                       rows)).
Proof.
  intros Hb Hs.
  induction rows as [|r rows IH]; simpl; intros Hid Hsl Hfree;
    [constructor|].
  apply NoDup_cons_iff in Hid as [Hr Hid].
  apply NoDup_cons_iff in Hsl as [Hrs Hsl].
  destruct (BlogPost.id r =? n) eqn:E.
  - apply Z.eqb_eq in E.
    rewrite update_no_match.
    + simpl. rewrite Hb. simpl. rewrite Hs. constructor; [|exact Hsl].
      intros Hin. apply in_map_iff in Hin as (p & Hp & Hin).
      apply (Hfree p); auto.
      intros Hpn. apply Hr. rewrite E, <- Hpn. now apply in_map.
    + apply filter_nil_iff. intros p Hin. simpl. apply Z.eqb_neq.
      intros Hpn. apply Hr. rewrite E, <- Hpn. now apply in_map.
  - apply Z.eqb_neq in E. constructor.
    + intros Hin. apply in_map_iff in Hin as (p & Hp & Hin).
      apply update_In in Hin as (p0 & Hin0 & ->).
      destruct (has_post_id (Some n) p0).
      * simpl in Hp. rewrite Hb in Hp. simpl in Hp. rewrite Hs in Hp.
        apply (Hfree r); auto.
      * apply Hrs. rewrite <- Hp. now apply in_map.
    + apply IH; auto.
Qed.

Lemma put_blog_handler_keys (id : string) (now : Z) (b : blog_body)
    (db : database) :
  blog_keys_ok db -> blog_keys_ok (snd (put_blog_handler id now b db)).
Proof.
  intros Hok. unfold put_blog_handler.
  destruct (JS.parseInt id) as [n|] eqn:Hid; simpl; [|exact Hok].
  destruct (0 <? List.length _)%nat eqn:Hex; [exact Hok|].
  apply length_pos_false in Hex.
  assert (Hgoal : blog_keys_ok
            (set_blog_posts db
               (Sql.update (has_post_id (Some n)) (apply_blog_update b now)
                           (blog_posts db))
               (blog_posts_auto_increment db))).
  { destruct Hok as (Hids & Hslugs & Hinc).
    unfold blog_keys_ok. simpl. rewrite update_ids. repeat split.
    - exact Hids.
    - destruct (JS.truthy_opt (b_slug b)) eqn:Ht.
      + destruct (b_slug b) as [s|] eqn:Hb; [|discriminate]. simpl in Ht.
        apply update_slugs_NoDup with (s := s); auto.
        intros p Hin Hpn Hps.
        rewrite filter_nil_iff in Hex. specialize (Hex p Hin).
        simpl in Hex. rewrite Ht, Hps, String.eqb_refl in Hex.
        apply Z.eqb_neq in Hpn. rewrite Hpn in Hex. discriminate.
      + now rewrite update_slugs_kept.
    - rewrite Forall_forall in *. intros p Hin.
      apply update_In in Hin as (p0 & Hin0 & ->).
      specialize (Hinc p0 Hin0).
      now destruct (has_post_id (Some n) p0). }
  now destruct (Sql.affectedRows _ _ =? 0).
Qed.

Lemma post_blog_handler_keys (user : identity) (now : Z) (b : blog_body)
    (db : database) :
  blog_keys_ok db -> blog_keys_ok (snd (post_blog_handler user now b db)).
Proof.
  intros Hok. unfold post_blog_handler.
  destruct (b_title b) as [title|]; [|exact Hok].
  destruct (b_slug b) as [slug|]; [|exact Hok].
  destruct (b_excerpt b) as [excerpt|]; [|exact Hok].
  destruct (b_content b) as [content|]; [|exact Hok].
  destruct (b_category b) as [category|]; [|exact Hok].
  destruct (_ || _); [exact Hok|].
  destruct (0 <? List.length _)%nat eqn:Hex; [exact Hok|].
  apply length_pos_false in Hex. rewrite filter_nil_iff in Hex.
  destruct (negb _); [exact Hok|].
  destruct Hok as (Hids & Hslugs & Hinc).
  unfold blog_keys_ok. simpl. rewrite !map_app. simpl. repeat split.
  - apply NoDup_snoc; [exact Hids|].
    intros Hin. apply in_map_iff in Hin as (p & Hp & Hin).
    rewrite Forall_forall in Hinc. specialize (Hinc p Hin). lia.
  - apply NoDup_snoc; [exact Hslugs|].
    intros Hin. apply in_map_iff in Hin as (p & Hp & Hin).
    specialize (Hex p Hin). simpl in Hex.
    rewrite Hp, String.eqb_refl in Hex. discriminate.
  - apply Forall_app. split.
    + eapply Forall_impl; [|exact Hinc]. simpl. intros; lia.
    + repeat constructor. simpl. lia.
Qed.

(** C5: a create or an update whose slug is in use by another post is
    rejected with 400 and writes nothing; an update of a post to the slug
    it has succeeds; and both routes keep the slugs (and ids) of the blog
    posts unique.  The id of an update is a safe integer, and the values
    of an update that succeeds fit their columns. *)
Theorem blog_slug_uniqueness `{Crypto} (now : Z) (b : blog_body)
    (db : database) :
  blog_keys_ok db ->
  (forall user s p,
      b_slug b = Some s -> In p (blog_posts db) -> BlogPost.slug p = s ->
      status_of (fst (post_blog_handler user now b db)) = 400
      /\ snd (post_blog_handler user now b db) = db)
  /\ (forall id n,
      JS.parseInt id = Some n -> JS.safe n -> slug_taken b n db ->
      put_blog_handler id now b db
        = (Error 400 "El slug ya existe. Elige otro slug único.", db))
  /\ (forall id n p,
      JS.parseInt id = Some n -> JS.safe n -> blog_fits b ->
      In p (blog_posts db) ->
      BlogPost.id p = n -> b_slug b = Some (BlogPost.slug p) ->
      fst (put_blog_handler id now b db) = Reply 200 tt)
  /\ (forall authHeader, blog_keys_ok (snd (post_blog now authHeader b db)))
  /\ (forall authHeader id,
        blog_keys_ok (snd (put_blog now authHeader id b db))).
Proof.
  intros Hok. split; [|split; [|split; [|split]]].
  - intros user s p Hs Hin Hp. unfold post_blog_handler. rewrite Hs.
    destruct (b_title b) as [title|]; [|now split].
    destruct (b_excerpt b) as [excerpt|]; [|now split].
    destruct (b_content b) as [content|]; [|now split].
    destruct (b_category b) as [category|]; [|now split].
    destruct (_ || _); [now split|].
    destruct (0 <? List.length _)%nat eqn:Hex; [now split|].
    apply length_pos_false in Hex. rewrite filter_nil_iff in Hex.
    specialize (Hex p Hin). simpl in Hex.
    rewrite Hp, String.eqb_refl in Hex. discriminate.
  - intros id n Hid _ Ht.
    now apply (proj1 (put_blog_handler_cases id n now b db Hid)).
  - intros id n p Hid _ _ Hin Hp Hs.
    destruct (put_blog_handler_cases id n now b db Hid) as (_ & _ & Hf).
    rewrite Hf; [reflexivity | |].
    + intros (s & p' & Hs' & _ & Hin' & Hslug & Hne).
      apply Hne. rewrite <- Hp. f_equal.
      destruct Hok as (_ & Hslugs & _).
      apply (NoDup_map_eq BlogPost.slug (blog_posts db)); auto.
      congruence.
    + intros He. rewrite filter_nil_iff in He. specialize (He p Hin).
      simpl in He. apply Z.eqb_neq in He. contradiction.
  - intros authHeader. unfold post_blog.
    destruct (authenticateToken_cases now authHeader
                (fun user db => post_blog_handler user now b db) db)
      as [R|[R|[user R]]]; rewrite R; try exact Hok.
    now apply post_blog_handler_keys.
  - intros authHeader id. unfold put_blog.
    destruct (authenticateToken_cases now authHeader
                (fun _ db => put_blog_handler id now b db) db)
      as [R|[R|[user R]]]; rewrite R; try exact Hok.
    now apply put_blog_handler_keys.
Qed.

(* ================================================================= *)
(** ** Fetching a post by its slug *)

Lemma in_join_author (admins : list Admin.t) (posts : list BlogPost.t)
    (bp : BlogPost.t) (a : Admin.t) :
  In (bp, a) (join_author admins posts)
  <-> In bp posts /\ In a admins /\ BlogPost.authorId bp = Admin.id a.
Proof.
  unfold join_author. rewrite in_flat_map. split.
  - intros (bp' & Hin & Hm). apply in_map_iff in Hm as (a' & E & Ha).
    injection E as -> ->. apply filter_In in Ha as [Ha Hk].
    apply Z.eqb_eq in Hk. auto.
  - intros (Hin & Ha & Hk). exists bp. split; [exact Hin|].
    apply in_map. apply filter_In. split; [exact Ha|].
    now apply Z.eqb_eq.
Qed.

Lemma unique_author (admins : list Admin.t) (k : Z) :
  NoDup (map Admin.id admins) -> In k (map Admin.id admins) ->
  exists a, filter (fun a => k =? Admin.id a) admins = [a].
Proof.
  induction admins as [|a0 rest IH]; simpl; [contradiction|].
  intros Hn Hk. apply NoDup_cons_iff in Hn as [H0 Hn].
  destruct (k =? Admin.id a0) eqn:E.
  - apply Z.eqb_eq in E. exists a0. f_equal.
    apply filter_nil_iff. intros a Ha. apply Z.eqb_neq.
    intros Hka. apply H0. rewrite <- E, Hka. now apply in_map.
  - apply Z.eqb_neq in E. destruct Hk as [Hk|Hk]; [congruence|].
    now apply IH.
Qed.

(** Under the foreign key the join has one row for each post. *)
Lemma join_author_filter_length (admins : list Admin.t)
    (posts : list BlogPost.t) (g : BlogPost.t -> bool) :
  NoDup (map Admin.id admins) ->
  Forall (fun p => In (BlogPost.authorId p) (map Admin.id admins)) posts ->
  List.length (filter (fun row => g (fst row)) (join_author admins posts))
  = List.length (filter g posts).
Proof.
  intros Hn. induction posts as [|bp posts IH]; simpl; intros Hfk;
    [reflexivity|].
  apply Forall_cons_iff in Hfk as [Hbp Hfk].
  destruct (unique_author admins _ Hn Hbp) as (a & Ha).
  rewrite Ha. simpl. destruct (g bp); simpl; now rewrite IH.
Qed.

(** Counting a view does not touch what the related query reads. *)
Lemma related_rows_after_view (admins : list Admin.t)
    (posts : list BlogPost.t) (p : BlogPost.t) (now : Z) :
  filter (fun row => related_clause p (fst row))
         (join_author admins
            (Sql.update (fun q => BlogPost.id q =? BlogPost.id p)
                        (count_view now) posts))
  = filter (fun row => related_clause p (fst row))
           (join_author admins posts).
Proof.
  induction posts as [|bp posts IH]; simpl; [reflexivity|].
  rewrite !filter_app, IH. f_equal.
  destruct (BlogPost.id bp =? BlogPost.id p) eqn:E; [|reflexivity].
  simpl.
  transitivity (@nil (BlogPost.t * Admin.t)); [|symmetry];
    apply filter_nil_iff; intros [q a] Hin;
    apply in_map_iff in Hin as (a' & Eq & _); injection Eq as <- <-;
    unfold related_clause; simpl; rewrite E; simpl;
    now rewrite andb_false_r.
Qed.

Lemma newest_first_map {A B : Type} (f : A -> B) (k1 : A -> Z)
    (k2 : B -> Z) (l : list A) :
  (forall x, k2 (f x) = k1 x) ->
  newest_first k1 l -> newest_first k2 (map f l).
Proof.
  intros Hk. unfold newest_first.
  induction l as [|x l IH]; simpl; intros Hs; [constructor|].
  inversion Hs as [|? ? Hl Hx]; subst. constructor; [now apply IH|].
  rewrite Forall_forall in *. intros y Hy.
  apply in_map_iff in Hy as (z & <- & Hz). rewrite !Hk. now apply Hx.
Qed.

Lemma get_blog_slug_found (slug : string) (now : Z) (db : database)
    (p : BlogPost.t) :
  blog_keys_ok db -> authors_ok db ->
  In p (blog_posts db) -> BlogPost.slug p = slug ->
  BlogPost.published p = true ->
  exists a,
    get_blog_slug slug now db
    = (Reply 200
         (mkPostReply (with_views (BlogPost.views p + 1) p)
            (Admin.name a) (Admin.email a)
            (map select_related
               (Sql.limit 3
                  (Sql.order_by_desc
                     (fun row => BlogPost.createdAt (fst row))
                     (filter (fun row => related_clause p (fst row))
                             (join_author (admins db) (blog_posts db))))))),
       set_blog_posts db
         (Sql.update (fun q => BlogPost.id q =? BlogPost.id p)
                     (count_view now) (blog_posts db))
         (blog_posts_auto_increment db)).
Proof.
  intros (_ & Hslugs & _) (Hadm & Hfk) Hin Hs Hpub.
  unfold get_blog_slug.
  destruct (filter _ (join_author (admins db) (blog_posts db)))
    as [|[post a] rest] eqn:Hrows.
  - exfalso. rewrite filter_nil_iff in Hrows.
    rewrite Forall_forall in Hfk. specialize (Hfk p Hin).
    apply in_map_iff in Hfk as (a & Ha & Hain).
    specialize (Hrows (p, a)). simpl in Hrows.
    rewrite Hs, String.eqb_refl, Hpub in Hrows.
    assert (Hj : In (p, a) (join_author (admins db) (blog_posts db)))
      by (apply in_join_author; auto).
    specialize (Hrows Hj). discriminate.
  - assert (Hhead : In (post, a) ((post, a) :: rest)) by now left.
    rewrite <- Hrows in Hhead. apply filter_In in Hhead as [Hj Hc].
    apply in_join_author in Hj as (Hpin & _ & _).
    simpl in Hc. apply andb_true_iff in Hc as [Hc _].
    apply String.eqb_eq in Hc.
    assert (post = p).
    { apply (NoDup_map_eq BlogPost.slug (blog_posts db)); auto.
      congruence. }
    subst post. exists a. simpl admins. simpl blog_posts.
    change (fun row : BlogPost.t * Admin.t =>
              String.eqb (BlogPost.category (fst row)) (BlogPost.category p)
              && negb (BlogPost.id (fst row) =? BlogPost.id p)
              && BlogPost.published (fst row))
      with (fun row : BlogPost.t * Admin.t => related_clause p (fst row)).
    now rewrite related_rows_after_view.
Qed.

(** Counting a view keeps the keys of the tables. *)
Lemma get_blog_slug_keeps_keys (slug : string) (now : Z) (db : database) :
  blog_keys_ok db -> authors_ok db ->
  blog_keys_ok (snd (get_blog_slug slug now db))
  /\ authors_ok (snd (get_blog_slug slug now db)).
Proof.
  intros Hkeys Hauth. unfold get_blog_slug.
  destruct (filter _ (join_author (admins db) (blog_posts db)))
    as [|[p a] rest]; [now split|].
  destruct Hkeys as (Hids & Hslugs & Hinc). destruct Hauth as (Hadm & Hfk).
  unfold blog_keys_ok, authors_ok. simpl.
  rewrite !update_map by reflexivity.
  repeat split; auto.
  - rewrite Forall_forall in *. intros q Hq.
    apply update_In in Hq as (q0 & Hq0 & ->). specialize (Hinc q0 Hq0).
    now destruct (BlogPost.id q0 =? BlogPost.id p).
  - rewrite Forall_forall in *. intros q Hq.
    apply update_In in Hq as (q0 & Hq0 & ->). specialize (Hfk q0 Hq0).
    now destruct (BlogPost.id q0 =? BlogPost.id p).
Qed.

(** C6: fetching an existing published post by its slug answers 200, adds
    exactly 1 to the views of that post and changes no other post; the
    related posts are at most 3 (all of them when there are fewer), in
    the post's category, not the post itself, published, ordered from the
    most recent, and no more recent candidate is left out.  When every
    post with the slug is unpublished the answer is 404 and no view is
    counted.  The keys of the tables hold again after the call, so the
    statement applies to every call in a row. *)
Theorem blog_fetch_by_slug (slug : string) (now : Z) (db : database) :
  blog_keys_ok db -> authors_ok db ->
  (forall p,
      In p (blog_posts db) -> BlogPost.slug p = slug ->
      BlogPost.published p = true ->
      exists reply db',
        get_blog_slug slug now db = (Reply 200 reply, db')
        /\ BlogPost.id (post reply) = BlogPost.id p
        /\ BlogPost.views (post reply) = BlogPost.views p + 1
        /\ Forall2 (fun old new =>
                      (old = p -> new = count_view now p
                                  /\ BlogPost.views new = BlogPost.views p + 1)
                      /\ (old <> p -> new = old))
                   (blog_posts db) (blog_posts db')
        /\ (List.length (relatedPosts reply) <= 3)%nat
        /\ List.length (relatedPosts reply)
           = Nat.min 3 (List.length (filter (related_clause p)
                                            (blog_posts db)))
        /\ Forall (fun r =>
                     rel_category r = BlogPost.category p
                     /\ rel_id r <> BlogPost.id p
                     /\ exists q,
                          In q (blog_posts db)
                          /\ BlogPost.published q = true
                          /\ BlogPost.id q = rel_id r
                          /\ BlogPost.createdAt q = rel_createdAt r)
                  (relatedPosts reply)
        /\ newest_first rel_createdAt (relatedPosts reply)
        /\ (forall q,
               In q (blog_posts db) -> related_clause p q = true ->
               (exists r, In r (relatedPosts reply)
                          /\ rel_id r = BlogPost.id q)
               \/ (forall r, In r (relatedPosts reply) ->
                             BlogPost.createdAt q <= rel_createdAt r)))
  /\ ((forall q, In q (blog_posts db) -> BlogPost.slug q = slug ->
                 BlogPost.published q = false) ->
      get_blog_slug slug now db = (Error 404 "Blog post not found", db))
  /\ blog_keys_ok (snd (get_blog_slug slug now db))
  /\ authors_ok (snd (get_blog_slug slug now db)).
Proof.
  intros Hkeys Hauth. split; [|split].
  3: now apply get_blog_slug_keeps_keys.
  - intros p Hin Hs Hpub.
    destruct (get_blog_slug_found slug now db p Hkeys Hauth Hin Hs Hpub)
      as (a & E).
    destruct Hkeys as (Hids & _ & _). destruct Hauth as (Hadm & Hfk).
    eexists. eexists. split; [exact E|].
    cbn [post relatedPosts blog_posts set_blog_posts with_views
         BlogPost.id BlogPost.views].
    set (cands := filter (fun row => related_clause p (fst row))
                         (join_author (admins db) (blog_posts db))).
    set (key := fun row : BlogPost.t * Admin.t =>
                  BlogPost.createdAt (fst row)).
    assert (Hsorted : newest_first key (Sql.order_by_desc key cands))
      by apply order_by_desc_sorted.
    assert (Hcand : forall row,
               In row (Sql.order_by_desc key cands) ->
               In (fst row) (blog_posts db)
               /\ related_clause p (fst row) = true).
    { intros [q a'] Hr. apply order_by_desc_In in Hr.
      apply filter_In in Hr as [Hj Hc].
      apply in_join_author in Hj as (Hq & _). auto. }
    unfold Sql.limit.
    repeat split.
    + apply update_Forall2; intros r Hrin Hr.
      * apply Z.eqb_neq in Hr. split; [intros ->; contradiction | auto].
      * apply Z.eqb_eq in Hr.
        assert (r = p)
          by (apply (NoDup_map_eq BlogPost.id (blog_posts db)); auto).
        subst r. split; [auto | intros Hne; contradiction].
    + rewrite length_map. apply firstn_le_length.
    + rewrite length_map, length_firstn, order_by_desc_length.
      unfold cands. now rewrite join_author_filter_length.
    + apply Forall_forall. intros r Hr.
      apply in_map_iff in Hr as ([q a'] & <- & Hr).
      apply firstn_incl in Hr. apply Hcand in Hr as [Hq Hc].
      simpl in *. unfold related_clause in Hc.
      apply andb_true_iff in Hc as [Hc Hp].
      apply andb_true_iff in Hc as [Hc Hn].
      apply String.eqb_eq in Hc. apply negb_true_iff in Hn.
      apply Z.eqb_neq in Hn. repeat split; auto. now exists q.
    + apply newest_first_map with (k1 := key);
        [now intros [q a'] | now apply newest_first_firstn].
    + intros q Hq Hc.
      rewrite Forall_forall in Hfk. specialize (Hfk q Hq).
      apply in_map_iff in Hfk as (a' & Ha & Hain).
      assert (Hqa : In (q, a') (Sql.order_by_desc key cands)).
      { apply order_by_desc_In. apply filter_In. split; [|exact Hc].
        apply in_join_author. auto. }
      rewrite <- (firstn_skipn 3 (Sql.order_by_desc key cands)) in Hqa.
      apply in_app_or in Hqa as [Hfst|Hrest].
      * left. exists (select_related (q, a')).
        split; [now apply in_map | reflexivity].
      * right. intros r Hr.
        apply in_map_iff in Hr as ([q' a''] & <- & Hr).
        apply (newest_first_cut key 3 _ (q', a'') (q, a') Hsorted Hr Hrest).
  - intros Hunpub. unfold get_blog_slug.
    destruct (filter _ (join_author (admins db) (blog_posts db)))
      as [|[post0 a] rest] eqn:Hrows; [reflexivity|].
    exfalso.
    assert (Hhead : In (post0, a) ((post0, a) :: rest)) by now left.
    rewrite <- Hrows in Hhead. apply filter_In in Hhead as [Hj Hc].
    apply in_join_author in Hj as (Hpin & _ & _).
    simpl in Hc. apply andb_true_iff in Hc as [Hc Hp].
    apply String.eqb_eq in Hc.
    rewrite (Hunpub post0 Hpin Hc) in Hp. discriminate.
Qed.

Lemma blog_slug_uniqueness_witness :
  put_blog_handler "2" 100
      (mkBlogBody None (Some "first") None None Absent None Absent None None
                  None None) demo_db
    = (Error 400 "El slug ya existe. Elige otro slug único.", demo_db)
  /\ fst (put_blog_handler "2" 100
            (mkBlogBody None (Some "second") None None Absent None Absent
                        None None None None) demo_db)
     = Reply 200 tt.
Proof.
  assert (Hok : blog_keys_ok demo_db).
  { unfold blog_keys_ok. simpl.
    repeat split; repeat constructor; simpl; intuition (try discriminate). }
  split.
  - apply (proj1 (proj2 (blog_slug_uniqueness (H := demo_crypto) 100 _
                           demo_db Hok)) "2" 2 eq_refl ltac:(in_range)).
    exists "first", (demo_post 1 "first" "care" true 10).
    repeat split; simpl; auto; discriminate.
  - apply (proj1 (proj2 (proj2 (blog_slug_uniqueness (H := demo_crypto) 100
                                  (mkBlogBody None (Some "second") None None
                                     Absent None Absent None None None None)
                                  demo_db Hok)))
             "2" 2 (demo_post 2 "second" "care" true 20) eq_refl
             ltac:(in_range) ltac:(in_range)).
    + simpl; auto.
    + reflexivity.
    + reflexivity.
Defined.

Lemma blog_fetch_by_slug_witness :
  exists reply db',
    get_blog_slug "first" 100 demo_db = (Reply 200 reply, db')
    /\ BlogPost.views (post reply) = 1
    /\ map BlogPost.views (blog_posts db') = [1; 0; 0]
    /\ map rel_id (relatedPosts reply) = [2].
Proof.
  assert (Hok : blog_keys_ok demo_db).
  { unfold blog_keys_ok. simpl.
    repeat split; repeat constructor; simpl; intuition (try discriminate). }
  assert (Hau : authors_ok demo_db).
  { unfold authors_ok. simpl.
    repeat split; repeat constructor; simpl; intuition. }
  destruct (proj1 (blog_fetch_by_slug "first" 100 demo_db Hok Hau)
              (demo_post 1 "first" "care" true 10))
    as (reply & db' & E & _).
  - simpl; auto.
  - reflexivity.
  - reflexivity.
  - exists reply, db'. split; [exact E|].
    vm_compute in E. injection E as <- <-. repeat split.
Defined.

(* ================================================================= *)
(** ** Contact submissions *)

(** C7: a valid contact submission, whose fields fit the columns of the
    contacts table, stores one row with the submitted
    fields and [createdAt] set, and is answered with 201 and the new id,
    whether the notification is skipped (transport not configured), sent,
    or fails; a failure is only logged, and the response and the database
    do not depend on the notification. *)
Theorem contact_stored_whatever_the_mail (e : env) (delivered : bool)
    (now : Z) (b : contact_body) (db : database)
    (name phone email postalCode : string) :
  valid_contact b name phone email postalCode ->
  contact_fits b ->
  let insertId := contacts_auto_increment db in
  let row := Contact.mk insertId name phone email postalCode now in
  exists db' effects,
    post_contact e delivered now b db = (Reply 201 insertId, db', effects)
    /\ contacts db' = (contacts db ++ [row])%list
    /\ Contact.createdAt row = now
    /\ reviews db' = reviews db /\ admins db' = admins db
    /\ blog_posts db' = blog_posts db
    /\ (configured e = false -> effects = [])
    /\ (configured e = true -> delivered = false ->
        effects = [ErrorLogged "Error sending notification email:"])
    /\ (configured e = true -> delivered = true ->
        exists subject, effects = [MailSent subject])
    /\ (forall e' delivered',
          fst (post_contact e' delivered' now b db) = (Reply 201 insertId, db')).
Proof.
  intros (Hn & Hp & He & Hc & Hne & Hpe & Hre & Hrp) _ insertId row.
  assert (Hee : email <> "") by (intros ->; discriminate).
  assert (Hce : postalCode <> "") by (intros ->; discriminate).
  apply truthy_true in Hne, Hpe, Hee, Hce.
  assert (Hrun : forall e' delivered',
             post_contact e' delivered' now b db
             = (Reply 201 insertId,
                set_contacts db (contacts db ++ [row]) (insertId + 1),
                notify e' delivered'
                  "Nuevo contacto desde la web - Asiste Health Care")).
  { intros e' delivered'. unfold post_contact.
    rewrite Hn, Hp, He, Hc, Hne, Hpe, Hee, Hce, Hre, Hrp. reflexivity. }
  eexists. eexists. split; [apply Hrun|]. simpl.
  repeat split.
  - unfold notify, configured. now intros ->.
  - unfold notify, configured. now intros -> ->.
  - unfold notify, configured. intros -> ->. now eexists.
  - intros e' delivered'. now rewrite Hrun.
Qed.

Lemma contact_stored_whatever_the_mail_witness :
  exists db' effects,
    post_contact (mkEnv (Some "smtp@x.y") (Some "to@x.y")) false 77
        (mkContactBody (Some "Ana") (Some "555-1") (Some "a@b.com")
                       (Some "28001")) demo_db
      = (Reply 201 6, db', effects)
    /\ contacts db'
       = (contacts demo_db
            ++ [Contact.mk 6 "Ana" "555-1" "a@b.com" "28001" 77])%list.
Proof.
  destruct (contact_stored_whatever_the_mail
              (mkEnv (Some "smtp@x.y") (Some "to@x.y")) false 77
              (mkContactBody (Some "Ana") (Some "555-1") (Some "a@b.com")
                             (Some "28001")) demo_db
              "Ana" "555-1" "a@b.com" "28001")
    as (db' & effects & E & Hrows & _).
  - unfold valid_contact. simpl.
    repeat split; try reflexivity; discriminate.
  - in_range.
  - exists db', effects. split; [exact E | exact Hrows].
Defined.

(* ================================================================= *)
(** ** Tokens and logins *)

(** C8: on a protected route a request without a bearer token (no
    Authorization header, or none with a non-empty second word) is
    answered with 401, and one whose token does not verify (invalid or
    expired) with 403; in both cases the answer and the database do not
    depend on the handler behind the middleware, which is not run.  A login with
    a wrong password for an existing active username is answered with 401
    and carries no token. *)
Theorem auth_gate_and_login `{Crypto} (now : Z) (authHeader : option string)
    (db : database) :
  (JS.truthy_opt (bearer_token authHeader) = false ->
   (forall (P : Type) (next : identity -> database -> response P * database),
       authenticateToken now authHeader next db
         = (Error 401 "Access token required", db))
   /\ (forall q, get_admin_contacts now authHeader q db
                   = (Error 401 "Access token required", db))
   /\ (forall q, get_admin_reviews now authHeader q db
                   = (Error 401 "Access token required", db))
   /\ (forall id, put_admin_reviews_approve now authHeader id db
                    = (Error 401 "Access token required", db))
   /\ (forall b, post_blog now authHeader b db
                   = (Error 401 "Access token required", db))
   /\ (forall id b, put_blog now authHeader id b db
                      = (Error 401 "Access token required", db)))
  /\ (forall token,
        bearer_token authHeader = Some token -> token <> "" ->
        jwt_verify now token = None ->
        (forall (P : Type)
                (next : identity -> database -> response P * database),
            authenticateToken now authHeader next db
              = (Error 403 "Invalid token", db))
        /\ (forall q, get_admin_contacts now authHeader q db
                        = (Error 403 "Invalid token", db))
        /\ (forall q, get_admin_reviews now authHeader q db
                        = (Error 403 "Invalid token", db))
        /\ (forall id, put_admin_reviews_approve now authHeader id db
                         = (Error 403 "Invalid token", db))
        /\ (forall b, post_blog now authHeader b db
                        = (Error 403 "Invalid token", db))
        /\ (forall id b, put_blog now authHeader id b db
                           = (Error 403 "Invalid token", db)))
  /\ (forall username password a,
        username <> "" -> password <> "" ->
        In a (admins db) -> Admin.username a = username ->
        Admin.active a = true ->
        (forall a', In a' (admins db) -> Admin.username a' = username ->
                    bcrypt_compare password (Admin.password a') = false) ->
        post_admin_auth now (Some username) (Some password) db
          = (Error 401 "Invalid credentials", db)
        /\ issued_token
             (fst (post_admin_auth now (Some username) (Some password) db))
           = None).
Proof.
  split; [|split].
  - intros Hmiss.
    assert (G : forall (P : Type)
                  (next : identity -> database -> response P * database),
               authenticateToken now authHeader next db
               = (Error 401 "Access token required", db)).
    { intros P next. unfold authenticateToken.
      destruct (bearer_token authHeader) as [token|]; [|reflexivity].
      simpl in Hmiss. now rewrite Hmiss. }
    repeat split; intros; apply G.
  - intros token Hb Ht Hv.
    assert (G : forall (P : Type)
                  (next : identity -> database -> response P * database),
               authenticateToken now authHeader next db
               = (Error 403 "Invalid token", db)).
    { intros P next. unfold authenticateToken.
      apply truthy_true in Ht. now rewrite Hb, Ht, Hv. }
    repeat split; intros; apply G.
  - intros username password a Hu Hp Hin Hname Hact Hwrong.
    apply truthy_true in Hu, Hp.
    assert (E : post_admin_auth now (Some username) (Some password) db
                = (Error 401 "Invalid credentials", db)).
    { unfold post_admin_auth. rewrite Hu, Hp. simpl.
      destruct (filter _ (admins db)) as [|a0 rest] eqn:Hrows;
        [reflexivity|].
      assert (Hhead : In a0 (a0 :: rest)) by now left.
      rewrite <- Hrows in Hhead. apply filter_In in Hhead as [Hin0 Hc].
      apply andb_true_iff in Hc as [Hc _]. apply String.eqb_eq in Hc.
      now rewrite (Hwrong a0 Hin0 Hc). }
    rewrite E. now split.
Qed.

Lemma auth_gate_and_login_witness :
  put_blog (H := demo_crypto) 5 None "1" no_body demo_db
    = (Error 401 "Access token required", demo_db)
  /\ put_blog (H := demo_crypto) 5 (Some "Bearer forged") "1" no_body demo_db
    = (Error 403 "Invalid token", demo_db)
  /\ post_admin_auth (H := demo_crypto) 5 (Some "admin") (Some "guess")
                     demo_db
    = (Error 401 "Invalid credentials", demo_db).
Proof.
  split; [|split].
  - apply (proj1 (auth_gate_and_login (H := demo_crypto) 5 None demo_db)).
    reflexivity.
  - apply (proj1 (proj2 (auth_gate_and_login (H := demo_crypto) 5
                           (Some "Bearer forged") demo_db)) "forged").
    + reflexivity.
    + discriminate.
    + reflexivity.
  - apply (proj2 (proj2 (auth_gate_and_login (H := demo_crypto) 5 None
                           demo_db)) "admin" "guess" demo_admin).
    + discriminate.
    + discriminate.
    + simpl; auto.
    + reflexivity.
    + reflexivity.
    + intros a' [<-|[]] _. reflexivity.
Defined.

(* ================================================================= *)
(** ** The public review feed *)

(** C9: GET /api/reviews answers with approved reviews only, ordered by
    creation time descending, never more than 50 of them (the 50 most
    recent, or all when there are fewer), and whatever the query string
    says. *)
Theorem public_reviews_feed (q : list_query) (db : database) :
  exists rows,
    get_reviews q db = Reply 200 rows
    /\ Forall (fun r => Review.approved r = true /\ In r (reviews db)) rows
    /\ newest_first Review.createdAt rows
    /\ (List.length rows <= 50)%nat
    /\ List.length rows
       = Nat.min 50 (List.length (filter Review.approved (reviews db)))
    /\ (forall r, In r (reviews db) -> Review.approved r = true ->
                  In r rows
                  \/ forall r', In r' rows ->
                                Review.createdAt r <= Review.createdAt r')
    /\ (forall q', get_reviews q' db = get_reviews q db).
Proof.
  eexists. split; [reflexivity|]. unfold Sql.limit.
  set (ordered := Sql.order_by_desc Review.createdAt
                    (filter Review.approved (reviews db))).
  assert (Hs : newest_first Review.createdAt ordered)
    by apply order_by_desc_sorted.
  repeat split.
  - apply Forall_forall. intros r Hr. apply firstn_incl in Hr.
    apply order_by_desc_In in Hr. apply filter_In in Hr. tauto.
  - now apply newest_first_firstn.
  - apply firstn_le_length.
  - unfold ordered. now rewrite length_firstn, order_by_desc_length.
  - intros r Hin Happ.
    assert (Hr : In r ordered).
    { apply order_by_desc_In. apply filter_In. auto. }
    rewrite <- (firstn_skipn 50 ordered) in Hr.
    apply in_app_or in Hr as [Hr|Hr]; [now left | right].
    intros r' Hr'.
    apply (newest_first_cut Review.createdAt 50 ordered r' r Hs Hr' Hr).
Qed.

(* ================================================================= *)
(** ** Numbers and their decimal strings *)

Lemma digit_val_digit_char (d : Z) :
  0 <= d <= 9 -> JS.digit_val 10 (JS.digit_char d) = Some d.
Proof.
  intros Hd.
  assert (Hc : d = 0 \/ d = 1 \/ d = 2 \/ d = 3 \/ d = 4 \/ d = 5 \/ d = 6
               \/ d = 7 \/ d = 8 \/ d = 9) by lia.
  repeat (destruct Hc as [->|Hc]; [reflexivity|]). now subst.
Qed.

Lemma digit_char_is_digit (d : Z) : Regex.is_digit (JS.digit_char d) = true.
Proof.
  destruct d as [|p|p]; try reflexivity.
  do 4 (destruct p as [p|p|]; try reflexivity).
Qed.

Lemma digits_fuel_S (f : nat) (n : Z) (acc : string) :
  JS.digits_fuel (S f) n acc
  = if n <? 10 then String (JS.digit_char (n mod 10)) acc
    else JS.digits_fuel f (n / 10) (String (JS.digit_char (n mod 10)) acc).
Proof. reflexivity. Qed.

(** Reading the digits of [n] adds [n] to a reading that stands at 0. *)
Lemma parse_digits_fuel (f : nat) (n : Z) (acc : string) (a : JS.jsnum) :
  0 <= n < 2 ^ Z.of_nat (S f) ->
  match a with Some v => v = 0 | None => True end ->
  JS.parse_digits 10 (JS.digits_fuel (S f) n acc) a
  = JS.parse_digits 10 acc (Some n).
Proof.
  revert n acc a. induction f as [|f IH]; intros n acc a Hn Ha;
    rewrite digits_fuel_S.
  - assert (n < 10) by (change (2 ^ Z.of_nat 1) with 2 in Hn; lia).
    replace (n <? 10) with true by (symmetry; apply Z.ltb_lt; lia).
    rewrite Z.mod_small by lia. cbn [JS.parse_digits].
    rewrite digit_val_digit_char by lia.
    destruct a as [v|]; [subst v|]; f_equal; f_equal; lia.
  - destruct (n <? 10) eqn:E.
    + apply Z.ltb_lt in E. rewrite Z.mod_small by lia.
      cbn [JS.parse_digits]. rewrite digit_val_digit_char by lia.
      destruct a as [v|]; [subst v|]; f_equal; f_equal; lia.
    + apply Z.ltb_ge in E. rewrite IH.
      * cbn [JS.parse_digits].
        pose proof (Z.mod_pos_bound n 10 ltac:(lia)).
        rewrite digit_val_digit_char by lia.
        f_equal. f_equal. pose proof (Z.div_mod n 10 ltac:(lia)). lia.
      * rewrite Nat2Z.inj_succ, Z.pow_succ_r in Hn by lia.
        split; [apply Z.div_pos; lia|].
        apply Z.div_lt_upper_bound; lia.
      * exact Ha.
Qed.

Lemma digits_fuel_all_digits (f : nat) (n : Z) (acc : string) :
  Regex.all_chars Regex.is_digit acc = true ->
  Regex.all_chars Regex.is_digit (JS.digits_fuel f n acc) = true.
Proof.
  revert n acc. induction f as [|f IH]; intros n acc Hacc; [exact Hacc|].
  rewrite digits_fuel_S.
  assert (Regex.all_chars Regex.is_digit
            (String (JS.digit_char (n mod 10)) acc) = true)
    by (simpl; now rewrite digit_char_is_digit, Hacc).
  destruct (n <? 10); [assumption | now apply IH].
Qed.

Lemma digits_fuel_nonempty (f : nat) (n : Z) (acc : string) :
  JS.digits_fuel (S f) n acc <> "".
Proof.
  revert n acc. induction f as [|f IH]; intros n acc; rewrite digits_fuel_S.
  - destruct (n <? 10); discriminate.
  - destruct (n <? 10); [discriminate | apply IH].
Qed.

(** A string of digits is read in base 10: no space, sign or [0x] prefix
    is found in front. *)
Lemma parseInt_all_digits (s : string) :
  s <> "" -> Regex.all_chars Regex.is_digit s = true ->
  JS.parseInt s = JS.parse_digits 10 s None
  /\ JS.parseInt (String "-" s)
     = match JS.parse_digits 10 s None with
       | Some m => Some (- m)
       | None => None
       end.
Proof.
  intros Hne Hd. destruct s as [|c s]; [contradiction|]. clear Hne.
  simpl in Hd. apply andb_true_iff in Hd as [Hc Hs].
  assert (Hnext : forall r, s = String "x" r \/ s = String "X" r -> False).
  { intros r [->| ->]; simpl in Hs; discriminate. }
  assert (Hshape :
            JS.parseInt (String c s)
            = match JS.parse_digits 10 (String c s) None with
              | Some m => Some (1 * m) | None => None end
            /\ JS.parseInt (String "-" (String c s))
            = match JS.parse_digits 10 (String c s) None with
              | Some m => Some (-1 * m) | None => None end).
  { destruct c as [[] [] [] [] [] [] [] []]; try discriminate Hc;
      try (split; reflexivity);
      destruct s as [|c' s']; try (split; reflexivity);
      destruct c' as [[] [] [] [] [] [] [] []];
      try (split; reflexivity);
      exfalso; eapply Hnext; eauto. }
  destruct Hshape as [E1 E2]. rewrite E1, E2.
  destruct (JS.parse_digits 10 (String c s) None); split; f_equal; lia.
Qed.

(** [parseInt(String(n)) = n]: an id sent back as it was received is the
    same id. *)
Lemma parseInt_toString (n : Z) : JS.parseInt (JS.toString n) = Some n.
Proof.
  assert (Hfuel : forall m, 0 <= m ->
            JS.parse_digits 10
              (JS.digits_fuel (S (Z.to_nat (Z.log2 m))) m "") None
            = Some m).
  { intros m Hm. rewrite parse_digits_fuel; [reflexivity | | exact I].
    split; [exact Hm|].
    rewrite Nat2Z.inj_succ, Z2Nat.id by apply Z.log2_nonneg.
    destruct (Z.eq_dec m 0) as [->|]; [reflexivity|].
    apply Z.log2_spec. lia. }
  unfold JS.toString. destruct (n <? 0) eqn:E.
  - apply Z.ltb_lt in E.
    rewrite (proj2 (parseInt_all_digits _ (digits_fuel_nonempty _ _ _)
                      (digits_fuel_all_digits _ _ "" eq_refl))).
    rewrite Hfuel by lia. f_equal. lia.
  - apply Z.ltb_ge in E.
    rewrite (proj1 (parseInt_all_digits _ (digits_fuel_nonempty _ _ _)
                      (digits_fuel_all_digits _ _ "" eq_refl))).
    now apply Hfuel.
Qed.

(* ================================================================= *)
(** ** DELETE statements *)

Section DeleteFacts.
Context {A : Type} (cond : A -> bool).

Lemma delete_In (rows : list A) (x : A) :
  In x (Sql.delete cond rows) <-> In x rows /\ cond x = false.
Proof.
  unfold Sql.delete. rewrite filter_In. now rewrite negb_true_iff.
Qed.

Lemma delete_no_match (rows : list A) :
  filter cond rows = [] -> Sql.delete cond rows = rows.
Proof.
  unfold Sql.delete. induction rows as [|r rows IH]; simpl; [reflexivity|].
  destruct (cond r); simpl; [discriminate|].
  intros E. now rewrite IH.
Qed.

Lemma delete_leaves_none (rows : list A) :
  filter cond (Sql.delete cond rows) = [].
Proof.
  apply filter_nil_iff. intros x Hx. now apply delete_In in Hx.
Qed.

Lemma delete_length (rows : list A) :
  (List.length (Sql.delete cond rows) + List.length (filter cond rows)
   = List.length rows)%nat.
Proof.
  unfold Sql.delete. induction rows as [|r rows IH]; simpl; [reflexivity|].
  destruct (cond r); simpl; lia.
Qed.

Lemma delete_snoc (rows : list A) (x : A) :
  cond x = true -> filter cond rows = [] ->
  Sql.delete cond (rows ++ [x]) = rows.
Proof.
  intros Hx Hr. unfold Sql.delete. rewrite filter_app. simpl.
  rewrite Hx. simpl. rewrite app_nil_r. now apply delete_no_match.
Qed.
End DeleteFacts.

Lemma filter_unique_key {A : Type} (key : A -> Z) (n : Z) (rows : list A)
    (x : A) :
  NoDup (map key rows) -> In x rows -> key x = n ->
  filter (fun r => key r =? n) rows = [x].
Proof.
  induction rows as [|r rows IH]; simpl; [contradiction|].
  intros Hn Hin Hk. apply NoDup_cons_iff in Hn as [Hr Hn].
  destruct Hin as [->|Hin].
  - rewrite Hk, Z.eqb_refl. f_equal.
    apply filter_nil_iff. intros y Hy. apply Z.eqb_neq.
    intros Hyn. apply Hr. rewrite Hk, <- Hyn. now apply in_map.
  - destruct (key r =? n) eqn:E.
    + apply Z.eqb_eq in E. exfalso. apply Hr.
      rewrite E, <- Hk. now apply in_map.
    + now apply IH.
Qed.

Lemma set_contacts_same (db : database) :
  set_contacts db (contacts db) (contacts_auto_increment db) = db.
Proof. now destruct db. Qed.

Lemma set_reviews_id (db : database) :
  set_reviews db (reviews db) (reviews_auto_increment db) = db.
Proof. now destruct db. Qed.

Lemma delete_contact_cases (id : string) (n : Z) (db : database) :
  JS.parseInt id = Some n ->
  (filter (has_contact_id (Some n)) (contacts db) = [] ->
   delete_contact id db = (Error 404 "Contact not found", db))
  /\ (filter (has_contact_id (Some n)) (contacts db) <> [] ->
      delete_contact id db
      = (Reply 200 tt,
         set_contacts db (Sql.delete (has_contact_id (Some n)) (contacts db))
                      (contacts_auto_increment db))).
Proof.
  intros Hid. unfold delete_contact. rewrite Hid. simpl JS.isNaN. cbv iota.
  split; intros He.
  - rewrite (proj2 (affectedRows_zero _ _) He).
    rewrite delete_no_match by exact He. now rewrite set_contacts_same.
  - destruct (Sql.affectedRows _ _ =? 0) eqn:E; [|reflexivity].
    apply affectedRows_zero in E. contradiction.
Qed.

Lemma delete_reviews_cases (id : string) (n : Z) (db : database) :
  JS.parseInt id = Some n ->
  (filter (has_review_id (Some n)) (reviews db) = [] ->
   delete_reviews id db = (Error 404 "Review not found", db))
  /\ (filter (has_review_id (Some n)) (reviews db) <> [] ->
      delete_reviews id db
      = (Reply 200 tt,
         set_reviews db (Sql.delete (has_review_id (Some n)) (reviews db))
                     (reviews_auto_increment db))).
Proof.
  intros Hid. unfold delete_reviews. rewrite Hid. simpl JS.isNaN. cbv iota.
  split; intros He.
  - rewrite (proj2 (affectedRows_zero _ _) He).
    rewrite delete_no_match by exact He. now rewrite set_reviews_id.
  - destruct (Sql.affectedRows _ _ =? 0) eqn:E; [|reflexivity].
    apply affectedRows_zero in E. contradiction.
Qed.

Lemma delete_blog_handler_cases (id : string) (n : Z) (db : database) :
  JS.parseInt id = Some n ->
  (filter (has_post_id (Some n)) (blog_posts db) = [] ->
   delete_blog_handler id db = (Error 404 "Blog post not found", db))
  /\ (filter (has_post_id (Some n)) (blog_posts db) <> [] ->
      delete_blog_handler id db
      = (Reply 200 tt,
         set_blog_posts db
           (Sql.delete (has_post_id (Some n)) (blog_posts db))
           (blog_posts_auto_increment db))).
Proof.
  intros Hid. unfold delete_blog_handler. rewrite Hid. simpl JS.isNaN.
  cbv iota. split; intros He.
  - rewrite (proj2 (affectedRows_zero _ _) He).
    rewrite delete_no_match by exact He. now rewrite set_blog_posts_same.
  - destruct (Sql.affectedRows _ _ =? 0) eqn:E; [|reflexivity].
    apply affectedRows_zero in E. contradiction.
Qed.

Lemma filter_not_nil_In {A : Type} (f : A -> bool) (l : list A) (x : A) :
  In x l -> f x = true -> filter f l <> [].
Proof.
  intros Hin Hf He. rewrite filter_nil_iff in He.
  specialize (He x Hin). congruence.
Qed.

(** X1: deleting by an id that a row has answers 200 and removes the rows
    with that id and no other: the rows left are the former rows with
    another id, and with unique ids the table is one row shorter.  This
    holds for contacts, reviews and blog posts alike. *)
Theorem delete_removes_that_row_only (id : string) (n : Z) (db : database) :
  JS.parseInt id = Some n ->
  ((exists c, In c (contacts db) /\ Contact.id c = n) ->
   exists db',
     delete_contact id db = (Reply 200 tt, db')
     /\ (forall c, In c (contacts db')
                   <-> In c (contacts db) /\ Contact.id c <> n)
     /\ (NoDup (map Contact.id (contacts db)) ->
         S (List.length (contacts db')) = List.length (contacts db))
     /\ reviews db' = reviews db /\ blog_posts db' = blog_posts db
     /\ admins db' = admins db)
  /\ ((exists r, In r (reviews db) /\ Review.id r = n) ->
      exists db',
        delete_reviews id db = (Reply 200 tt, db')
        /\ (forall r, In r (reviews db')
                      <-> In r (reviews db) /\ Review.id r <> n)
        /\ (NoDup (map Review.id (reviews db)) ->
            S (List.length (reviews db')) = List.length (reviews db))
        /\ contacts db' = contacts db /\ blog_posts db' = blog_posts db
        /\ admins db' = admins db)
  /\ ((exists p, In p (blog_posts db) /\ BlogPost.id p = n) ->
      exists db',
        delete_blog_handler id db = (Reply 200 tt, db')
        /\ (forall p, In p (blog_posts db')
                      <-> In p (blog_posts db) /\ BlogPost.id p <> n)
        /\ (NoDup (map BlogPost.id (blog_posts db)) ->
            S (List.length (blog_posts db')) = List.length (blog_posts db))
        /\ contacts db' = contacts db /\ reviews db' = reviews db
        /\ admins db' = admins db).
Proof.
  intros Hid. split; [|split].
  - intros (c0 & Hin & Hc0). eexists. split.
    { apply (proj2 (delete_contact_cases id n db Hid)).
      apply (filter_not_nil_In _ _ c0 Hin). simpl. now apply Z.eqb_eq. }
    simpl. split; [|split; [|repeat split]].
    + intros c. rewrite delete_In. simpl. now rewrite Z.eqb_neq.
    + intros Hnd.
      pose proof (delete_length (has_contact_id (Some n)) (contacts db)) as L.
      change (has_contact_id (Some n))
        with (fun r : Contact.t => Contact.id r =? n) in L at 2.
      rewrite (filter_unique_key Contact.id n _ c0 Hnd Hin Hc0) in L.
      simpl in L. lia.
  - intros (r0 & Hin & Hr0). eexists. split.
    { apply (proj2 (delete_reviews_cases id n db Hid)).
      apply (filter_not_nil_In _ _ r0 Hin). simpl. now apply Z.eqb_eq. }
    simpl. split; [|split; [|repeat split]].
    + intros r. rewrite delete_In. simpl. now rewrite Z.eqb_neq.
    + intros Hnd.
      pose proof (delete_length (has_review_id (Some n)) (reviews db)) as L.
      change (has_review_id (Some n))
        with (fun r : Review.t => Review.id r =? n) in L at 2.
      rewrite (filter_unique_key Review.id n _ r0 Hnd Hin Hr0) in L.
      simpl in L. lia.
  - intros (p0 & Hin & Hp0). eexists. split.
    { apply (proj2 (delete_blog_handler_cases id n db Hid)).
      apply (filter_not_nil_In _ _ p0 Hin). simpl. now apply Z.eqb_eq. }
    simpl. split; [|split; [|repeat split]].
    + intros p. rewrite delete_In. simpl. now rewrite Z.eqb_neq.
    + intros Hnd.
      pose proof (delete_length (has_post_id (Some n)) (blog_posts db)) as L.
      change (has_post_id (Some n))
        with (fun r : BlogPost.t => BlogPost.id r =? n) in L at 2.
      rewrite (filter_unique_key BlogPost.id n _ p0 Hnd Hin Hp0) in L.
      simpl in L. lia.
Qed.

Lemma delete_removes_that_row_only_witness :
  exists db',
    delete_contact "3" demo_db = (Reply 200 tt, db')
    /\ map Contact.id (contacts db') = [1; 2; 4; 5].
Proof.
  destruct (proj1 (delete_removes_that_row_only "3" 3 demo_db eq_refl))
    as (db' & E & _).
  - exists (demo_contact 3 20). split; [simpl; auto | reflexivity].
  - exists db'. split; [exact E|].
    vm_compute in E. injection E as <-. reflexivity.
Defined.

(** X2: deleting by an id, a safe integer, that no row has answers 404
    and changes nothing; in particular a second delete of the same id
    always answers 404, whatever the first one did. *)
Theorem delete_missing_or_repeated (id : string) (n : Z) (db : database) :
  JS.parseInt id = Some n ->
  JS.safe n ->
  ((forall c, In c (contacts db) -> Contact.id c <> n) ->
   delete_contact id db = (Error 404 "Contact not found", db))
  /\ ((forall r, In r (reviews db) -> Review.id r <> n) ->
      delete_reviews id db = (Error 404 "Review not found", db))
  /\ ((forall p, In p (blog_posts db) -> BlogPost.id p <> n) ->
      delete_blog_handler id db = (Error 404 "Blog post not found", db))
  /\ delete_contact id (snd (delete_contact id db))
     = (Error 404 "Contact not found", snd (delete_contact id db))
  /\ delete_reviews id (snd (delete_reviews id db))
     = (Error 404 "Review not found", snd (delete_reviews id db))
  /\ delete_blog_handler id (snd (delete_blog_handler id db))
     = (Error 404 "Blog post not found", snd (delete_blog_handler id db)).
Proof.
  intros Hid _.
  assert (Hc : forall d, filter (has_contact_id (Some n)) (contacts d) = [] ->
               delete_contact id d = (Error 404 "Contact not found", d))
    by (intros d; apply (proj1 (delete_contact_cases id n d Hid))).
  assert (Hr : forall d, filter (has_review_id (Some n)) (reviews d) = [] ->
               delete_reviews id d = (Error 404 "Review not found", d))
    by (intros d; apply (proj1 (delete_reviews_cases id n d Hid))).
  assert (Hp : forall d, filter (has_post_id (Some n)) (blog_posts d) = [] ->
               delete_blog_handler id d
               = (Error 404 "Blog post not found", d))
    by (intros d; apply (proj1 (delete_blog_handler_cases id n d Hid))).
  repeat split.
  - intros Hno. apply Hc. apply filter_nil_iff. intros c Hin. simpl.
    apply Z.eqb_neq. now apply Hno.
  - intros Hno. apply Hr. apply filter_nil_iff. intros r Hin. simpl.
    apply Z.eqb_neq. now apply Hno.
  - intros Hno. apply Hp. apply filter_nil_iff. intros p Hin. simpl.
    apply Z.eqb_neq. now apply Hno.
  - apply Hc. unfold delete_contact. rewrite Hid. simpl JS.isNaN. cbv iota.
    destruct (Sql.affectedRows _ _ =? 0); simpl; apply delete_leaves_none.
  - apply Hr. unfold delete_reviews. rewrite Hid. simpl JS.isNaN. cbv iota.
    destruct (Sql.affectedRows _ _ =? 0); simpl; apply delete_leaves_none.
  - apply Hp. unfold delete_blog_handler. rewrite Hid. simpl JS.isNaN.
    cbv iota.
    destruct (Sql.affectedRows _ _ =? 0); simpl; apply delete_leaves_none.
Qed.

Lemma delete_missing_or_repeated_witness :
  delete_reviews "7" demo_db = (Error 404 "Review not found", demo_db)
  /\ delete_blog_handler "2" (snd (delete_blog_handler "2" demo_db))
     = (Error 404 "Blog post not found",
        snd (delete_blog_handler "2" demo_db)).
Proof.
  split.
  - apply (proj1 (proj2 (delete_missing_or_repeated "7" 7 demo_db eq_refl
                           ltac:(in_range)))).
    intros r [<-|[<-|[]]]; discriminate.
  - apply (proj2 (proj2 (proj2 (proj2 (proj2
             (delete_missing_or_repeated "2" 2 demo_db eq_refl
                ltac:(in_range))))))).
Defined.

(* ================================================================= *)
(** ** Submitting and removing *)

Lemma post_contact_valid (e : env) (delivered : bool) (now : Z)
    (b : contact_body) (db : database)
    (name phone email postalCode : string) :
  valid_contact b name phone email postalCode ->
  post_contact e delivered now b db
  = (Reply 201 (contacts_auto_increment db),
     set_contacts db
       (contacts db
          ++ [Contact.mk (contacts_auto_increment db) name phone email
                         postalCode now])
       (contacts_auto_increment db + 1),
     notify e delivered "Nuevo contacto desde la web - Asiste Health Care").
Proof.
  intros (Hn & Hp & He & Hc & Hne & Hpe & Hre & Hrp).
  assert (Hee : email <> "") by (intros ->; discriminate).
  assert (Hce : postalCode <> "") by (intros ->; discriminate).
  apply truthy_true in Hne, Hpe, Hee, Hce.
  unfold post_contact.
  now rewrite Hn, Hp, He, Hc, Hne, Hpe, Hee, Hce, Hre, Hrp.
Qed.

Lemma post_reviews_valid (e : env) (delivered : bool) (now : Z)
    (b : review_body) (db : database) (name email comment : string)
    (n : Z) :
  valid_review_text b name email comment ->
  JS.truthy_value (rb_rating b) = true ->
  JS.parseInt_value (rb_rating b) = Some n -> 1 <= n <= 5 ->
  post_reviews e delivered now b db
  = (Reply 201 (reviews_auto_increment db),
     set_reviews db
       (reviews db
          ++ [Review.mk (reviews_auto_increment db) name email n comment
                        false now now])
       (reviews_auto_increment db + 1),
     notify e delivered
       "Nueva reseña pendiente de aprobación - Asiste Health Care").
Proof.
  intros (Hn & He & Hc & Hne & Hre & Hlen) Hrt Hparse Hrange.
  assert (Hee : email <> "") by (intros ->; discriminate).
  assert (Hce : comment <> "") by (intros ->; simpl in Hlen; lia).
  apply truthy_true in Hne, Hee, Hce.
  unfold post_reviews.
  rewrite Hn, He, Hc, Hne, Hee, Hce, Hrt, Hre, Hparse. simpl.
  replace (n <? 1) with false by (symmetry; apply Z.ltb_ge; lia).
  replace (5 <? n) with false by (symmetry; apply Z.ltb_ge; lia).
  replace (String.length comment <? 10)%nat with false
    by (symmetry; apply Nat.ltb_ge; lia).
  replace (1000 <? String.length comment)%nat with false
    by (symmetry; apply Nat.ltb_ge; lia).
  reflexivity.
Qed.

Lemma fresh_id_no_match {A : Type} (key : A -> Z) (next : Z) (rows : list A) :
  Forall (fun r => key r < next) rows ->
  filter (fun r => key r =? next) rows = [].
Proof.
  intros Hf. apply filter_nil_iff. intros r Hr.
  rewrite Forall_forall in Hf. specialize (Hf r Hr).
  apply Z.eqb_neq. lia.
Qed.

(** X3: a contact or a review that was just submitted, with fields that
    fit their columns, is removed again by a DELETE with the id the
    submission returned, written in decimal: the table is as it was
    before the submission, and its counter stays past the id.  The
    counter of the table is a safe integer. *)
Theorem submit_then_delete_restores (e : env) (delivered : bool) (now : Z)
    (db : database) :
  (forall b name phone email postalCode,
      valid_contact b name phone email postalCode ->
      contact_fits b ->
      JS.safe (contacts_auto_increment db) ->
      Forall (fun c => Contact.id c < contacts_auto_increment db)
             (contacts db) ->
      exists i db1 effects db2,
        post_contact e delivered now b db = (Reply 201 i, db1, effects)
        /\ delete_contact (JS.toString i) db1 = (Reply 200 tt, db2)
        /\ contacts db2 = contacts db
        /\ contacts_auto_increment db2 = contacts_auto_increment db + 1)
  /\ (forall b name email comment n,
      valid_review_text b name email comment ->
      JS.truthy_value (rb_rating b) = true ->
      JS.parseInt_value (rb_rating b) = Some n -> 1 <= n <= 5 ->
      review_fits b ->
      JS.safe (reviews_auto_increment db) ->
      Forall (fun r => Review.id r < reviews_auto_increment db)
             (reviews db) ->
      exists i db1 effects db2,
        post_reviews e delivered now b db = (Reply 201 i, db1, effects)
        /\ delete_reviews (JS.toString i) db1 = (Reply 200 tt, db2)
        /\ reviews db2 = reviews db
        /\ reviews_auto_increment db2 = reviews_auto_increment db + 1).
Proof.
  split.
  - intros b name phone email postalCode Hv _ _ Hfresh.
    do 4 eexists. split; [now apply post_contact_valid with (1 := Hv)|].
    destruct (delete_contact_cases
                (JS.toString (contacts_auto_increment db))
                (contacts_auto_increment db)
                (set_contacts db
                   (contacts db
                      ++ [Contact.mk (contacts_auto_increment db) name phone
                                     email postalCode now])
                   (contacts_auto_increment db + 1))
                (parseInt_toString _)) as [_ Hdel].
    rewrite Hdel.
    + split; [reflexivity|]. simpl. split; [|reflexivity].
      apply delete_snoc; [simpl; apply Z.eqb_refl|].
      now apply (fresh_id_no_match Contact.id).
    + simpl. apply (filter_not_nil_In _ _
                      (Contact.mk (contacts_auto_increment db) name phone
                                  email postalCode now)).
      * apply in_or_app. right. now left.
      * simpl. apply Z.eqb_refl.
  - intros b name email comment n Hv Ht Hp Hr _ _ Hfresh.
    do 4 eexists.
    split; [now apply post_reviews_valid with (1 := Hv) (n := n)|].
    destruct (delete_reviews_cases
                (JS.toString (reviews_auto_increment db))
                (reviews_auto_increment db)
                (set_reviews db
                   (reviews db
                      ++ [Review.mk (reviews_auto_increment db) name email n
                                    comment false now now])
                   (reviews_auto_increment db + 1))
                (parseInt_toString _)) as [_ Hdel].
    rewrite Hdel.
    + split; [reflexivity|]. simpl. split; [|reflexivity].
      apply delete_snoc; [simpl; apply Z.eqb_refl|].
      now apply (fresh_id_no_match Review.id).
    + simpl. apply (filter_not_nil_In _ _
                      (Review.mk (reviews_auto_increment db) name email n
                                 comment false now now)).
      * apply in_or_app. right. now left.
      * simpl. apply Z.eqb_refl.
Qed.

Lemma submit_then_delete_restores_witness :
  exists i db1 effects db2,
    post_contact (mkEnv None None) true 77
        (mkContactBody (Some "Ana") (Some "555-1") (Some "a@b.com")
                       (Some "28001")) demo_db
      = (Reply 201 i, db1, effects)
    /\ delete_contact (JS.toString i) db1 = (Reply 200 tt, db2)
    /\ contacts db2 = contacts demo_db.
Proof.
  destruct (proj1 (submit_then_delete_restores (mkEnv None None) true 77
                     demo_db)
              (mkContactBody (Some "Ana") (Some "555-1") (Some "a@b.com")
                             (Some "28001"))
              "Ana" "555-1" "a@b.com" "28001")
    as (i & db1 & effects & db2 & E1 & E2 & E3 & _).
  - unfold valid_contact. simpl.
    repeat split; try reflexivity; discriminate.
  - in_range.
  - in_range.
  - simpl. repeat constructor; simpl; lia.
  - exists i, db1, effects, db2. auto.
Defined.

(* ================================================================= *)
(** ** The e-mail pattern *)

Lemma all_chars_app (p : ascii -> bool) (a b : string) :
  Regex.all_chars p (String.append a b)
  = Regex.all_chars p a && Regex.all_chars p b.
Proof.
  induction a as [|c a IH]; simpl; [reflexivity|].
  now rewrite IH, andb_assoc.
Qed.

Lemma plain_not_at (c : ascii) :
  Regex.plain c = true -> Ascii.eqb c "@" = false.
Proof.
  unfold Regex.plain. intros H. apply andb_true_iff in H as [_ H].
  now apply negb_true_iff in H.
Qed.

Lemma string_eqb_empty (s : string) : String.eqb s "" = false <-> s <> "".
Proof. apply String.eqb_neq. Qed.

Lemma dotted_iff (s : string) (before : bool) :
  Regex.dotted s before = true
  <-> exists host tld,
        s = String.append host (String "." tld)
        /\ (before = true \/ host <> "") /\ tld <> ""
        /\ Regex.all_chars Regex.plain host = true
        /\ Regex.all_chars Regex.plain tld = true.
Proof.
  split.
  - revert before. induction s as [|c s IH]; intros before H; simpl in H;
      [discriminate|].
    apply andb_true_iff in H as [Hc H].
    apply orb_true_iff in H as [H|H].
    + apply andb_true_iff in H as [H Ht].
      apply andb_true_iff in H as [H Hne].
      apply andb_true_iff in H as [Hdot Hb].
      apply Ascii.eqb_eq in Hdot. subst c.
      apply negb_true_iff, string_eqb_empty in Hne.
      exists "", s. simpl. auto.
    + apply IH in H as (host & tld & -> & _ & Hne & Hh & Ht).
      exists (String c host), tld. simpl. rewrite Hc, Hh.
      repeat split; auto. right. discriminate.
  - intros (host & tld & -> & Hb & Hne & Hh & Ht).
    revert before Hb. induction host as [|c host IH]; intros before Hb.
    + destruct Hb as [->|Hb]; [|contradiction]. simpl.
      apply string_eqb_empty in Hne. rewrite Hne, Ht. reflexivity.
    + simpl in Hh. apply andb_true_iff in Hh as [Hc Hh].
      simpl. rewrite Hc. simpl.
      rewrite (IH Hh true) by now left. apply orb_true_r.
Qed.

Lemma email_from_iff (s : string) (before : bool) :
  Regex.email_from s before = true
  <-> exists user rest,
        s = String.append user (String "@" rest)
        /\ (before = true \/ user <> "")
        /\ Regex.all_chars Regex.plain user = true
        /\ Regex.dotted rest false = true.
Proof.
  split.
  - revert before. induction s as [|c s IH]; intros before H; simpl in H;
      [discriminate|].
    destruct (Ascii.eqb c "@") eqn:E.
    + apply Ascii.eqb_eq in E. subst c.
      apply andb_true_iff in H as [Hb Hd].
      exists "", s. simpl. auto.
    + apply andb_true_iff in H as [Hc H].
      apply IH in H as (user & rest & -> & _ & Hu & Hd).
      exists (String c user), rest. simpl. rewrite Hc, Hu.
      repeat split; auto. right. discriminate.
  - intros (user & rest & -> & Hb & Hu & Hd).
    revert before Hb. induction user as [|c user IH]; intros before Hb.
    + destruct Hb as [->|Hb]; [|contradiction]. simpl. exact Hd.
    + simpl in Hu. apply andb_true_iff in Hu as [Hc Hu].
      simpl. rewrite (plain_not_at c Hc), Hc. simpl.
      apply (IH Hu true). now left.
Qed.

Lemma emailRegex_test_shape (s : string) :
  Regex.emailRegex_test s = true <-> email_shape s.
Proof.
  unfold Regex.emailRegex_test, email_shape. rewrite email_from_iff. split.
  - intros (user & rest & -> & Hb & Hu & Hd).
    apply dotted_iff in Hd as (host & tld & -> & Hh & Ht & Hph & Hpt).
    exists user, host, tld.
    repeat split; auto.
    + destruct Hb as [Hb|Hb]; [discriminate | exact Hb].
    + destruct Hh as [Hh|Hh]; [discriminate | exact Hh].
  - intros (user & host & tld & -> & Hu & Hh & Ht & Hpu & Hph & Hpt).
    exists user, (String.append host (String "." tld)).
    repeat split; auto.
    apply dotted_iff. exists host, tld. auto.
Qed.

(** X4: the pattern of the two create handlers accepts exactly the
    strings [user@host.tld] whose three parts are non-empty and free of
    white space and of [@]; so an accepted address has exactly one [@],
    and a dot after it with something on both sides. *)
Theorem email_pattern_accepts_exactly (s : string) :
  (Regex.emailRegex_test s = true <-> email_shape s)
  /\ (Regex.emailRegex_test s = true ->
      Regex.all_chars (fun c => negb (JS.is_space c)) s = true
      /\ exists user domain,
           s = String.append user (String "@" domain)
           /\ Regex.all_chars (fun c => negb (Ascii.eqb c "@")) user = true
           /\ Regex.all_chars (fun c => negb (Ascii.eqb c "@")) domain
              = true).
Proof.
  split; [apply emailRegex_test_shape|].
  intros H. apply emailRegex_test_shape in H
    as (user & host & tld & -> & Hu & Hh & Ht & Hpu & Hph & Hpt).
  assert (Hsub : forall (p : ascii -> bool) t,
             (forall c, Regex.plain c = true -> p c = true) ->
             Regex.all_chars Regex.plain t = true ->
             Regex.all_chars p t = true).
  { intros p t Hp. induction t as [|c t IH]; simpl; [reflexivity|].
    intros H. apply andb_true_iff in H as [Hc H].
    now rewrite (Hp c Hc), IH. }
  assert (Hsp : forall c, Regex.plain c = true ->
                          negb (JS.is_space c) = true)
    by (intros c H; unfold Regex.plain in H;
        now apply andb_true_iff in H as [H _]).
  assert (Hat : forall c, Regex.plain c = true ->
                          negb (Ascii.eqb c "@") = true)
    by (intros c H; unfold Regex.plain in H;
        now apply andb_true_iff in H as [_ H]).
  split.
  - rewrite all_chars_app. simpl. rewrite all_chars_app. simpl.
    now rewrite !(Hsub _ _ Hsp) by assumption.
  - exists user, (String.append host (String "." tld)).
    split; [reflexivity|]. split; [now apply Hsub|].
    rewrite all_chars_app. simpl. now rewrite !(Hsub _ _ Hat) by assumption.
Qed.

Lemma email_pattern_accepts_exactly_witness :
  email_shape "ana.perez@asiste.health.com".
Proof.
  apply (proj1 (proj1 (email_pattern_accepts_exactly
                         "ana.perez@asiste.health.com"))).
  reflexivity.
Defined.

(* ================================================================= *)
(** ** Validation of the submissions *)

Lemma post_reviews_outcome (e : env) (delivered : bool) (now : Z)
    (b : review_body) (db : database) :
  (exists msg, post_reviews e delivered now b db = (Error 400 msg, db, []))
  \/ (exists name email comment n,
        valid_review_text b name email comment
        /\ JS.truthy_value (rb_rating b) = true
        /\ JS.parseInt_value (rb_rating b) = Some n /\ 1 <= n <= 5).
Proof.
  unfold post_reviews.
  destruct (rb_name b) as [name|] eqn:Hn; [|left; eauto].
  destruct (rb_email b) as [email|] eqn:He; [|left; eauto].
  destruct (rb_comment b) as [comment|] eqn:Hc; [|left; eauto].
  destruct (negb (JS.truthy name) || negb (JS.truthy email)
            || negb (JS.truthy_value (rb_rating b))
            || negb (JS.truthy comment)) eqn:Ereq; [left; eauto|].
  destruct (negb (Regex.emailRegex_test email)) eqn:Eem; [left; eauto|].
  destruct (JS.isNaN (JS.parseInt_value (rb_rating b))
            || JS.lt (JS.parseInt_value (rb_rating b)) 1
            || JS.gt (JS.parseInt_value (rb_rating b)) 5) eqn:Erange;
    [left; eauto|].
  destruct (String.length comment <? 10)%nat eqn:Eshort; [left; eauto|].
  destruct (1000 <? String.length comment)%nat eqn:Elong; [left; eauto|].
  destruct (JS.parseInt_value (rb_rating b)) as [n|] eqn:Hparse;
    [|left; eauto].
  right. exists name, email, comment, n.
  repeat (apply orb_false_iff in Ereq as [Ereq ?]).
  repeat (apply orb_false_iff in Erange as [Erange ?]).
  simpl in *.
  repeat match goal with
         | H : negb _ = false |- _ => apply negb_false_iff in H
         | H : (_ <? _) = false |- _ => apply Z.ltb_ge in H
         | H : (_ <? _)%nat = false |- _ => apply Nat.ltb_ge in H
         end.
  unfold valid_review_text. rewrite truthy_true in *.
  repeat split; auto; lia.
Qed.

Lemma post_contact_outcome (e : env) (delivered : bool) (now : Z)
    (b : contact_body) (db : database) :
  (exists msg, post_contact e delivered now b db = (Error 400 msg, db, []))
  \/ (exists name phone email postalCode,
        valid_contact b name phone email postalCode).
Proof.
  unfold post_contact.
  destruct (cb_name b) as [name|] eqn:Hn; [|left; eauto].
  destruct (cb_phone b) as [phone|] eqn:Hp; [|left; eauto].
  destruct (cb_email b) as [email|] eqn:He; [|left; eauto].
  destruct (cb_postalCode b) as [postalCode|] eqn:Hc; [|left; eauto].
  destruct (negb (JS.truthy name) || negb (JS.truthy phone)
            || negb (JS.truthy email) || negb (JS.truthy postalCode))
    eqn:Ereq; [left; eauto|].
  destruct (negb (Regex.emailRegex_test email)) eqn:Eem; [left; eauto|].
  destruct (negb (Regex.postalCodeRegex_test postalCode)) eqn:Epc;
    [left; eauto|].
  right. exists name, phone, email, postalCode.
  repeat (apply orb_false_iff in Ereq as [Ereq ?]).
  repeat match goal with
         | H : negb _ = false |- _ => apply negb_false_iff in H
         end.
  unfold valid_contact. rewrite truthy_true in *.
  repeat split; auto.
Qed.

(** X5: for a submission whose text fields are strings that fit their
    columns (or are absent), and whose rating is a string, a number,
    [null] or absent: POST /api/reviews answers 201 exactly when the name
    is present, the e-mail matches the pattern, the rating is truthy and
    parses to an integer from 1 to 5, and the comment has 10 to 1000
    characters; POST /api/contact exactly when name and phone are
    present, the e-mail matches and the postal code is five digits.
    Every other such submission is answered 400, writes nothing and sends
    no mail. *)
Theorem submissions_accepted_exactly_when_valid (e : env) (delivered : bool)
    (now : Z) (db : database) :
  (forall b,
      review_fits b ->
      (status_of (fst (fst (post_reviews e delivered now b db))) = 201
       <-> exists name email comment n,
             valid_review_text b name email comment
             /\ JS.truthy_value (rb_rating b) = true
             /\ JS.parseInt_value (rb_rating b) = Some n /\ 1 <= n <= 5)
      /\ (status_of (fst (fst (post_reviews e delivered now b db))) <> 201 ->
          exists msg,
            post_reviews e delivered now b db = (Error 400 msg, db, [])))
  /\ (forall b,
      contact_fits b ->
      (status_of (fst (fst (post_contact e delivered now b db))) = 201
       <-> exists name phone email postalCode,
             valid_contact b name phone email postalCode)
      /\ (status_of (fst (fst (post_contact e delivered now b db))) <> 201 ->
          exists msg,
            post_contact e delivered now b db = (Error 400 msg, db, []))).
Proof.
  split; intros b _.
  - destruct (post_reviews_outcome e delivered now b db)
      as [(msg & E)|(name & email & comment & n & Hv & Ht & Hp & Hr)].
    + rewrite E. simpl. split; [split|]; eauto.
      * discriminate.
      * intros (name & email & comment & n & Hv & Ht & Hp & Hr).
        rewrite (post_reviews_valid e delivered now b db _ _ _ n Hv Ht Hp Hr)
          in E. discriminate.
    + rewrite (post_reviews_valid e delivered now b db _ _ _ n Hv Ht Hp Hr).
      simpl. split; [split|].
      * intros _. exists name, email, comment, n. auto.
      * reflexivity.
      * intros H. exfalso. now apply H.
  - destruct (post_contact_outcome e delivered now b db)
      as [(msg & E)|(name & phone & email & postalCode & Hv)].
    + rewrite E. simpl. split; [split|]; eauto.
      * discriminate.
      * intros (name & phone & email & postalCode & Hv).
        rewrite (post_contact_valid e delivered now b db _ _ _ _ Hv) in E.
        discriminate.
    + rewrite (post_contact_valid e delivered now b db _ _ _ _ Hv).
      simpl. split; [split|].
      * intros _. exists name, phone, email, postalCode. exact Hv.
      * reflexivity.
      * intros H. exfalso. now apply H.
Qed.

Lemma submissions_accepted_exactly_when_valid_witness :
  exists msg,
    post_reviews (mkEnv (Some "smtp@x.y") (Some "to@x.y")) true 9
        (mkReviewBody (Some "Ana") (Some "a@b.com") (JS.Str "6")
                      (Some "Very good care")) demo_db
    = (Error 400 msg, demo_db, []).
Proof.
  apply (proj2 (proj1 (submissions_accepted_exactly_when_valid
                         (mkEnv (Some "smtp@x.y") (Some "to@x.y")) true 9
                         demo_db)
                  (mkReviewBody (Some "Ana") (Some "a@b.com") (JS.Str "6")
                                (Some "Very good care"))
                  ltac:(in_range))).
  vm_compute. discriminate.
Defined.

Lemma postal_code_five_digits (s : string) :
  Regex.postalCodeRegex_test s = true ->
  String.length s = 5%nat /\ Regex.all_chars Regex.is_digit s = true.
Proof.
  unfold Regex.postalCodeRegex_test. intros H.
  apply andb_true_iff in H as [Hl Hd]. apply Nat.eqb_eq in Hl. now split.
Qed.

(** X6: the rows of the reviews and contacts tables stay valid.  If every
    stored review has a rating from 1 to 5, a comment of 10 to 1000
    characters, a well-formed e-mail and a name, and every stored contact
    a name, a phone, a well-formed e-mail and a five-digit postal code,
    then so it is after any approval or deletion, and after any
    submission whose text fields are strings that fit their columns (or
    are absent). *)
Theorem stored_rows_stay_valid (e : env) (delivered : bool) (now : Z)
    (db : database) :
  Forall review_row_ok (reviews db) ->
  Forall contact_row_ok (contacts db) ->
  (forall b,
      review_fits b ->
      Forall review_row_ok
        (reviews (snd (fst (post_reviews e delivered now b db))))
      /\ Forall contact_row_ok
           (contacts (snd (fst (post_reviews e delivered now b db)))))
  /\ (forall b,
      contact_fits b ->
      Forall review_row_ok
        (reviews (snd (fst (post_contact e delivered now b db))))
      /\ Forall contact_row_ok
           (contacts (snd (fst (post_contact e delivered now b db)))))
  /\ (forall id,
      Forall review_row_ok (reviews (snd (put_reviews_approve id now db)))
      /\ Forall review_row_ok (reviews (snd (delete_reviews id db)))
      /\ Forall contact_row_ok (contacts (snd (delete_contact id db)))).
Proof.
  intros Hr Hc. split; [|split].
  - intros b _.
    destruct (post_reviews_outcome e delivered now b db)
      as [(msg & E)|(name & email & comment & n & Hv & Ht & Hp & Hn)].
    + rewrite E. now split.
    + rewrite (post_reviews_valid e delivered now b db _ _ _ n Hv Ht Hp Hn).
      simpl. split; [|exact Hc].
      apply Forall_app. split; [exact Hr|].
      destruct Hv as (_ & _ & _ & Hne & Hre & Hlen).
      constructor; [|constructor]. unfold review_row_ok. simpl.
      apply emailRegex_test_shape in Hre. repeat split; auto; lia.
  - intros b _.
    destruct (post_contact_outcome e delivered now b db)
      as [(msg & E)|(name & phone & email & postalCode & Hv)].
    + rewrite E. now split.
    + rewrite (post_contact_valid e delivered now b db _ _ _ _ Hv).
      simpl. split; [exact Hr|].
      apply Forall_app. split; [exact Hc|].
      destruct Hv as (_ & _ & _ & _ & Hne & Hpe & Hre & Hrp).
      apply postal_code_five_digits in Hrp as [Hl Hd].
      apply emailRegex_test_shape in Hre.
      constructor; [|constructor]. unfold contact_row_ok. simpl.
      repeat split; auto.
  - intros id. repeat split.
    + unfold put_reviews_approve.
      destruct (JS.isNaN (JS.parseInt id)); [exact Hr|].
      assert (Hu : Forall review_row_ok
                     (Sql.update (has_review_id (JS.parseInt id))
                                 (set_approved now) (reviews db))).
      { rewrite Forall_forall in *. intros r Hin.
        apply update_In in Hin as (r0 & Hin0 & ->).
        specialize (Hr r0 Hin0).
        now destruct (has_review_id (JS.parseInt id) r0). }
      now destruct (Sql.affectedRows _ _ =? 0).
    + unfold delete_reviews.
      destruct (JS.isNaN (JS.parseInt id)); [exact Hr|].
      assert (Hd : Forall review_row_ok
                     (Sql.delete (has_review_id (JS.parseInt id))
                                 (reviews db))).
      { rewrite Forall_forall in *. intros r Hin.
        apply delete_In in Hin as [Hin _]. now apply Hr. }
      now destruct (Sql.affectedRows _ _ =? 0).
    + unfold delete_contact.
      destruct (JS.isNaN (JS.parseInt id)); [exact Hc|].
      assert (Hd : Forall contact_row_ok
                     (Sql.delete (has_contact_id (JS.parseInt id))
                                 (contacts db))).
      { rewrite Forall_forall in *. intros c Hin.
        apply delete_In in Hin as [Hin _]. now apply Hc. }
      now destruct (Sql.affectedRows _ _ =? 0).
Qed.

Lemma stored_rows_stay_valid_witness :
  Forall review_row_ok (reviews (snd (delete_reviews "1" demo_db)))
  /\ Forall review_row_ok
       (reviews (snd (put_reviews_approve "2" 100 demo_db))).
Proof.
  assert (He : email_shape "a@b.com")
    by (apply emailRegex_test_shape; reflexivity).
  assert (Hr : Forall review_row_ok (reviews demo_db)).
  { repeat constructor; simpl; try lia; try discriminate; exact He. }
  assert (Hc : Forall contact_row_ok (contacts demo_db)).
  { repeat constructor; simpl; try discriminate; exact He. }
  destruct (proj2 (proj2 (stored_rows_stay_valid (mkEnv None None) true 100
                            demo_db Hr Hc)) "1") as (_ & Hd & _).
  destruct (proj2 (proj2 (stored_rows_stay_valid (mkEnv None None) true 100
                            demo_db Hr Hc)) "2") as (Ha & _).
  split; assumption.
Defined.

(* ================================================================= *)
(** ** Moderation and the public feed *)




(* ================================================================= *)
(** ** The Authorization header and the login *)

Lemma append_snoc (cur : string) (c : ascii) (a : string) :
  String.append (String.append cur (String c "")) a
  = String.append cur (String c a).
Proof. induction cur as [|d cur IH]; simpl; [reflexivity | now rewrite IH]. Qed.

Lemma append_empty_r (s : string) : String.append s "" = s.
Proof. induction s as [|c s IH]; simpl; [reflexivity | now rewrite IH]. Qed.

Lemma split_on_word (a rest cur : string) :
  no_space a = true ->
  JS.split_on " " (String.append a (String " " rest)) cur
  = String.append cur a :: JS.split_on " " rest "".
Proof.
  revert cur. induction a as [|c a IH]; intros cur Ha; simpl.
  - now rewrite append_empty_r.
  - simpl in Ha. apply andb_true_iff in Ha as [Hc Ha].
    apply negb_true_iff in Hc. rewrite Hc, IH by exact Ha.
    now rewrite append_snoc.
Qed.

Lemma split_on_last (a cur : string) :
  no_space a = true -> JS.split_on " " a cur = [String.append cur a].
Proof.
  revert cur. induction a as [|c a IH]; intros cur Ha; simpl.
  - now rewrite append_empty_r.
  - simpl in Ha. apply andb_true_iff in Ha as [Hc Ha].
    apply negb_true_iff in Hc. rewrite Hc, IH by exact Ha.
    now rewrite append_snoc.
Qed.

Lemma truthy_append_space (a rest : string) :
  JS.truthy (String.append a (String " " rest)) = true.
Proof. apply truthy_true. destruct a; discriminate. Qed.

Lemma bearer_token_second_word (scheme t : string) :
  no_space scheme = true -> no_space t = true ->
  bearer_token (Some (String.append scheme (String " " t))) = Some t.
Proof.
  intros Hs Ht. unfold bearer_token, JS.split_space.
  rewrite truthy_append_space, split_on_word by exact Hs.
  now rewrite split_on_last by exact Ht.
Qed.

(** X8: the middleware takes the second word of the Authorization header
    as the token.  The first word is never looked at, so any scheme word
    in front of a token that verifies is let through, and whatever
    follows a further space is ignored. *)
Theorem authorization_second_word_is_the_token `{Crypto} (now : Z)
    (scheme t rest : string) (user : identity) :
  no_space scheme = true -> no_space t = true -> t <> "" ->
  jwt_verify now t = Some user ->
  bearer_token (Some (String.append scheme (String " " t))) = Some t
  /\ bearer_token
       (Some (String.append scheme
                (String " " (String.append t (String " " rest)))))
     = Some t
  /\ authorized now (Some (String.append scheme (String " " t))) user
  /\ (forall (P : Type)
             (next : identity -> database -> response P * database) db,
         authenticateToken now
           (Some (String.append scheme (String " " t))) next db
         = next user db).
Proof.
  intros Hs Ht Hne Hv.
  assert (Hb := bearer_token_second_word scheme t Hs Ht).
  assert (Ha : authorized now (Some (String.append scheme (String " " t)))
                 user).
  { exists t. repeat split; auto. now apply truthy_true. }
  repeat split; auto.
  - unfold bearer_token, JS.split_space.
    rewrite truthy_append_space, split_on_word by exact Hs.
    now rewrite split_on_word by exact Ht.
  - intros P next db. now apply authenticateToken_authorized.
Qed.

Lemma authorization_second_word_is_the_token_witness :
  get_admin_contacts (H := demo_crypto) 0 (Some "Basic good")
      (mkQuery None None None) demo_db
  = (get_admin_contacts_handler (mkQuery None None None) demo_db, demo_db).
Proof.
  unfold get_admin_contacts.
  apply (proj2 (proj2 (proj2
           (authorization_second_word_is_the_token (H := demo_crypto) 0
              "Basic" "good" ""
              (mkIdentity 1 "admin" "a@b.c" "Admin")
              eq_refl eq_refl ltac:(discriminate) eq_refl)))).
Defined.

Lemma login_rows_unique (username : string) (a : Admin.t)
    (rows : list Admin.t) :
  NoDup (map Admin.username rows) -> In a rows ->
  Admin.username a = username -> Admin.active a = true ->
  filter (fun x => String.eqb (Admin.username x) username && Admin.active x)
         rows = [a].
Proof.
  induction rows as [|r rows IH]; simpl; [contradiction|].
  intros Hn Hin Hu Hact. apply NoDup_cons_iff in Hn as [Hr Hn].
  destruct Hin as [->|Hin].
  - rewrite Hu, String.eqb_refl, Hact. simpl. f_equal.
    apply filter_nil_iff. intros x Hx.
    destruct (String.eqb (Admin.username x) username) eqn:E; [|reflexivity].
    apply String.eqb_eq in E. exfalso. apply Hr.
    rewrite Hu, <- E. now apply in_map.
  - destruct (String.eqb (Admin.username r) username) eqn:E.
    + apply String.eqb_eq in E. exfalso. apply Hr.
      rewrite E, <- Hu. now apply in_map.
    + simpl. now apply IH.
Qed.

(** X9: an active admin who logs in with a password that matches the
    stored hash gets 200, the own identity and a token; while the token
    verifies, a request that carries it as [Bearer <token>] passes the
    middleware with that identity, so a post created with it has the
    admin as author. *)
Theorem login_token_opens_protected_routes `{Crypto} (now later : Z)
    (password : string) (a : Admin.t) (db : database) :
  NoDup (map Admin.username (admins db)) ->
  In a (admins db) -> Admin.active a = true ->
  Admin.username a <> "" -> password <> "" ->
  bcrypt_compare password (Admin.password a) = true ->
  token_usable now later (identity_of a) ->
  let bearer :=
    Some (String.append "Bearer" (String " " (jwt_sign now (identity_of a))))
  in
  post_admin_auth now (Some (Admin.username a)) (Some password) db
  = (Reply 200 (mkLogin (jwt_sign now (identity_of a)) (identity_of a)), db)
  /\ authorized later bearer (identity_of a)
  /\ (forall b,
        post_blog later bearer b db
        = post_blog_handler (identity_of a) later b db)
  /\ (forall b i db',
        post_blog later bearer b db = (Reply 201 i, db') ->
        exists p, blog_posts db' = (blog_posts db ++ [p])%list
                  /\ BlogPost.id p = i
                  /\ BlogPost.authorId p = Admin.id a).
Proof.
  intros Hnd Hin Hact Hu Hp Hcmp (Hv & Hne & Hsp) bearer.
  assert (Hauth : authorized later bearer (identity_of a)).
  { exists (jwt_sign now (identity_of a)). repeat split; auto.
    - now apply bearer_token_second_word.
    - now apply truthy_true. }
  assert (Hpost : forall b,
             post_blog later bearer b db
             = post_blog_handler (identity_of a) later b db).
  { intros b. unfold post_blog.
    now rewrite (authenticateToken_authorized later bearer (identity_of a)). }
  repeat split; auto.
  - unfold post_admin_auth. apply truthy_true in Hu, Hp.
    rewrite Hu, Hp. simpl.
    rewrite (login_rows_unique _ a) by auto.
    now rewrite Hcmp.
  - intros b i db' E. rewrite Hpost in E. unfold post_blog_handler in E.
    repeat match type of E with
           | (if ?c then _ else _) = _ => destruct c; try discriminate
           | match ?x with _ => _ end = _ => destruct x; try discriminate
           end.
    injection E as <- <-. eexists. simpl. repeat split.
Qed.

Lemma login_token_opens_protected_routes_witness :
  post_admin_auth (H := demo_crypto_day) 0 (Some "admin") (Some "admin123")
                  demo_db
  = (Reply 200
       (mkLogin "admin"
          (mkIdentity 1 "admin" "admin@asistecare.com" "Administrador")),
     demo_db)
  /\ authorized (H := demo_crypto_day) 3600 (Some "Bearer admin")
       (mkIdentity 1 "admin" "admin@asistecare.com" "Administrador").
Proof.
  destruct (login_token_opens_protected_routes (H := demo_crypto_day)
              0 3600 "admin123" demo_admin demo_db)
    as (E & Ha & _).
  - simpl. repeat constructor. simpl. tauto.
  - simpl; auto.
  - reflexivity.
  - discriminate.
  - discriminate.
  - reflexivity.
  - repeat split. discriminate.
  - split; [exact E | exact Ha].
Defined.

(** X10: a login with a username and a password is answered either with
    200 or with 401 and the one message [Invalid credentials], and never
    changes the database; an unknown username, an inactive admin and a
    wrong password are answered alike.  An admin that is not active is
    refused even with the right password. *)
Theorem failed_logins_look_alike `{Crypto} (now : Z)
    (username password : string) (db : database) :
  username <> "" -> password <> "" ->
  (post_admin_auth now (Some username) (Some password) db
   = (Error 401 "Invalid credentials", db)
   \/ exists reply,
        post_admin_auth now (Some username) (Some password) db
        = (Reply 200 reply, db)
        /\ exists a, In a (admins db) /\ Admin.username a = username
                     /\ Admin.active a = true
                     /\ bcrypt_compare password (Admin.password a) = true
                     /\ admin reply = identity_of a)
  /\ ((forall a, In a (admins db) -> Admin.username a = username ->
                 Admin.active a = false) ->
      post_admin_auth now (Some username) (Some password) db
      = (Error 401 "Invalid credentials", db)).
Proof.
  intros Hu Hp. apply truthy_true in Hu, Hp.
  unfold post_admin_auth. rewrite Hu, Hp. simpl.
  destruct (filter _ (admins db)) as [|a rest] eqn:Hrows.
  - split; [now left | reflexivity].
  - assert (Hhead : In a (a :: rest)) by now left.
    rewrite <- Hrows in Hhead. apply filter_In in Hhead as [Hin Hc].
    apply andb_true_iff in Hc as [Hname Hact].
    apply String.eqb_eq in Hname. split.
    + destruct (bcrypt_compare password (Admin.password a)) eqn:E; simpl;
        [right | now left].
      eexists. split; [reflexivity|]. exists a. simpl. auto.
    + intros Hinactive. rewrite (Hinactive a Hin Hname) in Hact.
      discriminate.
Qed.

Lemma failed_logins_look_alike_witness :
  post_admin_auth (H := demo_crypto) 0 (Some "nobody") (Some "admin123")
                  demo_db
  = (Error 401 "Invalid credentials", demo_db).
Proof.
  apply (proj2 (failed_logins_look_alike (H := demo_crypto) 0 "nobody"
                  "admin123" demo_db ltac:(discriminate)
                  ltac:(discriminate))).
  intros a [<-|[]] Hname. discriminate.
Defined.

(* ================================================================= *)
(** ** Listing the blog *)

Lemma parseInt10_all_digits (s : string) :
  s <> "" -> Regex.all_chars Regex.is_digit s = true ->
  JS.parseInt10 s = JS.parse_digits 10 s None.
Proof.
  intros Hne Hd. destruct s as [|c s]; [contradiction|].
  simpl in Hd. apply andb_true_iff in Hd as [Hc _].
  assert (E : JS.parseInt10 (String c s)
              = match JS.parse_digits 10 (String c s) None with
                | Some m => Some (1 * m) | None => None end).
  { destruct c as [[] [] [] [] [] [] [] []]; try discriminate Hc;
      reflexivity. }
  rewrite E. destruct (JS.parse_digits 10 (String c s) None);
    [f_equal; lia | reflexivity].
Qed.

Lemma parseInt10_toString (n : Z) :
  0 <= n -> JS.parseInt10 (JS.toString n) = Some n.
Proof.
  intros Hn. unfold JS.toString.
  replace (n <? 0) with false by (symmetry; apply Z.ltb_ge; lia).
  rewrite parseInt10_all_digits
    by (try apply digits_fuel_nonempty; now apply digits_fuel_all_digits).
  rewrite parse_digits_fuel; [reflexivity | | exact I].
  split; [exact Hn|].
  rewrite Nat2Z.inj_succ, Z2Nat.id by apply Z.log2_nonneg.
  destruct (Z.eq_dec n 0) as [->|]; [reflexivity|].
  apply Z.log2_spec. lia.
Qed.

Lemma toString_truthy (n : Z) : JS.truthy (JS.toString n) = true.
Proof.
  apply truthy_true. unfold JS.toString.
  destruct (n <? 0); [discriminate | apply digits_fuel_nonempty].
Qed.

Lemma blog_limit_value (q : blog_query) :
  blog_limit q = Some (blog_param (bq_limit q) 10).
Proof.
  unfold blog_limit, blog_param.
  change (JS.toString 10) with "10".
  now destruct (JS.parseInt10 (or_text (bq_limit q) "10")).
Qed.

Lemma blog_offset_value (q : blog_query) :
  blog_offset q = Some (blog_param (bq_offset q) 0).
Proof.
  unfold blog_offset, blog_param.
  change (JS.toString 0) with "0".
  now destruct (JS.parseInt10 (or_text (bq_offset q) "0")).
Qed.

(** The listing with the parameters resolved. *)
Lemma get_blog_unfold (q : blog_query) (db : database) :
  let l := blog_param (bq_limit q) 10 in
  let o := blog_param (bq_offset q) 0 in
  get_blog q db
  = if (o <? 0) || (l <? 0) then Error 500 "Internal server error"
    else
      Reply 200
        (map (fun row => (fst row, Admin.name (snd row)))
           (firstn (Z.to_nat l)
              (skipn (Z.to_nat o)
                 (Sql.order_by_desc (fun row => BlogPost.createdAt (fst row))
                    (filter (fun row =>
                               blog_list_clause (bq_category q)
                                 (bq_featured q) (fst row))
                            (join_author (admins db) (blog_posts db)))))),
         mkBlogPagination
           (Sql.count (filter (blog_list_clause (bq_category q)
                                 (bq_featured q)) (blog_posts db)))
           (Some l) (Some o)
           (o + l
            <? Sql.count (filter (blog_list_clause (bq_category q)
                                    (bq_featured q)) (blog_posts db)))).
Proof.
  intros l o. unfold get_blog.
  rewrite blog_limit_value, blog_offset_value. fold l o.
  unfold JS.parseInt_num. rewrite !parseInt_toString.
  unfold Sql.limit_offset.
  now destruct ((o <? 0) || (l <? 0)).
Qed.

(** X11: GET /api/blog always works with numbers: a limit or offset that
    is absent, empty or does not parse is 10 or 0.  For a limit and an
    offset that are safe integers, as is their sum: a negative one makes
    the query fail and the answer 500.  Otherwise the answer is 200 with
    at most [limit] posts, all published and under the category and
    featured filters, newest first, with [total] the number of such posts
    and [hasMore] telling exactly whether [offset + limit < total]; under
    the foreign key the page holds [min limit (total - offset)] posts, so
    a page without [hasMore] holds all that is left. *)
Theorem blog_listing (q : blog_query) (db : database) (l o : Z) :
  l = blog_param (bq_limit q) 10 -> o = blog_param (bq_offset q) 0 ->
  JS.safe l -> JS.safe o -> JS.safe (o + l) ->
  let matching :=
    filter (blog_list_clause (bq_category q) (bq_featured q))
           (blog_posts db) in
  blog_limit q = Some l /\ blog_offset q = Some o
  /\ (JS.truthy_opt (bq_limit q) = false -> l = 10)
  /\ (JS.truthy_opt (bq_offset q) = false -> o = 0)
  /\ (l < 0 \/ o < 0 -> get_blog q db = Error 500 "Internal server error")
  /\ (0 <= l -> 0 <= o ->
      exists rows pg,
        get_blog q db = Reply 200 (rows, pg)
        /\ bp_limit pg = Some l /\ bp_offset pg = Some o
        /\ bp_total pg = Z.of_nat (List.length matching)
        /\ (bp_hasMore pg = true <-> o + l < bp_total pg)
        /\ (Z.of_nat (List.length rows) <= l)
        /\ Forall (fun row => In (fst row) matching) rows
        /\ newest_first (fun row => BlogPost.createdAt (fst row)) rows
        /\ (authors_ok db ->
            Z.of_nat (List.length rows)
            = Z.min l (Z.max 0 (bp_total pg - o)))).
Proof.
  intros Hl Ho _ _ _ matching.
  pose proof (get_blog_unfold q db) as U. simpl in U.
  rewrite <- Hl, <- Ho in U.
  split; [rewrite Hl; apply blog_limit_value|].
  split; [rewrite Ho; apply blog_offset_value|].
  split; [|split; [|split; [|]]].
  - intros Hf. rewrite Hl. unfold blog_param.
    destruct (bq_limit q) as [s|]; simpl in *; [rewrite Hf|]; reflexivity.
  - intros Hf. rewrite Ho. unfold blog_param.
    destruct (bq_offset q) as [s|]; simpl in *; [rewrite Hf|]; reflexivity.
  - intros Hneg. rewrite U.
    replace ((o <? 0) || (l <? 0)) with true; [reflexivity|].
    symmetry. apply orb_true_iff.
    destruct Hneg; [right | left]; now apply Z.ltb_lt.
  - intros Hl0 Ho0. rewrite U.
    replace ((o <? 0) || (l <? 0)) with false
      by (symmetry; apply orb_false_iff; split; apply Z.ltb_ge; lia).
    eexists. eexists. split; [reflexivity|].
    cbn [bp_limit bp_offset bp_total bp_hasMore].
    set (cands := filter (fun row => blog_list_clause (bq_category q)
                                       (bq_featured q) (fst row))
                         (join_author (admins db) (blog_posts db))).
    set (key := fun row : BlogPost.t * Admin.t =>
                  BlogPost.createdAt (fst row)).
    split; [reflexivity|]. split; [reflexivity|]. split; [reflexivity|].
    split; [apply Z.ltb_lt|].
    split; [|split; [|split]].
    + rewrite length_map. pose proof (firstn_le_length (Z.to_nat l)
        (skipn (Z.to_nat o) (Sql.order_by_desc key cands))). lia.
    + apply Forall_forall. intros row Hrow.
      apply in_map_iff in Hrow as ([p a] & <- & Hrow).
      apply firstn_incl, skipn_incl, order_by_desc_In in Hrow.
      apply filter_In in Hrow as [Hj Hc].
      apply in_join_author in Hj as (Hp & _). simpl.
      apply filter_In. auto.
    + apply newest_first_map with (k1 := key); [now intros [p a]|].
      apply newest_first_firstn, newest_first_skipn, order_by_desc_sorted.
    + intros (Hadm & Hfk).
      rewrite length_map, length_firstn, length_skipn, order_by_desc_length.
      unfold cands. rewrite join_author_filter_length by assumption.
      unfold Sql.count. fold matching. lia.
Qed.

Lemma blog_listing_witness :
  exists rows pg,
    get_blog (mkBlogQuery (Some "care") None (Some "50") None) demo_db
    = Reply 200 (rows, pg)
    /\ bp_limit pg = Some 50 /\ bp_offset pg = Some 0
    /\ map (fun row => BlogPost.id (fst row)) rows = [2; 1].
Proof.
  destruct (blog_listing (mkBlogQuery (Some "care") None (Some "50") None)
              demo_db 50 0 eq_refl eq_refl
              ltac:(in_range) ltac:(in_range) ltac:(in_range))
    as (_ & _ & _ & _ & _ & Hok).
  destruct Hok as (rows & pg & E & Hl & Ho & _); [lia | lia |].
  exists rows, pg. repeat split; auto.
  vm_compute in E. injection E as <- _. reflexivity.
Defined.

Lemma firstn_plus {A : Type} (a b : nat) (l : list A) :
  firstn (a + b) l = (firstn a l ++ firstn b (skipn a l))%list.
Proof.
  revert l. induction a as [|a IH]; intros l; simpl; [reflexivity|].
  destruct l as [|x l]; simpl.
  - now rewrite firstn_nil.
  - now rewrite IH.
Qed.

Lemma join_author_filter_fst (admins : list Admin.t)
    (posts : list BlogPost.t) (g : BlogPost.t -> bool) :
  NoDup (map Admin.id admins) ->
  Forall (fun p => In (BlogPost.authorId p) (map Admin.id admins)) posts ->
  map fst (filter (fun row => g (fst row)) (join_author admins posts))
  = filter g posts.
Proof.
  intros Hn. induction posts as [|bp posts IH]; simpl; intros Hfk;
    [reflexivity|].
  apply Forall_cons_iff in Hfk as [Hbp Hfk].
  destruct (unique_author admins _ Hn Hbp) as (a & Ha).
  rewrite Ha. simpl. destruct (g bp); simpl; now rewrite IH.
Qed.

Lemma blog_page_unfold (category featured : option string) (l o : Z)
    (db : database) :
  0 <= l -> 0 <= o ->
  blog_page category featured l o db
  = map (fun row => (fst row, Admin.name (snd row)))
      (firstn (Z.to_nat l)
         (skipn (Z.to_nat o)
            (Sql.order_by_desc (fun row => BlogPost.createdAt (fst row))
               (filter (fun row =>
                          blog_list_clause category featured (fst row))
                       (join_author (admins db) (blog_posts db)))))).
Proof.
  intros Hl Ho. unfold blog_page. rewrite get_blog_unfold.
  unfold blog_param. simpl bq_limit. simpl bq_offset.
  simpl or_text. rewrite !toString_truthy, !parseInt10_toString by lia.
  replace ((o <? 0) || (l <? 0)) with false
    by (symmetry; apply orb_false_iff; split; apply Z.ltb_ge; lia).
  reflexivity.
Qed.

(** X12: the pages of GET /api/blog fit together, when the listed posts
    have distinct creation times and the limits and the offset add up to
    a safe integer: the page of [l] posts at offset [o] followed by the
    page of [l'] posts at offset [o + l] is the page of [l + l'] posts at
    offset [o]; and under the foreign key a first page with a limit of at
    least the total lists every published post under the filters exactly
    once. *)
Theorem blog_pages_fit_together (category featured : option string)
    (l l' o : Z) (db : database) :
  0 <= l -> 0 <= l' -> 0 <= o ->
  JS.safe (o + l + l') ->
  NoDup (map BlogPost.createdAt
           (filter (blog_list_clause category featured) (blog_posts db))) ->
  (blog_page category featured l o db
     ++ blog_page category featured l' (o + l) db)%list
  = blog_page category featured (l + l') o db
  /\ (authors_ok db ->
      Z.of_nat (List.length (filter (blog_list_clause category featured)
                                    (blog_posts db))) <= l ->
      Permutation (map fst (blog_page category featured l 0 db))
                  (filter (blog_list_clause category featured)
                          (blog_posts db))).
Proof.
  intros Hl Hl' Ho _ _. rewrite !blog_page_unfold by lia. split.
  - rewrite <- map_app. f_equal.
    rewrite !Z2Nat.inj_add by lia.
    rewrite firstn_plus. f_equal. f_equal.
    rewrite Nat.add_comm. now rewrite <- skipn_skipn.
  - intros (Hadm & Hfk) Hall. simpl skipn.
    rewrite map_map. simpl.
    set (cands := filter _ (join_author (admins db) (blog_posts db))).
    rewrite firstn_all2.
    + rewrite <- (join_author_filter_fst (admins db) (blog_posts db)
                    (blog_list_clause category featured) Hadm Hfk).
      apply Permutation_map, order_by_desc_perm.
    + rewrite order_by_desc_length. unfold cands.
      rewrite join_author_filter_length by assumption. lia.
Qed.

Lemma blog_pages_fit_together_witness :
  (blog_page None None 1 0 demo_db ++ blog_page None None 1 1 demo_db)%list
  = blog_page None None 2 0 demo_db.
Proof.
  apply (proj1 (blog_pages_fit_together None None 1 1 0 demo_db
                  ltac:(lia) ltac:(lia) ltac:(lia) ltac:(in_range)
                  ltac:(cbn; repeat constructor; cbn;
                        intuition discriminate))).
Defined.

(* ================================================================= *)
(** ** Categories *)

Lemma bump_keys (c : string) (groups : list (string * Z)) :
  map fst (bump c groups)
  = if existsb (String.eqb c) (map fst groups) then map fst groups
    else (map fst groups ++ [c])%list.
Proof.
  induction groups as [|[c' k] rest IH]; simpl; [reflexivity|].
  rewrite (String.eqb_sym c c').
  destruct (String.eqb c' c); simpl; [reflexivity|].
  rewrite IH. now destruct (existsb (String.eqb c) (map fst rest)).
Qed.

Lemma existsb_eqb_In (c : string) (l : list string) :
  existsb (String.eqb c) l = true <-> In c l.
Proof.
  rewrite existsb_exists. split.
  - intros (x & Hx & E). apply String.eqb_eq in E. now subst.
  - intros H. exists c. split; [exact H | apply String.eqb_refl].
Qed.

Lemma bump_NoDup (c : string) (groups : list (string * Z)) :
  NoDup (map fst groups) -> NoDup (map fst (bump c groups)).
Proof.
  intros Hn. rewrite bump_keys.
  destruct (existsb (String.eqb c) (map fst groups)) eqn:E; [exact Hn|].
  apply NoDup_snoc; [exact Hn|].
  intros Hin. apply existsb_eqb_In in Hin. congruence.
Qed.

Lemma bump_In_key (c x : string) (groups : list (string * Z)) :
  In x (map fst (bump c groups)) <-> x = c \/ In x (map fst groups).
Proof.
  rewrite bump_keys.
  destruct (existsb (String.eqb c) (map fst groups)) eqn:E.
  - apply existsb_eqb_In in E. split; [auto|].
    intros [->|H]; auto.
  - rewrite in_app_iff. simpl. split; [intros [H|[H|[]]] | intros [H|H]];
      auto.
Qed.

Lemma bump_total (c x : string) (groups : list (string * Z)) :
  group_total x (bump c groups)
  = group_total x groups + (if String.eqb c x then 1 else 0).
Proof.
  induction groups as [|[c' k] rest IH]; simpl.
  - destruct (String.eqb c x); lia.
  - destruct (String.eqb c' c) eqn:E; simpl.
    + apply String.eqb_eq in E. subst c'.
      destruct (String.eqb c x); lia.
    + rewrite IH. destruct (String.eqb c' x); lia.
Qed.

Lemma bump_sum (c : string) (groups : list (string * Z)) :
  sum_counts (bump c groups) = sum_counts groups + 1.
Proof.
  induction groups as [|[c' k] rest IH]; simpl; [reflexivity|].
  destruct (String.eqb c' c); simpl; [lia|].
  unfold sum_counts in *. simpl. rewrite IH. lia.
Qed.

Lemma bump_positive (c : string) (groups : list (string * Z)) :
  Forall (fun g => 1 <= snd g) groups ->
  Forall (fun g => 1 <= snd g) (bump c groups).
Proof.
  induction groups as [|[c' k] rest IH]; simpl; intros Hf.
  - repeat constructor. simpl. lia.
  - apply Forall_cons_iff in Hf as [Hk Hf]. simpl in Hk.
    destruct (String.eqb c' c); constructor; simpl; auto; lia.
Qed.

Lemma group_total_In (c : string) (k : Z) (groups : list (string * Z)) :
  NoDup (map fst groups) -> In (c, k) groups -> group_total c groups = k.
Proof.
  induction groups as [|[c' k'] rest IH]; simpl; [contradiction|].
  intros Hn Hin. apply NoDup_cons_iff in Hn as [Hc Hn].
  assert (Hzero : forall l, ~ In c (map fst l) -> group_total c l = 0).
  { induction l as [|[d j] l IHl]; simpl; [reflexivity|].
    intros Hno. destruct (String.eqb d c) eqn:E.
    - apply String.eqb_eq in E. subst d. exfalso. apply Hno. now left.
    - apply IHl. intros H. apply Hno. now right. }
  destruct Hin as [E|Hin].
  - injection E as -> ->. rewrite String.eqb_refl.
    rewrite Hzero by exact Hc. lia.
  - destruct (String.eqb c' c) eqn:E.
    + apply String.eqb_eq in E. subst c'. exfalso. apply Hc.
      change c with (fst (c, k)). now apply in_map.
    + now apply IH.
Qed.

Lemma group_count_fold (cats : list string) (g0 : list (string * Z)) :
  NoDup (map fst g0) -> Forall (fun g => 1 <= snd g) g0 ->
  let g := fold_left (fun groups c => bump c groups) cats g0 in
  NoDup (map fst g)
  /\ Forall (fun g => 1 <= snd g) g
  /\ sum_counts g = sum_counts g0 + Z.of_nat (List.length cats)
  /\ (forall x, group_total x g = group_total x g0 + occurrences x cats)
  /\ (forall x, In x (map fst g) <-> In x (map fst g0) \/ In x cats).
Proof.
  revert g0. induction cats as [|c cats IH]; intros g0 Hn Hp; simpl.
  - repeat split; auto; try lia; try tauto.
    intros x. unfold occurrences. simpl. lia.
  - destruct (IH (bump c g0) (bump_NoDup c g0 Hn) (bump_positive c g0 Hp))
      as (H1 & H2 & H3 & H4 & H5).
    repeat split; auto.
    + rewrite H3, bump_sum. lia.
    + intros x. rewrite H4, bump_total. unfold occurrences. simpl.
      rewrite (String.eqb_sym x c).
      destruct (String.eqb c x); simpl; lia.
    + intros H. apply H5 in H as [H|H]; [|auto].
      apply bump_In_key in H as [->|H]; auto.
    + intros [H|[->|H]]; apply H5; auto; left; apply bump_In_key; auto.
Qed.

Lemma occurrences_published (c : string) (posts : list BlogPost.t) :
  occurrences c (map BlogPost.category (filter BlogPost.published posts))
  = Z.of_nat (List.length
                (filter (fun p => BlogPost.published p
                                  && String.eqb c (BlogPost.category p))
                        posts)).
Proof.
  unfold occurrences. f_equal.
  induction posts as [|p posts IH]; simpl; [reflexivity|].
  destruct (BlogPost.published p); simpl; [|exact IH].
  destruct (String.eqb c (BlogPost.category p)); simpl; now rewrite IH.
Qed.

Lemma sum_counts_perm (a b : list (string * Z)) :
  Permutation a b -> sum_counts a = sum_counts b.
Proof.
  unfold sum_counts.
  induction 1; simpl; try lia.
Qed.

(** X13: GET /api/blog/categories/list names every category that has a
    published post once, with the number of its published posts (at least
    1), the largest count first; the counts add up to the number of
    published posts, and a category with drafts only is not listed. *)
Theorem categories_listing (db : database) :
  exists cats,
    get_blog_categories db = Reply 200 cats
    /\ NoDup (map fst cats)
    /\ StronglySorted (fun a b => snd b <= snd a) cats
    /\ (forall c k,
          In (c, k) cats ->
          1 <= k
          /\ k = Z.of_nat
                   (List.length
                      (filter (fun p => BlogPost.published p
                                        && String.eqb c (BlogPost.category p))
                              (blog_posts db))))
    /\ (forall c,
          In c (map fst cats)
          <-> exists p, In p (blog_posts db)
                        /\ BlogPost.published p = true
                        /\ BlogPost.category p = c)
    /\ sum_counts cats
       = Z.of_nat (List.length (filter BlogPost.published (blog_posts db))).
Proof.
  eexists. split; [reflexivity|].
  set (published := map BlogPost.category
                        (filter BlogPost.published (blog_posts db))).
  destruct (group_count_fold published [] (NoDup_nil _) (Forall_nil _))
    as (Hn & Hp & Hs & Ht & Hk).
  fold (group_count published) in Hn, Hp, Hs, Ht, Hk.
  pose proof (order_by_desc_perm snd (group_count published)) as Hperm.
  split; [|split; [|split; [|split]]].
  - eapply Permutation_NoDup; [|exact Hn].
    apply Permutation_map, Permutation_sym, Hperm.
  - apply (order_by_desc_sorted snd).
  - intros c k Hin. apply (Permutation_in _ Hperm) in Hin.
    rewrite Forall_forall in Hp. split; [apply (Hp (c, k) Hin)|].
    rewrite <- (group_total_In c k _ Hn Hin), Ht. simpl.
    apply occurrences_published.
  - intros c. split.
    + intros Hin.
      apply (Permutation_in _ (Permutation_map fst Hperm)) in Hin.
      apply Hk in Hin as [[]|Hin]. unfold published in Hin.
      apply in_map_iff in Hin as (p & Hc & Hin).
      apply filter_In in Hin as [Hin Hpub]. now exists p.
    + intros (p & Hin & Hpub & Hc).
      apply (Permutation_in _ (Permutation_map fst (Permutation_sym Hperm))).
      apply Hk. right. unfold published. rewrite <- Hc.
      apply in_map. apply filter_In. auto.
  - rewrite (sum_counts_perm _ _ Hperm), Hs. unfold published.
    rewrite length_map. reflexivity.
Qed.

(* ================================================================= *)
(** ** Drafts, new posts and removed posts *)

Lemma get_blog_slug_missing (slug : string) (now : Z) (db : database) :
  (forall q, In q (blog_posts db) -> BlogPost.slug q = slug ->
             BlogPost.published q = false) ->
  get_blog_slug slug now db = (Error 404 "Blog post not found", db).
Proof.
  intros Hunpub. unfold get_blog_slug.
  destruct (filter _ (join_author (admins db) (blog_posts db)))
    as [|[post0 a] rest] eqn:Hrows; [reflexivity|].
  exfalso.
  assert (Hhead : In (post0, a) ((post0, a) :: rest)) by now left.
  rewrite <- Hrows in Hhead. apply filter_In in Hhead as [Hj Hc].
  apply in_join_author in Hj as (Hpin & _ & _).
  simpl in Hc. apply andb_true_iff in Hc as [Hc Hp].
  apply String.eqb_eq in Hc.
  rewrite (Hunpub post0 Hpin Hc) in Hp. discriminate.
Qed.

Lemma get_blog_admin_handler_found (id : string) (n : Z) (db : database)
    (p : BlogPost.t) :
  JS.parseInt id = Some n ->
  NoDup (map BlogPost.id (blog_posts db)) -> authors_ok db ->
  In p (blog_posts db) -> BlogPost.id p = n ->
  exists a,
    In a (admins db) /\ Admin.id a = BlogPost.authorId p
    /\ get_blog_admin_handler id db
       = Reply 200 (p, Admin.name a, Admin.email a).
Proof.
  intros Hid Hids (Hadm & Hfk) Hin Hp.
  unfold get_blog_admin_handler. rewrite Hid. simpl JS.isNaN. cbv iota.
  destruct (filter _ (join_author (admins db) (blog_posts db)))
    as [|[post0 a] rest] eqn:Hrows.
  - exfalso. rewrite filter_nil_iff in Hrows.
    rewrite Forall_forall in Hfk. specialize (Hfk p Hin).
    apply in_map_iff in Hfk as (a & Ha & Hain).
    assert (Hj : In (p, a) (join_author (admins db) (blog_posts db)))
      by (apply in_join_author; auto).
    specialize (Hrows (p, a) Hj). simpl in Hrows.
    apply Z.eqb_neq in Hrows. contradiction.
  - assert (Hhead : In (post0, a) ((post0, a) :: rest)) by now left.
    rewrite <- Hrows in Hhead. apply filter_In in Hhead as [Hj Hc].
    apply in_join_author in Hj as (Hpin & Hain & Hk).
    simpl in Hc. apply Z.eqb_eq in Hc.
    assert (post0 = p)
      by (apply (NoDup_map_eq BlogPost.id (blog_posts db)); auto; congruence).
    subst post0. exists a. auto.
Qed.

Lemma get_blog_admin_handler_missing (id : string) (n : Z) (db : database) :
  JS.parseInt id = Some n ->
  (forall p, In p (blog_posts db) -> BlogPost.id p <> n) ->
  get_blog_admin_handler id db = Error 404 "Blog post not found".
Proof.
  intros Hid Hno. unfold get_blog_admin_handler. rewrite Hid.
  simpl JS.isNaN. cbv iota.
  destruct (filter _ (join_author (admins db) (blog_posts db)))
    as [|[post0 a] rest] eqn:Hrows; [reflexivity|].
  exfalso.
  assert (Hhead : In (post0, a) ((post0, a) :: rest)) by now left.
  rewrite <- Hrows in Hhead. apply filter_In in Hhead as [Hj Hc].
  apply in_join_author in Hj as (Hpin & _). simpl in Hc.
  apply Z.eqb_eq in Hc. now apply (Hno post0).
Qed.

Lemma get_blog_rows_published (q : blog_query) (db : database)
    (row : BlogPost.t * string) :
  In row (rows_of (get_blog q db)) ->
  In (fst row) (blog_posts db) /\ BlogPost.published (fst row) = true.
Proof.
  rewrite get_blog_unfold.
  destruct (_ || _); simpl; [contradiction|].
  intros Hrow. apply in_map_iff in Hrow as ([p a] & <- & Hrow).
  apply firstn_incl, skipn_incl, order_by_desc_In in Hrow.
  apply filter_In in Hrow as [Hj Hc].
  apply in_join_author in Hj as (Hp & _). simpl in *.
  unfold blog_list_clause in Hc.
  apply andb_true_iff in Hc as [Hc _]. apply andb_true_iff in Hc as [Hc _].
  auto.
Qed.

(** X14: the admin read by id returns a post whether it is published or
    not, with its author; the public reads do not show a draft: fetching
    it by its slug answers 404 and counts no view, and no listing
    contains it.  An id that no post has answers 404.  The id is a safe
    integer. *)
Theorem drafts_are_for_the_admin_only (id : string) (n now : Z)
    (db : database) :
  JS.parseInt id = Some n -> JS.safe n ->
  blog_keys_ok db -> authors_ok db ->
  (forall p,
      In p (blog_posts db) -> BlogPost.id p = n ->
      (exists a,
          In a (admins db) /\ Admin.id a = BlogPost.authorId p
          /\ get_blog_admin_handler id db
             = Reply 200 (p, Admin.name a, Admin.email a))
      /\ (BlogPost.published p = false ->
          get_blog_slug (BlogPost.slug p) now db
            = (Error 404 "Blog post not found", db)
          /\ forall q row, In row (rows_of (get_blog q db)) ->
                           fst row <> p))
  /\ ((forall p, In p (blog_posts db) -> BlogPost.id p <> n) ->
      get_blog_admin_handler id db = Error 404 "Blog post not found").
Proof.
  intros Hid _ (Hids & Hslugs & _) Hauth. split.
  - intros p Hin Hp. split.
    + now apply get_blog_admin_handler_found with (n := n).
    + intros Hdraft. split.
      * apply get_blog_slug_missing. intros q Hq Hs.
        assert (q = p)
          by (apply (NoDup_map_eq BlogPost.slug (blog_posts db)); auto).
        now subst q.
      * intros q row Hrow Heq.
        apply get_blog_rows_published in Hrow as [_ Hpub].
        rewrite Heq, Hdraft in Hpub. discriminate.
  - now apply get_blog_admin_handler_missing.
Qed.

Lemma drafts_are_for_the_admin_only_witness :
  (exists a,
      get_blog_admin_handler "3" demo_db
      = Reply 200 (demo_post 3 "draft" "care" false 30,
                   Admin.name a, Admin.email a))
  /\ get_blog_slug "draft" 100 demo_db
     = (Error 404 "Blog post not found", demo_db).
Proof.
  assert (Hok : blog_keys_ok demo_db).
  { unfold blog_keys_ok. simpl.
    repeat split; repeat constructor; simpl; intuition (try discriminate). }
  assert (Hau : authors_ok demo_db).
  { unfold authors_ok. simpl.
    repeat split; repeat constructor; simpl; intuition. }
  destruct (proj1 (drafts_are_for_the_admin_only "3" 3 100 demo_db eq_refl
                     ltac:(in_range) Hok Hau)
              (demo_post 3 "draft" "care" false 30))
    as ((a & _ & _ & E) & Hdraft).
  - simpl; auto.
  - reflexivity.
  - split; [now exists a|]. now apply Hdraft.
Defined.

Lemma post_blog_handler_created (user : identity) (now : Z) (b : blog_body)
    (db : database) (title slug excerpt content category : string) :
  b_title b = Some title -> b_slug b = Some slug ->
  b_excerpt b = Some excerpt -> b_content b = Some content ->
  b_category b = Some category ->
  title <> "" -> slug <> "" -> excerpt <> "" -> content <> "" ->
  category <> "" ->
  (forall p, In p (blog_posts db) -> BlogPost.slug p <> slug) ->
  In (user_id user) (map Admin.id (admins db)) ->
  post_blog_handler user now b db
  = (Reply 201 (blog_posts_auto_increment db),
     set_blog_posts db
       (blog_posts db
          ++ [BlogPost.mk (blog_posts_auto_increment db) title slug excerpt
                content (or_null (b_image b)) (flag (b_published b))
                (flag (b_featured b)) category (or_null (b_tags b))
                (Some (or_text (b_metaTitle b) title))
                (Some (or_text (b_metaDescription b) excerpt))
                (readTime_of content) 0 (user_id user) now now])
       (blog_posts_auto_increment db + 1)).
Proof.
  intros Ht Hs He Hc Hcat Htn Hsn Hen Hcn Hcatn Hfree Huser.
  apply truthy_true in Htn, Hsn, Hen, Hcn, Hcatn.
  unfold post_blog_handler.
  rewrite Ht, Hs, He, Hc, Hcat, Htn, Hsn, Hen, Hcn, Hcatn. simpl.
  replace (filter (fun p => String.eqb (BlogPost.slug p) slug)
                  (blog_posts db)) with (@nil BlogPost.t).
  - simpl.
    replace (existsb (fun a => Admin.id a =? user_id user) (admins db))
      with true; [reflexivity|].
    symmetry. apply existsb_exists.
    apply in_map_iff in Huser as (a & Ha & Hin).
    exists a. split; [exact Hin | now apply Z.eqb_eq].
  - symmetry. apply filter_nil_iff. intros p Hin.
    apply String.eqb_neq. now apply Hfree.
Qed.

Lemma authors_ok_snoc (db : database) (p : BlogPost.t) (next : Z) :
  authors_ok db -> In (BlogPost.authorId p) (map Admin.id (admins db)) ->
  authors_ok (set_blog_posts db (blog_posts db ++ [p]) next).
Proof.
  intros (Hadm & Hfk) Hp. split; [exact Hadm|]. simpl.
  apply Forall_app. split; [exact Hfk | now repeat constructor].
Qed.

(** X15: a post created with a fresh slug by an existing admin, with
    values that fit their columns, gets the next id (a safe integer), no
    views and a read time of at least one minute.  Created as
    published it is served by its slug right away, with its first view
    counted; created as a draft it is not, but the admin read by the new
    id returns it. *)
Theorem created_post_can_be_read_back (user : identity) (now later : Z)
    (b : blog_body) (db : database)
    (title slug excerpt content category : string) :
  blog_keys_ok db -> authors_ok db ->
  blog_fits b -> JS.safe (blog_posts_auto_increment db) ->
  In (user_id user) (map Admin.id (admins db)) ->
  b_title b = Some title -> b_slug b = Some slug ->
  b_excerpt b = Some excerpt -> b_content b = Some content ->
  b_category b = Some category ->
  title <> "" -> slug <> "" -> excerpt <> "" -> content <> "" ->
  category <> "" ->
  (forall p, In p (blog_posts db) -> BlogPost.slug p <> slug) ->
  exists db1 p,
    post_blog_handler user now b db
      = (Reply 201 (blog_posts_auto_increment db), db1)
    /\ blog_posts db1 = (blog_posts db ++ [p])%list
    /\ BlogPost.id p = blog_posts_auto_increment db
    /\ BlogPost.title p = title /\ BlogPost.content p = content
    /\ BlogPost.views p = 0 /\ 1 <= BlogPost.readTime p
    /\ BlogPost.authorId p = user_id user
    /\ (b_published b = Some true ->
        exists reply db2,
          get_blog_slug slug later db1 = (Reply 200 reply, db2)
          /\ post reply = with_views 1 p)
    /\ (b_published b <> Some true ->
        get_blog_slug slug later db1
        = (Error 404 "Blog post not found", db1))
    /\ (exists a,
          get_blog_admin_handler
            (JS.toString (blog_posts_auto_increment db)) db1
          = Reply 200 (p, Admin.name a, Admin.email a)).
Proof.
  intros Hkeys Hauth _ _ Huser Ht Hs He Hc Hcat Htn Hsn Hen Hcn Hcatn Hfree.
  pose proof (post_blog_handler_created user now b db _ _ _ _ _
                Ht Hs He Hc Hcat Htn Hsn Hen Hcn Hcatn Hfree Huser) as E.
  pose proof (post_blog_handler_keys user now b db Hkeys) as Hkeys1.
  rewrite E in Hkeys1. simpl in Hkeys1.
  eexists. eexists. split; [exact E|].
  match type of E with
  | _ = (_, set_blog_posts _ (_ ++ [?row]) _) => set (p := row) in *
  end.
  assert (Hauth1 : authors_ok
                     (set_blog_posts db (blog_posts db ++ [p])
                                     (blog_posts_auto_increment db + 1)))
    by (apply authors_ok_snoc; auto).
  assert (Hin : In p (blog_posts
                        (set_blog_posts db (blog_posts db ++ [p])
                           (blog_posts_auto_increment db + 1))))
    by (simpl; apply in_or_app; right; now left).
  split; [reflexivity|]. split; [reflexivity|]. split; [reflexivity|].
  split; [reflexivity|]. split; [reflexivity|].
  split; [apply readTime_of_pos|]. split; [reflexivity|].
  split; [|split].
  - intros Hpub.
    destruct (get_blog_slug_found slug later _ p Hkeys1 Hauth1 Hin eq_refl)
      as (a & Efetch).
    { subst p. simpl. now rewrite Hpub. }
    eexists. eexists. split; [exact Efetch|]. reflexivity.
  - intros Hdraft. apply get_blog_slug_missing.
    intros q Hq Hqs. simpl in Hq. apply in_app_or in Hq as [Hq|[<-|[]]].
    + exfalso. now apply (Hfree q).
    + simpl. destruct (b_published b) as [[]|]; try reflexivity.
      now exfalso.
  - destruct (get_blog_admin_handler_found
                (JS.toString (blog_posts_auto_increment db))
                (blog_posts_auto_increment db) _ p
                (parseInt_toString _) (proj1 Hkeys1) Hauth1 Hin eq_refl)
      as (a & _ & _ & Ea).
    now exists a.
Qed.

Lemma created_post_can_be_read_back_witness :
  exists db1 reply db2,
    post_blog_handler (mkIdentity 1 "admin" "a@b.c" "Admin") 50
        (mkBlogBody (Some "T") (Some "new-slug") (Some "E")
                    (Some "<p>Hello there</p> world") Absent (Some "care")
                    Absent None None (Some true) None) demo_db
      = (Reply 201 4, db1)
    /\ get_blog_slug "new-slug" 60 db1 = (Reply 200 reply, db2)
    /\ BlogPost.id (post reply) = 4 /\ BlogPost.views (post reply) = 1.
Proof.
  assert (Hok : blog_keys_ok demo_db).
  { unfold blog_keys_ok. simpl.
    repeat split; repeat constructor; simpl; intuition (try discriminate). }
  assert (Hau : authors_ok demo_db).
  { unfold authors_ok. simpl.
    repeat split; repeat constructor; simpl; intuition. }
  destruct (created_post_can_be_read_back
              (mkIdentity 1 "admin" "a@b.c" "Admin") 50 60
              (mkBlogBody (Some "T") (Some "new-slug") (Some "E")
                          (Some "<p>Hello there</p> world") Absent
                          (Some "care") Absent None None (Some true) None)
              demo_db "T" "new-slug" "E" "<p>Hello there</p> world" "care"
              Hok Hau ltac:(in_range) ltac:(in_range))
    as (db1 & p & E & _ & Hid & _ & _ & _ & _ & _ & Hpub & _);
    try reflexivity; try discriminate.
  - simpl; auto.
  - intros q [<-|[<-|[<-|[]]]]; discriminate.
  - destruct (Hpub eq_refl) as (reply & db2 & Ef & Hp).
    exists db1, reply, db2. rewrite Hp. simpl. auto.
Defined.

Lemma NoDup_map_filter_keeps {A B : Type} (f : A -> B) (g : A -> bool)
    (l : list A) :
  NoDup (map f l) -> NoDup (map f (filter g l)).
Proof.
  induction l as [|x l IH]; simpl; intros Hn; [constructor|].
  apply NoDup_cons_iff in Hn as [Hx Hn].
  destruct (g x); simpl; [|now apply IH].
  constructor; [|now apply IH].
  intros Hin. apply Hx. apply in_map_iff in Hin as (y & Hy & Hin).
  apply filter_In in Hin as [Hin _]. rewrite <- Hy. now apply in_map.
Qed.

Lemma delete_blog_handler_keys (id : string) (db : database) :
  blog_keys_ok db -> blog_keys_ok (snd (delete_blog_handler id db)).
Proof.
  intros Hok. unfold delete_blog_handler.
  destruct (JS.isNaN (JS.parseInt id)); [exact Hok|].
  assert (Hd : blog_keys_ok
                 (set_blog_posts db
                    (Sql.delete (has_post_id (JS.parseInt id))
                                (blog_posts db))
                    (blog_posts_auto_increment db))).
  { destruct Hok as (Hids & Hslugs & Hinc). unfold blog_keys_ok. simpl.
    unfold Sql.delete. repeat split.
    - now apply NoDup_map_filter_keeps.
    - now apply NoDup_map_filter_keeps.
    - rewrite Forall_forall in *. intros p Hp.
      apply filter_In in Hp as [Hp _]. now apply Hinc. }
  now destruct (Sql.affectedRows _ _ =? 0).
Qed.

(** X16: a deleted blog post is gone from every read: after the delete,
    fetching its slug and reading its id both answer 404, no listing shows
    it, the keys of the table still hold and its slug is free for a new
    post. *)
Theorem deleted_post_is_gone (id : string) (n now : Z) (db : database)
    (p : BlogPost.t) :
  JS.parseInt id = Some n -> blog_keys_ok db ->
  In p (blog_posts db) -> BlogPost.id p = n ->
  exists db1,
    delete_blog_handler id db = (Reply 200 tt, db1)
    /\ get_blog_slug (BlogPost.slug p) now db1
       = (Error 404 "Blog post not found", db1)
    /\ get_blog_admin_handler id db1 = Error 404 "Blog post not found"
    /\ (forall q row, In row (rows_of (get_blog q db1)) -> fst row <> p)
    /\ (forall q, In q (blog_posts db1) ->
                  BlogPost.slug q <> BlogPost.slug p)
    /\ blog_keys_ok db1.
Proof.
  intros Hid Hkeys Hin Hp.
  pose proof (delete_blog_handler_keys id db Hkeys) as Hkeys1.
  destruct (delete_blog_handler_cases id n db Hid) as [_ Hdel].
  rewrite Hdel in *
    by (apply (filter_not_nil_In _ _ p Hin); simpl; now apply Z.eqb_eq).
  simpl in Hkeys1. eexists. split; [reflexivity|].
  destruct Hkeys as (Hids & Hslugs & _).
  assert (Hleft : forall q,
             In q (Sql.delete (has_post_id (Some n)) (blog_posts db)) ->
             In q (blog_posts db) /\ BlogPost.id q <> n).
  { intros q Hq. apply delete_In in Hq as [Hq Hc]. simpl in Hc.
    apply Z.eqb_neq in Hc. auto. }
  assert (Hfree : forall q,
             In q (Sql.delete (has_post_id (Some n)) (blog_posts db)) ->
             BlogPost.slug q <> BlogPost.slug p).
  { intros q Hq Hs. apply Hleft in Hq as [Hq Hne]. apply Hne.
    rewrite <- Hp. f_equal.
    now apply (NoDup_map_eq BlogPost.slug (blog_posts db)). }
  repeat split; auto.
  - apply get_blog_slug_missing. simpl. intros q Hq Hs.
    exfalso. now apply (Hfree q).
  - apply get_blog_admin_handler_missing with (n := n); [exact Hid|].
    simpl. intros q Hq. now apply Hleft in Hq.
  - intros q row Hrow Heq.
    apply get_blog_rows_published in Hrow as [Hrow _]. simpl in Hrow.
    apply Hleft in Hrow as [_ Hne]. apply Hne. now rewrite Heq.
  - apply Hkeys1.
  - apply Hkeys1.
  - apply Hkeys1.
Qed.

Lemma deleted_post_is_gone_witness :
  exists db1,
    delete_blog_handler "1" demo_db = (Reply 200 tt, db1)
    /\ get_blog_slug "first" 100 db1
       = (Error 404 "Blog post not found", db1).
Proof.
  assert (Hok : blog_keys_ok demo_db).
  { unfold blog_keys_ok. simpl.
    repeat split; repeat constructor; simpl; intuition (try discriminate). }
  destruct (deleted_post_is_gone "1" 1 100 demo_db
              (demo_post 1 "first" "care" true 10) eq_refl Hok)
    as (db1 & E & Hs & _).
  - simpl; auto.
  - reflexivity.
  - exists db1. split; [exact E | exact Hs].
Defined.

(* ================================================================= *)
(** ** Publishing and renaming *)

Lemma put_blog_handler_authors (id : string) (now : Z) (b : blog_body)
    (db : database) :
  authors_ok db -> authors_ok (snd (put_blog_handler id now b db)).
Proof.
  intros Hok. unfold put_blog_handler.
  destruct (JS.isNaN (JS.parseInt id)); [exact Hok|].
  destruct (0 <? List.length _)%nat; [exact Hok|].
  assert (Hu : authors_ok
                 (set_blog_posts db
                    (Sql.update (has_post_id (JS.parseInt id))
                                (apply_blog_update b now) (blog_posts db))
                    (blog_posts_auto_increment db))).
  { destruct Hok as (Hadm & Hfk). split; [exact Hadm|]. simpl.
    rewrite Forall_forall in *. intros p Hp.
    apply update_In in Hp as (p0 & Hp0 & ->). specialize (Hfk p0 Hp0).
    now destruct (has_post_id (JS.parseInt id) p0). }
  now destruct (Sql.affectedRows _ _ =? 0).
Qed.

(** X17: after an update, by an id that is a safe integer and with
    values that fit their columns, the post is served under the slug it
    has now exactly when it is published now: publishing a draft makes it
    public and unpublishing hides it; and when the update changed the
    slug, the former slug answers 404. *)
Theorem updated_post_is_served_by_its_new_state (id : string)
    (n now later : Z) (b : blog_body) (db : database) (p : BlogPost.t) :
  JS.parseInt id = Some n -> JS.safe n -> blog_fits b ->
  blog_keys_ok db -> authors_ok db ->
  In p (blog_posts db) -> BlogPost.id p = n -> ~ slug_taken b n db ->
  exists db1 p',
    put_blog_handler id now b db = (Reply 200 tt, db1)
    /\ In p' (blog_posts db1) /\ updated_by b now p p'
    /\ (BlogPost.published p' = true ->
        exists reply db2,
          get_blog_slug (BlogPost.slug p') later db1 = (Reply 200 reply, db2)
          /\ BlogPost.id (post reply) = n
          /\ BlogPost.views (post reply) = BlogPost.views p + 1)
    /\ (BlogPost.published p' = false ->
        get_blog_slug (BlogPost.slug p') later db1
        = (Error 404 "Blog post not found", db1))
    /\ (BlogPost.slug p' <> BlogPost.slug p ->
        get_blog_slug (BlogPost.slug p) later db1
        = (Error 404 "Blog post not found", db1)).
Proof.
  intros Hid _ _ Hkeys Hauth Hin Hp Hfree.
  pose proof (put_blog_handler_keys id now b db Hkeys) as Hkeys1.
  pose proof (put_blog_handler_authors id now b db Hauth) as Hauth1.
  destruct (put_blog_handler_cases id n now b db Hid) as (_ & _ & Hok).
  rewrite Hok in *
    by (try exact Hfree;
        apply (filter_not_nil_In _ _ p Hin); simpl; now apply Z.eqb_eq).
  simpl in Hkeys1, Hauth1.
  set (db1 := set_blog_posts db _ _) in *.
  set (p' := apply_blog_update b now p).
  assert (Hin' : In p' (blog_posts db1)).
  { simpl. unfold Sql.update. apply in_map_iff. exists p.
    split; [|exact Hin]. simpl. now rewrite Hp, Z.eqb_refl. }
  assert (Horigin : forall q, In q (blog_posts db1) ->
                              q = p' \/ (In q (blog_posts db) /\ q <> p)).
  { intros q Hq. simpl in Hq. apply update_In in Hq as (q0 & Hq0 & ->).
    simpl. destruct (BlogPost.id q0 =? n) eqn:E.
    - apply Z.eqb_eq in E. left.
      assert (Hq0p : q0 = p).
      { apply (NoDup_map_eq BlogPost.id (blog_posts db)); auto.
        - apply Hkeys.
        - congruence. }
      now rewrite Hq0p.
    - right. split; [exact Hq0|]. intros ->. apply Z.eqb_neq in E.
      contradiction. }
  exists db1, p'. split; [reflexivity|]. split; [exact Hin'|].
  split; [apply apply_blog_update_spec|]. split; [|split].
  - intros Hpub.
    destruct (get_blog_slug_found (BlogPost.slug p') later db1 p'
                Hkeys1 Hauth1 Hin' eq_refl Hpub) as (a & E).
    eexists. eexists. split; [exact E|]. simpl.
    split; [exact Hp | reflexivity].
  - intros Hdraft. apply get_blog_slug_missing. intros q Hq Hs.
    assert (q = p'); [|now subst q].
    apply (NoDup_map_eq BlogPost.slug (blog_posts db1)); auto.
    apply Hkeys1.
  - intros Hrenamed. apply get_blog_slug_missing. intros q Hq Hs.
    exfalso. apply Horigin in Hq as [->|[Hq Hne]]; [contradiction|].
    apply Hne. apply (NoDup_map_eq BlogPost.slug (blog_posts db)); auto.
    apply Hkeys.
Qed.

Lemma updated_post_is_served_by_its_new_state_witness :
  exists db1 reply db2,
    put_blog_handler "3" 100
        (mkBlogBody None (Some "launch") None None Absent None Absent None
                    None (Some true) None) demo_db
      = (Reply 200 tt, db1)
    /\ get_blog_slug "launch" 200 db1 = (Reply 200 reply, db2)
    /\ get_blog_slug "draft" 200 db1
       = (Error 404 "Blog post not found", db1).
Proof.
  assert (Hok : blog_keys_ok demo_db).
  { unfold blog_keys_ok. simpl.
    repeat split; repeat constructor; simpl; intuition (try discriminate). }
  assert (Hau : authors_ok demo_db).
  { unfold authors_ok. simpl.
    repeat split; repeat constructor; simpl; intuition. }
  destruct (updated_post_is_served_by_its_new_state "3" 3 100 200
              (mkBlogBody None (Some "launch") None None Absent None Absent
                          None None (Some true) None)
              demo_db (demo_post 3 "draft" "care" false 30) eq_refl
              ltac:(in_range) ltac:(in_range) Hok Hau)
    as (db1 & p' & E & Hin & Hup & Hpub & _ & Hold).
  - simpl; auto.
  - reflexivity.
  - intros (s & q & Hs & _ & Hq & Hqs & _). injection Hs as <-.
    destruct Hq as [<-|[<-|[<-|[]]]]; discriminate.
  - destruct Hup as (_ & _ & _ & _ & _ & _ & (Hslug & _) & Hrest).
    destruct Hrest as (_ & _ & _ & _ & _ & _ & _ & Hflag & _).
    simpl in Hflag.
    assert (Hs : BlogPost.slug p' = "launch")
      by (apply Hslug; [reflexivity | discriminate]).
    rewrite Hs in *.
    destruct (Hpub Hflag) as (reply & db2 & Ef & _).
    exists db1, reply, db2. repeat split; auto.
    apply Hold. discriminate.
Defined.

(* ================================================================= *)
(** ** Walking the admin listings *)

Lemma contacts_page_unfold (l : Z) (db : database) (p : nat) :
  1 <= l -> (1 <= p)%nat ->
  contacts_page l db p
  = firstn (Z.to_nat l)
      (skipn ((p - 1) * Z.to_nat l)
         (Sql.order_by_desc Contact.createdAt (contacts db))).
Proof.
  intros Hl Hp. unfold contacts_page, get_admin_contacts_handler.
  rewrite paginated_list_unfold. simpl q_page. simpl q_limit.
  simpl JS.parseInt_opt. rewrite !parseInt_toString. simpl JS.lt.
  replace (Z.of_nat p <? 0) with false by (symmetry; apply Z.ltb_ge; lia).
  replace (l <? 0) with false by (symmetry; apply Z.ltb_ge; lia).
  simpl. unfold effective.
  replace (Z.of_nat p =? 0) with false by (symmetry; apply Z.eqb_neq; lia).
  replace (l =? 0) with false by (symmetry; apply Z.eqb_neq; lia).
  f_equal. f_equal. nia.
Qed.

(** X18: when the contacts have distinct creation times, the pages of the
    admin contact listing, read one after the other with one limit, are
    the table in creation order, most recent first, without a gap or a
    repeat: pages 1 to [n] hold the first [n * limit] rows, and all the
    rows once [n * limit] reaches their number.  Page 0 is page 1.  The
    limit and [n * limit] are safe integers. *)
Theorem admin_contact_pages_cover_the_table (l : Z) (n : nat)
    (db : database) :
  1 <= l ->
  JS.safe l -> JS.safe (Z.of_nat n * l) ->
  NoDup (map Contact.createdAt (contacts db)) ->
  List.concat (map (contacts_page l db) (seq 1 n))
  = firstn (n * Z.to_nat l)
      (Sql.order_by_desc Contact.createdAt (contacts db))
  /\ (Z.of_nat (List.length (contacts db)) <= Z.of_nat n * l ->
      Permutation (List.concat (map (contacts_page l db) (seq 1 n)))
                  (contacts db))
  /\ contacts_page l db 0 = contacts_page l db 1.
Proof.
  intros Hl _ _ _.
  assert (Hcat : List.concat (map (contacts_page l db) (seq 1 n))
                 = firstn (n * Z.to_nat l)
                     (Sql.order_by_desc Contact.createdAt (contacts db))).
  { induction n as [|n IH]; [reflexivity|].
    rewrite seq_S, map_app, concat_app, IH. simpl List.concat.
    rewrite app_nil_r, contacts_page_unfold by lia.
    replace (S n - 1)%nat with n by lia.
    replace (S n * Z.to_nat l)%nat with (n * Z.to_nat l + Z.to_nat l)%nat
      by lia.
    now rewrite firstn_plus. }
  split; [exact Hcat|]. split.
  - intros Hall. rewrite Hcat, firstn_all2.
    + apply order_by_desc_perm.
    + rewrite order_by_desc_length. nia.
  - unfold contacts_page, get_admin_contacts_handler.
    rewrite !paginated_list_unfold. simpl q_page. simpl q_limit.
    simpl JS.parseInt_opt. rewrite !parseInt_toString. reflexivity.
Qed.

Lemma admin_contact_pages_cover_the_table_witness :
  map Contact.id (List.concat (map (contacts_page 2 demo_db) (seq 1 3)))
  = [4; 5; 2; 3; 1].
Proof.
  rewrite (proj1 (admin_contact_pages_cover_the_table 2 3 demo_db
                    ltac:(lia) ltac:(in_range) ltac:(in_range)
                    ltac:(cbn; repeat constructor; cbn;
                          intuition discriminate))).
  reflexivity.
Defined.

(* ================================================================= *)
(** ** The status filter of the admin review listing *)

Lemma filter_split_length {A : Type} (f : A -> bool) (l : list A) :
  (List.length (filter f l) + List.length (filter (fun x => negb (f x)) l)
   = List.length l)%nat.
Proof.
  induction l as [|x l IH]; simpl; [reflexivity|].
  destruct (f x); simpl; lia.
Qed.

Lemma get_admin_reviews_handler_ok (q : list_query) (db : database) :
  JS.lt (JS.parseInt_opt (q_page q)) 0
  || JS.lt (JS.parseInt_opt (q_limit q)) 0 = false ->
  forall status,
  exists rows pg,
    get_admin_reviews_handler (with_status q status) db
    = Reply 200 (rows, pg)
    /\ total pg
       = Z.of_nat (List.length (filter (status_clause status) (reviews db)))
    /\ Forall (fun r => status_clause status r = true
                        /\ In r (reviews db)) rows.
Proof.
  intros G status. unfold get_admin_reviews_handler.
  rewrite paginated_list_unfold. simpl q_page. simpl q_limit.
  simpl q_status. rewrite G.
  eexists. eexists. split; [reflexivity|]. split; [reflexivity|].
  apply Forall_forall. intros r Hr.
  apply firstn_incl, skipn_incl, order_by_desc_In in Hr.
  apply filter_In in Hr. tauto.
Qed.

(** X19: on GET /api/admin/reviews, for a page and a limit that pass the
    guard and are, with the offset, safe integers: [status=pending] lists
    only reviews that are not approved and [status=approved] only
    approved ones; any other status, or none, lists all reviews; and for
    the same page and limit the totals of the pending and of the approved
    listing add up to the total without a filter. *)
Theorem review_status_filter_partitions (q : list_query) (db : database) :
  JS.lt (JS.parseInt_opt (q_page q)) 0
  || JS.lt (JS.parseInt_opt (q_limit q)) 0 = false ->
  listing_in_range q 20 ->
  (exists rows pg,
      get_admin_reviews_handler (with_status q (Some "pending")) db
      = Reply 200 (rows, pg)
      /\ Forall (fun r => Review.approved r = false) rows)
  /\ (exists rows pg,
      get_admin_reviews_handler (with_status q (Some "approved")) db
      = Reply 200 (rows, pg)
      /\ Forall (fun r => Review.approved r = true) rows)
  /\ (forall s, s <> "pending" -> s <> "approved" ->
        get_admin_reviews_handler (with_status q (Some s)) db
        = get_admin_reviews_handler (with_status q None) db)
  /\ (exists tp ta tall,
        total_of (get_admin_reviews_handler
                    (with_status q (Some "pending")) db) = Some tp
        /\ total_of (get_admin_reviews_handler
                       (with_status q (Some "approved")) db) = Some ta
        /\ total_of (get_admin_reviews_handler (with_status q None) db)
           = Some tall
        /\ tall = Z.of_nat (List.length (reviews db))
        /\ tp + ta = tall).
Proof.
  intros G _. split; [|split; [|split]].
  - destruct (get_admin_reviews_handler_ok q db G (Some "pending"))
      as (rows & pg & E & _ & Hrows).
    exists rows, pg. split; [exact E|].
    eapply Forall_impl; [|exact Hrows]. simpl.
    intros r [Hc _]. now apply negb_true_iff in Hc.
  - destruct (get_admin_reviews_handler_ok q db G (Some "approved"))
      as (rows & pg & E & _ & Hrows).
    exists rows, pg. split; [exact E|].
    eapply Forall_impl; [|exact Hrows]. simpl. tauto.
  - intros s Hp Ha. unfold get_admin_reviews_handler, with_status.
    simpl q_status. simpl q_page. simpl q_limit.
    replace (filter (status_clause (Some s)) (reviews db))
      with (filter (status_clause None) (reviews db)); [reflexivity|].
    apply filter_ext. intros r. simpl.
    apply String.eqb_neq in Hp, Ha. now rewrite Hp, Ha.
  - destruct (get_admin_reviews_handler_ok q db G (Some "pending"))
      as (rp & pgp & Ep & Htp & _).
    destruct (get_admin_reviews_handler_ok q db G (Some "approved"))
      as (ra & pga & Ea & Hta & _).
    destruct (get_admin_reviews_handler_ok q db G None)
      as (rall & pgall & Eall & Htall & _).
    exists (total pgp), (total pga), (total pgall).
    rewrite Ep, Ea, Eall. simpl. repeat split.
    + rewrite Htall. simpl. f_equal.
      clear. induction (reviews db) as [|r l IH]; simpl; [reflexivity|].
      now rewrite IH.
    + rewrite Htp, Hta, Htall.
      pose proof (filter_split_length Review.approved (reviews db)) as L.
      replace (filter (status_clause (Some "pending")) (reviews db))
        with (filter (fun r => negb (Review.approved r)) (reviews db))
        by reflexivity.
      replace (filter (status_clause (Some "approved")) (reviews db))
        with (filter Review.approved (reviews db)) by reflexivity.
      replace (filter (status_clause None) (reviews db)) with (reviews db).
      * lia.
      * clear. induction (reviews db) as [|r l IH]; simpl; [reflexivity|].
        now rewrite <- IH.
Qed.

Lemma review_status_filter_partitions_witness :
  exists rows pg,
    get_admin_reviews_handler
      (with_status (mkQuery None None None) (Some "pending")) demo_db
    = Reply 200 (rows, pg)
    /\ map Review.id rows = [2].
Proof.
  destruct (proj1 (review_status_filter_partitions (mkQuery None None None)
                     demo_db eq_refl ltac:(in_range)))
    as (rows & pg & E & _).
  exists rows, pg. split; [exact E|].
  vm_compute in E. injection E as <- _. reflexivity.
Defined.

(* ================================================================= *)
(** ** Read time *)

(** X20: the read time of a post is one minute for every 200 words
    begun, where the words are the pieces between runs of white space of
    the content without its tags, and never less than one minute; an
    update that supplies content stores the read time of the new
    content. *)
Theorem readTime_counts_words (content : string) :
  let wordCount := Regex.split_ws_length (Regex.strip_tags content) in
  1 <= wordCount
  /\ 1 <= readTime_of content
  /\ (readTime_of content - 1) * 200 < wordCount <= readTime_of content * 200
  /\ (content <> "" ->
      forall b now p,
        b_content b = Some content ->
        BlogPost.readTime (apply_blog_update b now p) = readTime_of content).
Proof.
  intros wordCount.
  assert (Hruns : forall s r, 0 <= Regex.ws_runs s r).
  { induction s as [|c s IH]; intros r; simpl; [lia|].
    destruct (JS.is_space c).
    - specialize (IH true). destruct r; lia.
    - apply IH. }
  assert (Hwc : 1 <= wordCount).
  { unfold wordCount, Regex.split_ws_length.
    specialize (Hruns (Regex.strip_tags content) false). lia. }
  pose proof (ceil_div_bounds wordCount 200 ltac:(lia)) as Hc.
  assert (Hrt : readTime_of content = JS.ceil_div wordCount 200).
  { unfold readTime_of, JS.max. fold wordCount. lia. }
  repeat split; try lia.
  intros Hne b now p Hb. simpl. unfold new_readTime. rewrite Hb.
  apply truthy_true in Hne. rewrite Hne.
  replace (readTime_of content =? 0) with false
    by (symmetry; apply Z.eqb_neq; lia).
  reflexivity.
Qed.

Lemma readTime_counts_words_witness :
  BlogPost.readTime
    (apply_blog_update
       (mkBlogBody None None None (Some "<b>one</b> two  three") Absent None
                   Absent None None None None)
       9 (demo_post 1 "first" "care" true 10))
  = readTime_of "<b>one</b> two  three".
Proof.
  apply (proj2 (proj2 (proj2 (readTime_counts_words
                                "<b>one</b> two  three")))).
  - discriminate.
  - reflexivity.
Defined.

(* ================================================================= *)
(** ** Ids in the path *)

Lemma string_append_assoc (a b c : string) :
  String.append (String.append a b) c = String.append a (String.append b c).
Proof. induction a as [|x a IH]; simpl; [reflexivity | now rewrite IH]. Qed.

Lemma digits_fuel_app (f : nat) (n : Z) (acc : string) :
  JS.digits_fuel f n acc = String.append (JS.digits_fuel f n "") acc.
Proof.
  revert n acc. induction f as [|f IH]; intros n acc; [reflexivity|].
  rewrite !digits_fuel_S. destruct (n <? 10); [reflexivity|].
  rewrite (IH (n / 10) (String _ acc)), (IH (n / 10) (String _ "")).
  now rewrite string_append_assoc.
Qed.

Lemma is_digit_digit_val (c : ascii) :
  Regex.is_digit c = false -> JS.digit_val 10 c = None.
Proof.
  destruct c as [[] [] [] [] [] [] [] []]; intros H;
    try discriminate H; reflexivity.
Qed.

Lemma parse_digits_stop (rest : string) (n : Z) :
  ends_the_number rest = true ->
  JS.parse_digits 10 rest (Some n) = Some n.
Proof.
  destruct rest as [|c rest]; [reflexivity|]. simpl. intros H.
  apply andb_true_iff in H as [H _]. apply andb_true_iff in H as [H _].
  apply negb_true_iff in H. now rewrite (is_digit_digit_val c H).
Qed.

(** A digit in front, and no [x] behind it: the string is read in base
    10 from its first character. *)
Lemma parseInt_decimal (c : ascii) (s : string) :
  Regex.is_digit c = true ->
  match s with
  | String c' _ => negb (Ascii.eqb c' "x") && negb (Ascii.eqb c' "X")
  | EmptyString => true
  end = true ->
  JS.parseInt (String c s) = JS.parse_digits 10 (String c s) None.
Proof.
  intros Hc Hs.
  assert (E : JS.parseInt (String c s)
              = match JS.parse_digits 10 (String c s) None with
                | Some m => Some (1 * m) | None => None end).
  { destruct c as [[] [] [] [] [] [] [] []]; try discriminate Hc;
      try reflexivity;
      destruct s as [|c' s']; try reflexivity;
      destruct c' as [[] [] [] [] [] [] [] []];
      try reflexivity; discriminate Hs. }
  rewrite E. destruct (JS.parse_digits 10 (String c s) None);
    [f_equal; lia | reflexivity].
Qed.

Lemma is_digit_not_x (c : ascii) :
  Regex.is_digit c = true ->
  negb (Ascii.eqb c "x") && negb (Ascii.eqb c "X") = true.
Proof.
  destruct c as [[] [] [] [] [] [] [] []]; intros H;
    try discriminate H; reflexivity.
Qed.

Lemma parseInt_toString_then (n : Z) (rest : string) :
  0 <= n -> ends_the_number rest = true ->
  JS.parseInt (String.append (JS.toString n) rest) = Some n.
Proof.
  intros Hn Hrest. unfold JS.toString.
  replace (n <? 0) with false by (symmetry; apply Z.ltb_ge; lia).
  set (f := Z.to_nat (Z.log2 n)).
  pose proof (digits_fuel_nonempty f n "") as Hne.
  pose proof (digits_fuel_all_digits (S f) n "" eq_refl) as Hd.
  assert (Hval : JS.parse_digits 10 (JS.digits_fuel (S f) n rest) None
                 = Some n).
  { rewrite parse_digits_fuel; [now apply parse_digits_stop | | exact I].
    split; [exact Hn|]. unfold f.
    rewrite Nat2Z.inj_succ, Z2Nat.id by apply Z.log2_nonneg.
    destruct (Z.eq_dec n 0) as [->|]; [reflexivity|].
    apply Z.log2_spec. lia. }
  rewrite (digits_fuel_app (S f) n rest) in Hval.
  destruct (JS.digits_fuel (S f) n "") as [|c d]; [contradiction|].
  simpl in Hd. apply andb_true_iff in Hd as [Hc Hd].
  simpl String.append in *. rewrite parseInt_decimal; [exact Hval | exact Hc |].
  destruct d as [|c' d]; simpl.
  - destruct rest as [|r rest]; [reflexivity|]. simpl in Hrest.
    apply andb_true_iff in Hrest as [Hrest HX].
    apply andb_true_iff in Hrest as [_ Hx]. now rewrite Hx, HX.
  - simpl in Hd. apply andb_true_iff in Hd as [Hc' _].
    now apply is_digit_not_x.
Qed.

(** X21: a route reads the id in its path with [parseInt], so text after
    the number, a safe integer, is ignored as long as it cannot continue
    the number: such a path addresses the same row as the bare id, on
    every route that takes an id. *)
Theorem ids_may_carry_trailing_text (n : Z) (rest : string) (now : Z)
    (b : blog_body) (db : database) :
  0 <= n -> JS.safe n -> ends_the_number rest = true ->
  let id := JS.toString n in
  let id' := String.append (JS.toString n) rest in
  JS.parseInt id' = Some n
  /\ delete_contact id' db = delete_contact id db
  /\ delete_reviews id' db = delete_reviews id db
  /\ delete_blog_handler id' db = delete_blog_handler id db
  /\ put_reviews_approve id' now db = put_reviews_approve id now db
  /\ put_blog_handler id' now b db = put_blog_handler id now b db
  /\ get_blog_admin_handler id' db = get_blog_admin_handler id db.
Proof.
  intros Hn _ Hrest id id'.
  assert (E' : JS.parseInt id' = Some n)
    by now apply parseInt_toString_then.
  assert (E : JS.parseInt id = Some n) by apply parseInt_toString.
  split; [exact E'|].
  unfold delete_contact, delete_reviews, delete_blog_handler,
    put_reviews_approve, put_blog_handler, get_blog_admin_handler.
  rewrite E, E'. repeat split.
Qed.

Lemma ids_may_carry_trailing_text_witness :
  delete_contact "3abc" demo_db = delete_contact "3" demo_db.
Proof.
  apply (proj1 (proj2 (ids_may_carry_trailing_text 3 "abc" 0 no_body
                         demo_db ltac:(lia) ltac:(in_range) eq_refl))).
Defined.

(** X22: a safe integer survives its decimal string:
    [parseInt(String(n))] is [n] for every integer of magnitude below
    2^53, with or without the radix 10 for the non-negative ones, so the
    [parseInt(offset)] and [parseInt(limit)] of the blog listing return
    such numbers as they are given, a rating is read alike as the number
    and as its string, and an id returned by a create route addresses the
    same row when it comes back in a path. *)
Theorem integers_survive_their_decimal_string (n : Z) :
  JS.safe n ->
  JS.parseInt (JS.toString n) = Some n
  /\ JS.parseInt_num (Some n) = Some n
  /\ JS.parseInt_value (JS.Str (JS.toString n)) = Some n
  /\ JS.parseInt_value (JS.Num (JS.toString n)) = Some n
  /\ (0 <= n -> JS.parseInt10 (JS.toString n) = Some n)
  /\ (forall db, has_contact_id (JS.parseInt (JS.toString n))
                 = has_contact_id (Some n)
                 /\ delete_contact (JS.toString n)
                      (snd (delete_contact (JS.toString n) db))
                    = (Error 404 "Contact not found",
                       snd (delete_contact (JS.toString n) db))).
Proof.
  intros _. pose proof (parseInt_toString n) as E.
  split; [exact E|]. split; [exact E|]. split; [exact E|].
  split; [exact E|].
  split; [apply parseInt10_toString|].
  intros db. split; [now rewrite E|].
  apply (proj1 (delete_contact_cases (JS.toString n) n _ E)).
  unfold delete_contact. rewrite E. simpl JS.isNaN. cbv iota.
  destruct (Sql.affectedRows _ _ =? 0); simpl; apply delete_leaves_none.
Qed.

(* ================================================================= *)
(** ** Routes behind the token *)

(** X23: the deletes and the admin read that sit behind the middleware
    do nothing without a token that verifies: either the request is
    authorized and the route is its handler, or all of them answer 401 or
    403 and leave the database as it is. *)
Theorem token_guards_deletes_and_admin_reads `{Crypto} (now : Z)
    (authHeader : option string) (id : string) (db : database) :
  ((exists user, authorized now authHeader user)
   /\ delete_admin_contacts now authHeader id db = delete_contact id db
   /\ delete_admin_reviews now authHeader id db = delete_reviews id db
   /\ delete_blog now authHeader id db = delete_blog_handler id db
   /\ get_blog_admin now authHeader id db
      = (get_blog_admin_handler id db, db))
  \/ (exists s msg,
        (s = 401 \/ s = 403)
        /\ delete_admin_contacts now authHeader id db = (Error s msg, db)
        /\ delete_admin_reviews now authHeader id db = (Error s msg, db)
        /\ delete_blog now authHeader id db = (Error s msg, db)
        /\ get_blog_admin now authHeader id db = (Error s msg, db)).
Proof.
  unfold delete_admin_contacts, delete_admin_reviews, delete_blog,
    get_blog_admin, authenticateToken.
  destruct (bearer_token authHeader) as [token|] eqn:Hb.
  - destruct (JS.truthy token) eqn:Ht; simpl.
    + destruct (jwt_verify now token) as [user|] eqn:Hv.
      * left. split; [|repeat split].
        exists user, token. auto.
      * right. exists 403, "Invalid token". auto.
    + right. exists 401, "Access token required". auto.
  - right. exists 401, "Access token required". auto.
Qed.

Lemma integers_survive_their_decimal_string_witness :
  JS.parseInt10 (JS.toString 2026) = Some 2026.
Proof.
  apply (proj1 (proj2 (proj2 (proj2 (proj2
           (integers_survive_their_decimal_string 2026
              ltac:(in_range))))))).
  lia.
Defined.

(* ================================================================= *)
(** ** The rating of a review *)

(** A rating that begins with one of the digits 1 to 5, not followed by
    another digit, is truthy and parses to that digit. *)
Lemma rating_prefix_parsed (n : Z) (rest : string) :
  1 <= n <= 5 -> begins_with_digit rest = false ->
  JS.parseInt (String.append (JS.toString n) rest) = Some n
  /\ JS.truthy (String.append (JS.toString n) rest) = true
  /\ String.eqb (String.append (JS.toString n) rest) "0"
     || String.eqb (String.append (JS.toString n) rest) "NaN" = false.
Proof.
  intros Hn Hrest.
  assert (Hstop : forall k, JS.parse_digits 10 rest (Some k) = Some k).
  { intros k. destruct rest as [|c rest]; [reflexivity|]. simpl in *.
    now rewrite (is_digit_digit_val c Hrest). }
  assert (Hc : n = 1 \/ n = 2 \/ n = 3 \/ n = 4 \/ n = 5) by lia.
  destruct Hc as [E|[E|[E|[E|E]]]]; subst n;
    (split; [unfold JS.parseInt; cbn; rewrite Hstop; reflexivity|]);
    (split; [reflexivity|]); cbn; destruct rest; reflexivity.
Qed.

(** C10: POST /api/reviews converts the rating with [parseInt] before the
    range check, so a rating that is not an integer but begins with an
    integer [n] of [1,5] (the digits of [n], then text that does not go on
    with a digit), given as a string or as a number that prints so, is
    accepted and the review is stored with rating [n]: the string ["4.9"]
    and the number 4.9 are stored as 4.  The text fields pass the
    validation and fit their columns. *)
Theorem review_rating_is_parsed_prefix (e : env) (delivered : bool) (now : Z)
    (b : review_body) (db : database) (name email comment : string)
    (n : Z) (rest : string) :
  valid_review_text b name email comment ->
  review_fits b ->
  1 <= n <= 5 ->
  begins_with_digit rest = false ->
  rb_rating b = JS.Str (String.append (JS.toString n) rest)
  \/ rb_rating b = JS.Num (String.append (JS.toString n) rest) ->
  let insertId := reviews_auto_increment db in
  let row := Review.mk insertId name email n comment false now now in
  JS.parseInt_value (rb_rating b) = Some n
  /\ exists db' effects,
       post_reviews e delivered now b db = (Reply 201 insertId, db', effects)
       /\ reviews db' = (reviews db ++ [row])%list
       /\ Review.rating row = n.
Proof.
  intros (Hn & He & Hc & Hne & Hre & Hlen) _ Hrange Hrest Hrating
         insertId row.
  destruct (rating_prefix_parsed n rest Hrange Hrest) as (Hparse & Ht & Hz).
  assert (Hpv : JS.parseInt_value (rb_rating b) = Some n).
  { destruct Hrating as [-> | ->]; exact Hparse. }
  assert (Hrt : JS.truthy_value (rb_rating b) = true).
  { destruct Hrating as [-> | ->]; simpl; [exact Ht | now rewrite Hz]. }
  split; [exact Hpv|].
  assert (Hee : email <> "") by (intros ->; discriminate).
  assert (Hce : comment <> "") by (intros ->; simpl in Hlen; lia).
  apply truthy_true in Hne, Hee, Hce.
  eexists. eexists. split.
  - unfold post_reviews.
    rewrite Hn, He, Hc, Hne, Hee, Hce, Hrt, Hre, Hpv. simpl.
    replace (n <? 1) with false by (symmetry; apply Z.ltb_ge; lia).
    replace (5 <? n) with false by (symmetry; apply Z.ltb_ge; lia).
    replace (String.length comment <? 10)%nat with false
      by (symmetry; apply Nat.ltb_ge; lia).
    replace (1000 <? String.length comment)%nat with false
      by (symmetry; apply Nat.ltb_ge; lia).
    simpl. reflexivity.
  - simpl. split; reflexivity.
Qed.

Lemma review_rating_is_parsed_prefix_witness :
  (exists db' effects,
     post_reviews (mkEnv None None) true 9
         (mkReviewBody (Some "Ana") (Some "a@b.com") (JS.Str "4.9")
                       (Some "Very good care")) demo_db
       = (Reply 201 3, db', effects)
     /\ reviews db'
        = (reviews demo_db
             ++ [Review.mk 3 "Ana" "a@b.com" 4 "Very good care" false 9 9])
          %list)
  /\ JS.parseInt_value (JS.Num "1e+21") = Some 1.
Proof.
  split.
  - destruct (review_rating_is_parsed_prefix (mkEnv None None) true 9
                (mkReviewBody (Some "Ana") (Some "a@b.com") (JS.Str "4.9")
                              (Some "Very good care")) demo_db
                "Ana" "a@b.com" "Very good care" 4 ".9")
      as (_ & db' & effects & E & Hrows & _).
    + unfold valid_review_text. simpl.
      repeat split; try reflexivity; try discriminate; lia.
    + in_range.
    + lia.
    + reflexivity.
    + left. reflexivity.
    + exists db', effects. split; [exact E | exact Hrows].
  - apply (proj1 (review_rating_is_parsed_prefix (mkEnv None None) true 9
                    (mkReviewBody (Some "Ana") (Some "a@b.com")
                                  (JS.Num "1e+21") (Some "Very good care"))
                    demo_db "Ana" "a@b.com" "Very good care" 1 "e+21"
                    ltac:(unfold valid_review_text; simpl;
                          repeat split; try reflexivity;
                          try discriminate; lia)
                    ltac:(in_range) ltac:(lia) eq_refl
                    (or_intror eq_refl))).
Defined.
